(** * Support-ticket RAG pipeline: a shallow embedding of [src/rag]

    The Python modules [references], [retriever], [query_rewriter],
    [action_classifier], [schemas], [generation] and [rag_pipeline] are
    transcribed function by function.  Python [str] is a sequence of
    Unicode code points, Python [float] is IEEE-754 binary64 (the kernel's
    primitive floats), Python [int] is [Z], exceptions are an explicit
    error result, and the calls made to the external models are recorded
    in a call log.  The modules are transcribed twice: first with
    documents as values and collaborators that return, then, in [Full],
    with documents as objects that may share a metadata dict and with
    collaborators that may raise.  The second refines the first: a run of
    [Full] is the run of the first cut at the first call that raises. *)

From Stdlib Require Import List Bool Arith ZArith NArith Lia String Ascii.
From Stdlib Require Import Permutation Sorted Floats.
Import ListNotations.

Set Warnings "-inexact-float".

(** ** Python strings *)

Module PyStr.

(** One Unicode code point. *)
Definition char := N.

(** A Python [str]. *)
Definition pystr := list char.

(** The code points of an ASCII literal. *)
Definition u (s : string) : pystr :=
  map N_of_ascii (list_ascii_of_string s).

Definition char_eqb (a b : char) : bool := N.eqb a b.

Fixpoint str_eqb (a b : pystr) : bool :=
  match a, b with
  | [], [] => true
  | x :: a', y :: b' => char_eqb x y && str_eqb a' b'
  | _, _ => false
  end.

Definition str_in (s : pystr) (l : list pystr) : bool :=
  existsb (str_eqb s) l.

Local Open Scope N_scope.

Definition in_range (lo hi c : char) : bool :=
  (N.leb lo c && N.leb c hi)%bool.

(** [str.isspace] on one character, which is also the [\s] class of [re]
    on [str] patterns. *)
Definition isspace (c : char) : bool :=
  in_range 9 13 c || in_range 28 32 c || N.eqb c 133 || N.eqb c 160
  || N.eqb c 5760 || in_range 8192 8202 c || in_range 8232 8233 c
  || N.eqb c 8239 || N.eqb c 8287 || N.eqb c 12288.

(** The line boundaries of [str.splitlines]. *)
Definition islinebreak (c : char) : bool :=
  in_range 10 13 c || in_range 28 30 c || N.eqb c 133
  || in_range 8232 8233 c.

Fixpoint dropwhile (p : char -> bool) (s : pystr) : pystr :=
  match s with
  | [] => []
  | c :: s' => if p c then dropwhile p s' else s
  end.

Fixpoint takewhile (p : char -> bool) (s : pystr) : pystr :=
  match s with
  | [] => []
  | c :: s' => if p c then c :: takewhile p s' else []
  end.

(** [s.lstrip()], [s.rstrip()], [s.strip()]. *)
Definition lstrip (s : pystr) : pystr := dropwhile isspace s.
Definition rstrip (s : pystr) : pystr := rev (dropwhile isspace (rev s)).
Definition strip (s : pystr) : pystr := rstrip (lstrip s).

(** [s.lstrip(chars)]. *)
Definition lstrip_chars (chars : pystr) (s : pystr) : pystr :=
  dropwhile (fun c => existsb (char_eqb c) chars) s.

(** Truthiness of a [str]. *)
Definition truthy (s : pystr) : bool :=
  match s with [] => false | _ :: _ => true end.

(** [sep.join(parts)]. *)
Fixpoint join (sep : pystr) (parts : list pystr) : pystr :=
  match parts with
  | [] => []
  | [p] => p
  | p :: rest => p ++ sep ++ join sep rest
  end.

(** [s.splitlines()]: [cur] is the current line, reversed. *)
Fixpoint splitlines_from (cur : pystr) (s : pystr) : list pystr :=
  match s with
  | [] => match cur with [] => [] | _ :: _ => [rev cur] end
  | c :: s' =>
      if islinebreak c then
        rev cur ::
          match s' with
          | d :: s'' =>
              if (N.eqb c 13 && N.eqb d 10)%bool
              then splitlines_from [] s''
              else splitlines_from [] s'
          | [] => splitlines_from [] s'
          end
      else splitlines_from (c :: cur) s'
  end.

Definition splitlines (s : pystr) : list pystr := splitlines_from [] s.

Local Close Scope N_scope.

(** [a < b] on [str]: lexicographic on code points. *)
Fixpoint str_ltb (a b : pystr) : bool :=
  match a, b with
  | _, [] => false
  | [], _ :: _ => true
  | x :: a', y :: b' =>
      if N.ltb x y then true
      else if N.ltb y x then false
      else str_ltb a' b'
  end.

End PyStr.
Import PyStr.

(** ** Documents ([langchain_core.documents.Document]) *)

(** The metadata mapping, by the keys the pipeline reads or writes;
    [None] is an absent key. *)
Record Metadata := mkMetadata {
  category : option pystr;
  source_file : option pystr;
  section : option pystr;
  subsection : option pystr;
  relevance_score : option float
}.

Record Document := mkDocument {
  page_content : pystr;
  metadata : Metadata
}.

(** [d.get(key, default)]. *)
Definition get_default {A} (field : option A) (default : A) : A :=
  match field with Some v => v | None => default end.

(** [l[:k]] for an [int] [k]: the first [k] items, and for a negative [k]
    all but the last [-k] items. *)
Definition slice_to {A} (k : Z) (l : list A) : list A :=
  if (k <? 0)%Z then firstn (List.length l - Z.to_nat (- k)) l
  else firstn (Z.to_nat k) l.

(** ** [references.py] *)

Module references.

(** The two characters the source file holds in front of the subsection:
    U+0E22 and U+0E07. *)
Definition subsection_marker : pystr := [3618%N; 3591%N].

(** The section sign U+00A7. *)
Definition section_sign : pystr := [167%N].

Definition format_reference (doc : Document) : pystr :=
  let category := get_default (category (metadata doc)) (u "unknown") in
  let source_file :=
    get_default (source_file (metadata doc)) (u "unknown_file") in
  let section := get_default (section (metadata doc)) (u "Unknown Doc") in
  let subsection := subsection (metadata doc) in
  let parts := [category ++ u ": " ++ section] in
  let parts :=
    match subsection with
    | Some sub =>
        if truthy sub
        then parts ++ [subsection_marker ++ u " " ++ sub]
        else parts
    | None => parts
    end in
  let parts := parts ++ [u "file=" ++ source_file] in
  join (u " | ") parts.

Definition select_top_references (docs : list Document) (k : Z)
  : list pystr :=
  map format_reference (slice_to k docs).

End references.

(** ** Python floats *)

Module PyFloat.

(** [float(n)] for an [int]. *)
Definition float_of_Z (z : Z) : float :=
  SF2Prim (binary_normalize prec emax z 0 false).

(** [sum(xs)] for floats: the integer start value [0], then one addition
    per item, left to right (the summation of CPython up to 3.11; later
    versions also carry a compensation term for the rounding error). *)
Definition py_sum (xs : list float) : float :=
  fold_left PrimFloat.add xs (float_of_Z 0).

(** [a > b]. *)
Definition gtb (a b : float) : bool := PrimFloat.ltb b a.

(** The integer nearest to [a / b] for [b > 0], ties to the even one. *)
Definition round_half_even (a b : Z) : Z :=
  let q := (a / b)%Z in
  let r := (a mod b)%Z in
  match (2 * r ?= b)%Z with
  | Lt => q
  | Gt => (q + 1)%Z
  | Eq => if Z.even q then q else (q + 1)%Z
  end.

(** [m * 2^e * 10^ndigits], rounded to an integer: the digits of the
    decimal string that [round] builds. *)
Definition decimal_digits (m : positive) (e : Z) (ndigits : nat) : Z :=
  let p := (10 ^ Z.of_nat ndigits)%Z in
  if (0 <=? e)%Z then (Zpos m * 2 ^ e * p)%Z
  else round_half_even (Zpos m * p) (2 ^ (- e)).

(** The float nearest to [n / 10^ndigits], with sign [s]: the conversion
    of the decimal string back to a float. *)
Definition float_of_decimal (s : bool) (n : Z) (ndigits : nat) : float :=
  match n with
  | Zpos n' =>
      SF2Prim
        (SFdiv prec emax (S754_finite s n' 0)
           (S754_finite false (Z.to_pos (10 ^ Z.of_nat ndigits)) 0))
  | _ => SF2Prim (S754_zero s)
  end.

(** [round(x, ndigits)] for [0 <= ndigits]: NaN and the infinities round
    to themselves, a finite [x] goes through its correctly rounded decimal
    string. *)
Definition py_round (x : float) (ndigits : nat) : float :=
  match Prim2SF x with
  | S754_finite s m e =>
      float_of_decimal s (decimal_digits m e ndigits) ndigits
  | _ => x
  end.

End PyFloat.
Import PyFloat.

(** ** The order of the float comparisons *)

Module FloatOrder.
Local Open Scope Z_scope.

(** A position on a line of integer triples, compared lexicographically,
    for every float that is not NaN: the sign class first, then exponent
    and mantissa (negated for negative numbers). *)
Definition sf_key (x : spec_float) : Z * (Z * Z) :=
  match x with
  | S754_nan => (0, (0, 0))
  | S754_infinity true => (-2, (0, 0))
  | S754_finite true m e => (-1, (- e, - Zpos m))
  | S754_zero _ => (0, (0, 0))
  | S754_finite false m e => (1, (e, Zpos m))
  | S754_infinity false => (2, (0, 0))
  end.

Definition key_le (a b : Z * (Z * Z)) : Prop :=
  fst a < fst b
  \/ (fst a = fst b
      /\ (fst (snd a) < fst (snd b)
          \/ (fst (snd a) = fst (snd b) /\ snd (snd a) <= snd (snd b)))).

Definition key_lt (a b : Z * (Z * Z)) : Prop :=
  fst a < fst b
  \/ (fst a = fst b
      /\ (fst (snd a) < fst (snd b)
          \/ (fst (snd a) = fst (snd b) /\ snd (snd a) < snd (snd b)))).

(** The key of a float. *)
Definition fkey (x : float) : Z * (Z * Z) := sf_key (Prim2SF x).

(** The mantissa of the double nearest to 1.0005, whose exponent is -52. *)
Definition mantissa_1_0005 : Z := 4505851427184181.

End FloatOrder.

(** ** Exceptions, external services and the call log *)

(** The exceptions the modelled code raises.  [ValueError] carries its
    message (for a wrapped schema failure only the fixed prefix of the
    message); [ValidationError] carries the names of the rejected fields. *)
Inductive exn :=
| ValueError (msg : pystr)
| ValidationError (fields : list string).

(** One call to a service outside the pipeline. *)
Inductive call :=
| LLMCall (prompt : pystr)
| SearchCall (query : pystr) (k : Z)
| RerankCall (pairs : list (pystr * pystr))
| EncodeCall (text : pystr).

(** The process-wide handles of the modules, and the two library
    functions the pipeline only consumes.  Every handle is a function:
    this is what a call returns when it returns; which calls raise
    instead is the matter of [Faults] below. *)
Class Services := {
  (** The decimal-digit class [\d] of [re] on [str] patterns. *)
  unicode_isdecimal : char -> bool;
  (** [json.loads(raw)["answer"]] when [raw] is a JSON object whose
      ["answer"] is a string, [None] when the [try] block would raise. *)
  json_answer : pystr -> option pystr;
  (** [get_vectorstore().as_retriever(search_kwargs={"k": k}).invoke(q)]. *)
  retriever_invoke : pystr -> Z -> list Document;
  (** [RERANKER.predict(pairs)], one score per pair. *)
  RERANKER_predict : list (pystr * pystr) -> list float;
  (** [float(np.max(_MODEL.encode(texts) @ _MODEL.encode(answer)))], both
      encodings normalized. *)
  MODEL_max_similarity : list pystr -> pystr -> float
}.

(** Computations that may raise and that log their service calls. *)
Definition M (A : Type) : Type := list call -> (exn + A) * list call.

Definition ret {A} (a : A) : M A := fun log => (inr a, log).

Definition raise {A} (e : exn) : M A := fun log => (inl e, log).

Definition bind {A B} (m : M A) (k : A -> M B) : M B :=
  fun log =>
    match m log with
    | (inl e, log') => (inl e, log')
    | (inr a, log') => k a log'
    end.

Definition tell (c : call) : M unit := fun log => (inr tt, log ++ [c]).

Definition lift {A} (r : exn + A) : M A :=
  match r with inl e => raise e | inr a => ret a end.

Declare Scope pipeline_scope.
Delimit Scope pipeline_scope with pipeline.
Notation "x <- m ;; k" := (bind m (fun x => k))
  (at level 61, m at next level, right associativity) : pipeline_scope.
Notation "' p <- m ;; k" := (bind m (fun x => let p := x in k))
  (at level 61, p pattern, m at next level, right associativity)
  : pipeline_scope.
Notation "m ;; k" := (bind m (fun _ => k))
  (at level 61, right associativity) : pipeline_scope.

(** Python dict values the pipeline stores under string keys. *)
Inductive pyval :=
| VStr (s : pystr)
| VFloat (f : float)
| VInt (z : Z)
| VStrList (l : list pystr).

(** A Python [dict] with string keys, in insertion order. *)
Definition pydict := list (string * pyval).

(** [d.get(key)]. *)
Fixpoint dict_get (d : pydict) (key : string) : option pyval :=
  match d with
  | [] => None
  | (k, v) :: d' => if String.eqb k key then Some v else dict_get d' key
  end.

(** [d.get(key) == s] for a string literal [s]. *)
Definition get_is (d : pydict) (key : string) (s : pystr) : bool :=
  match dict_get d key with
  | Some (VStr t) => str_eqb t s
  | _ => false
  end.

(** [sorted(xs, key=key, reverse=True)]: a stable sort, items with equal
    keys stay in their input order.  The comparison is [<] on the float
    keys; with a NaN key the order Python produces depends on its sorting
    algorithm, so the theorems about order exclude NaN. *)
Fixpoint insert_desc {A} (key : A -> float) (x : A) (l : list A) : list A :=
  match l with
  | [] => [x]
  | y :: l' =>
      if PrimFloat.ltb (key x) (key y) then y :: insert_desc key x l'
      else x :: l
  end.

Definition sorted_desc {A} (key : A -> float) (l : list A) : list A :=
  fold_right (insert_desc key) [] l.

(** [sorted(set(xs))] for strings. *)
Fixpoint insert_str (s : pystr) (l : list pystr) : list pystr :=
  match l with
  | [] => [s]
  | t :: l' =>
      if str_ltb s t then s :: l
      else if str_eqb s t then l
      else t :: insert_str s l'
  end.

Definition sorted_set (l : list pystr) : list pystr :=
  fold_right insert_str [] l.

(** ** [retriever.py] *)

Module retriever.
Section WithServices.
Context {S : Services}.
Local Open Scope pipeline_scope.
Local Open Scope float_scope.

Definition INITIAL_K : Z := 6.
Definition FINAL_K : Z := 4.

(** [doc.metadata["relevance_score"] = score]. *)
Definition set_relevance_score (doc : Document) (score : float) : Document :=
  let m := metadata doc in
  mkDocument (page_content doc)
    (mkMetadata (category m) (source_file m) (section m) (subsection m)
       (Some score)).

(** The documents are values here: the write of the score makes a new
    value of the kept document.  This is what the source does to
    documents that share no metadata dict, as the ones a search returns;
    [Full._rerank_documents] has the shared case. *)
Definition _rerank_documents (query : pystr) (docs : list Document)
    (top_k : Z) : M (list Document * list float) :=
  match docs with
  | [] => ret ([], [])
  | _ :: _ =>
      let pairs := map (fun d => (query, page_content d)) docs in
      tell (RerankCall pairs) ;;
      let scores := RERANKER_predict pairs in
      let ranked := sorted_desc snd (combine docs scores) in
      let top_ranked := slice_to top_k ranked in
      ret (map (fun x => set_relevance_score (fst x) (snd x)) top_ranked,
           map snd top_ranked)
  end.

Definition evaluate_retrieval (scores : list float) (docs : list Document)
  : pydict :=
  match scores with
  | [] =>
      [("quality"%string, VStr (u "poor"));
       ("reason"%string, VStr (u "no_documents_retrieved"))]
  | top_score :: rest =>
      let avg_score :=
        py_sum scores / float_of_Z (Z.of_nat (List.length scores)) in
      let score_gap :=
        match rest with
        | second :: _ => top_score - second
        | [] => top_score
        end in
      let categories :=
        map (fun d => get_default (category (metadata d)) (u "unknown"))
          docs in
      let quality :=
        if (gtb top_score 4.0 && gtb score_gap 0.6)%bool then u "good"
        else if gtb top_score 3.0 then u "partially good"
        else u "poor" in
      [("quality"%string, VStr quality);
       ("avg_relevance_score"%string, VFloat (py_round avg_score 3));
       ("top_relevance_score"%string, VFloat (py_round top_score 3));
       ("score_gap"%string, VFloat (py_round score_gap 3));
       ("num_results"%string, VInt (Z.of_nat (List.length docs)));
       ("categories_covered"%string, VStrList (sorted_set categories))]
  end.

Definition retrieve_documents (query : pystr) (initial_k final_k : Z)
  : M (list Document * pydict) :=
  let q := strip query in
  if negb (truthy q) then
    raise (ValueError (u "Query must be a non-empty string"))
  else
    tell (SearchCall q initial_k) ;;
    let initial_docs := retriever_invoke q initial_k in
    r <- _rerank_documents q initial_docs final_k ;;
    let final_docs := fst r in
    let scores := snd r in
    ret (final_docs, evaluate_retrieval scores final_docs).

End WithServices.
End retriever.

(** ** [query_rewriter.py] *)

Module query_rewriter.
Section WithServices.
Context {S : Services}.
Local Open Scope pipeline_scope.

Definition quote3 : pystr := [34%N; 34%N; 34%N].

(** [QUERY_REWRITE_PROMPT.format(ticket=ticket)]. *)
Definition QUERY_REWRITE_PROMPT (ticket : pystr) : pystr :=
  join [10%N]
    [ [];
      u "You are a query rewriting assistant for a customer support knowledge base.";
      [];
      u "Rewrite the ticket into clear, retrieval-friendly search queries.";
      [];
      u "Rules:";
      u "- Use neutral, professional language";
      u "- Use support terminology (domain suspension, WHOIS, abuse, billing, etc.)";
      u "- Split multi-issue tickets into multiple queries";
      u "- Do NOT answer";
      u "- Do NOT add facts";
      u "- Output one query per line, no bullets, no numbering";
      [];
      u "Ticket:";
      quote3 ++ ticket ++ quote3;
      [];
      u "Queries:";
      [] ].

(** The two characters given to [lstrip]: the hyphen and the bullet
    U+2022. *)
Definition bullet_chars : pystr := [45%N; 8226%N].

(** [re.sub] of the pattern [^\d+[\.\)]\s*] by the empty string: the
    pattern is anchored at the start, so at most one match is removed. *)
Definition sub_numeric_prefix (s : pystr) : pystr :=
  match takewhile unicode_isdecimal s, dropwhile unicode_isdecimal s with
  | _ :: _, c :: rest =>
      if (N.eqb c 46 || N.eqb c 41)%bool then dropwhile isspace rest else s
  | _, _ => s
  end.

(** The body of the first loop for one line: [None] when the line is
    skipped, [Some s] when [s] is appended to [lines]. *)
Definition clean_line (line : pystr) : option pystr :=
  let s := strip line in
  if negb (truthy s) then None
  else
    let s := strip (lstrip_chars bullet_chars s) in
    let s := sub_numeric_prefix s in
    if truthy s then Some s else None.

(** The value of [s] at the last test of the loop body, as a function of
    the line; for a blank line, which the loop skips at its first test,
    the empty string. *)
Definition cleaned_line (line : pystr) : pystr :=
  sub_numeric_prefix (strip (lstrip_chars bullet_chars (strip line))).

Fixpoint clean_lines (lines : list pystr) : list pystr :=
  match lines with
  | [] => []
  | line :: rest =>
      match clean_line line with
      | Some s => s :: clean_lines rest
      | None => clean_lines rest
      end
  end.

(** The second loop: [seen] is the set, [out] the list built so far. *)
Fixpoint dedup_loop (seen out lines : list pystr) : list pystr :=
  match lines with
  | [] => out
  | q :: rest =>
      if str_in q seen then dedup_loop seen out rest
      else dedup_loop (q :: seen) (out ++ [q]) rest
  end.

Definition rewrite_ticket (ticket_text : pystr)
    (llm_call : pystr -> option pystr) : M (list pystr) :=
  if (negb (truthy ticket_text) || negb (truthy (strip ticket_text)))%bool
  then raise (ValueError (u "ticket_text must be non-empty"))
  else
    let prompt := QUERY_REWRITE_PROMPT (strip ticket_text) in
    tell (LLMCall prompt) ;;
    let response := llm_call prompt in
    let lines := clean_lines (splitlines (get_default response [])) in
    let out := dedup_loop [] [] lines in
    ret (firstn 5 out).

End WithServices.
End query_rewriter.

(** ** [action_classifier.py] *)

Module action_classifier.
Section WithServices.
Context {S : Services}.
Local Open Scope pipeline_scope.
Local Open Scope float_scope.

Definition ACTION_PROTOTYPES : list (pystr * list pystr) :=
  [ (u "escalate_to_abuse_team",
     [ u "Domain suspended for phishing, malware, or spam";
       u "Abuse complaint requires review by the Abuse Team";
       u "Support must not manually reactivate this domain";
       u "This suspension is due to a policy violation or abuse report" ]);
    (u "escalate_to_billing",
     [ u "Billing dispute involving charges, refunds, or invoices";
       u "Customer reports duplicate charge or payment failure";
       u "Domain suspended due to unpaid invoice or payment issue";
       u "Refund eligibility must be reviewed by Billing Team" ]);
    (u "escalate_to_technical",
     [ u "Domain is active but DNS is not resolving";
       u "Service outage or technical failure after renewal";
       u "System issue where services remain offline unexpectedly";
       u "Technical investigation required for infrastructure failure" ]);
    (u "escalate_to_support",
     [ u "Domain suspended due to WHOIS verification issues";
       u "Customer reports domain still suspended after completing WHOIS verification";
       u "Support needs to review account status and system flags";
       u "Manual review required for non-abuse domain suspension" ]);
    (u "customer_action_required",
     [ u "Customer must verify WHOIS email address";
       u "Registrant information must be updated to restore domain";
       u "User needs to unlock the domain before transfer";
       u "Customer must complete remediation steps" ]);
    (u "follow_up_required",
     [ u "Reactivation will occur after review is completed";
       u "Support will monitor and follow up after verification";
       u "Additional review time is required before action" ]);
    (u "none",
     [ u "General informational question about domains";
       u "Explanation of policy without required action";
       u "Customer is asking how the system works";
       u "No action is required from support or customer" ]) ].

(** The returned dict [{"action": ..., "confidence": ...}]. *)
Record Decision := mkDecision {
  action : pystr;
  confidence : float
}.

(** One iteration of the loop over the prototype embeddings; the state is
    [(best_action, best_score)]. *)
Definition best_step (answer : pystr) (best : pystr * float)
    (proto : pystr * list pystr) : pystr * float :=
  let max_sim := MODEL_max_similarity (snd proto) answer in
  if PrimFloat.ltb (snd best) max_sim then (fst proto, max_sim) else best.

Definition infer_action (answer : pystr) (threshold : float) : M Decision :=
  if (negb (truthy answer) || negb (truthy (strip answer)))%bool
  then ret (mkDecision (u "no_action") 0.0)
  else
    tell (EncodeCall answer) ;;
    let best :=
      fold_left (best_step answer) ACTION_PROTOTYPES (u "no_action", 0.0) in
    let best_action := fst best in
    let best_score := snd best in
    if PrimFloat.ltb best_score threshold
    then ret (mkDecision (u "no_action") (py_round best_score 3))
    else ret (mkDecision best_action (py_round best_score 3)).

End WithServices.
End action_classifier.

(** ** [schemas.py] *)

Module schemas.

Definition ActionRequired : list pystr :=
  [ u "none"; u "customer_action_required"; u "follow_up_required";
    u "escalate_to_support"; u "escalate_to_abuse_team";
    u "escalate_to_billing"; u "escalate_to_technical" ].

Record MCPResponse := mkMCPResponse {
  answer : pystr;
  references : list pystr;
  action_required : pystr
}.

(** The [answer] field validator. *)
Definition answer_must_not_be_blank (v : pystr) : exn + pystr :=
  let v := strip v in
  if negb (truthy v) then inl (ValueError (u "answer must be non-empty"))
  else inr v.

(** The [references] field validator. *)
Definition references_nonempty_strings (refs : list pystr)
  : exn + list pystr :=
  let cleaned :=
    map strip (filter (fun r => (truthy r && truthy (strip r))%bool) refs) in
  if Nat.ltb 3 (List.length cleaned)
  then inl (ValueError (u "at most 3 references allowed"))
  else inr cleaned.

(** [Field(..., min_length=1, max_length=5000)] on the input string, then
    the field validator on what passed. *)
Definition validate_answer (v : pystr) : option pystr :=
  if (Nat.leb 1 (List.length v) && Nat.leb (List.length v) 5000)%bool then
    match answer_must_not_be_blank v with
    | inr v' => Some v'
    | inl _ => None
    end
  else None.

Definition validate_references (refs : list pystr) : option (list pystr) :=
  match references_nonempty_strings refs with
  | inr cleaned => Some cleaned
  | inl _ => None
  end.

(** The [Literal] type of [action_required]. *)
Definition validate_action_required (a : pystr) : option pystr :=
  if str_in a ActionRequired then Some a else None.

Definition field_error {A} (name : string) (r : option A) : list string :=
  match r with Some _ => [] | None => [name] end.

(** [MCPResponse(answer=..., references=..., action_required=...)]: every
    field is validated, and the errors of all fields are raised together. *)
Definition new_MCPResponse (answer : pystr) (references : list pystr)
    (action_required : pystr) : exn + MCPResponse :=
  let a := validate_answer answer in
  let r := validate_references references in
  let act := validate_action_required action_required in
  match a, r, act with
  | Some a', Some r', Some act' => inr (mkMCPResponse a' r' act')
  | _, _, _ =>
      inl (ValidationError
             (field_error "answer" a ++ field_error "references" r
              ++ field_error "action_required" act))
  end.

(** [TicketRequest(ticket_text=...)]: the length bounds of the field, on
    the text as given. *)
Record TicketRequest := mkTicketRequest {
  ticket_text : pystr
}.

Definition new_TicketRequest (ticket_text : pystr) : exn + TicketRequest :=
  if (Nat.leb 5 (List.length ticket_text)
      && Nat.leb (List.length ticket_text) 5000)%bool
  then inr (mkTicketRequest ticket_text)
  else inl (ValidationError ["ticket_text"%string]).

(** [TicketResponse] inherits every field and validator of [MCPResponse]. *)
Definition new_TicketResponse (answer : pystr) (references : list pystr)
    (action_required : pystr) : exn + MCPResponse :=
  new_MCPResponse answer references action_required.

End schemas.

(** ** [prompts.py] and [generation.py] *)

Module generation.
Section WithServices.
Context {S : Services}.
Local Open Scope pipeline_scope.
Local Open Scope float_scope.

Definition quoted (s : pystr) : pystr := [34%N] ++ s ++ [34%N].

(** [MCP_GENERATION_PROMPT.format(ticket=ticket, context=context)]. *)
Definition MCP_GENERATION_PROMPT (ticket context : pystr) : pystr :=
  join [10%N]
    [ [];
      u "You are a support assistant.";
      [];
      u "TASK:";
      u "- Generate a clear, accurate answer to the customer ticket.";
      u "- Use the provided documentation context.";
      u "- Do NOT cite references.";
      u "- Do NOT mention sources.";
      u "- Do NOT suggest internal escalation unless explicitly stated in docs.";
      u "- If you don't know strictly say that you don't know";
      [];
      u "Return STRICT JSON:";
      [];
      u "{";
      u "  " ++ quoted (u "answer") ++ u ": " ++ quoted (u "...");
      u "}";
      [];
      u "Ticket:";
      ticket;
      [];
      u "Context:";
      context;
      [] ].

(** [a or b] on strings. *)
Definition str_or (a b : pystr) : pystr := if truthy a then a else b.

(** The mapping of the classifier's abstention to the external action. *)
Definition normalize_action (action_required : pystr) : pystr :=
  if str_in action_required [u "none"; u "no_action"] then u "none"
  else action_required.

Definition generate_answer (ticket_text : pystr) (documents : list Document)
    (llm_call : pystr -> option pystr) : M schemas.MCPResponse :=
  if (negb (truthy ticket_text) || negb (truthy (strip ticket_text)))%bool
  then raise (ValueError (u "ticket_text must be non-empty"))
  else
    let context :=
      str_or
        (join [10%N; 10%N] (map (fun doc => strip (page_content doc)) documents))
        (u "No relevant documentation found.") in
    let prompt := MCP_GENERATION_PROMPT (strip ticket_text) context in
    tell (LLMCall prompt) ;;
    let raw := llm_call prompt in
    match match raw with Some r => json_answer r | None => None end with
    | None =>
        raise (ValueError (u "LLM did not return valid JSON with `answer`"))
    | Some parsed_answer =>
        let answer := strip parsed_answer in
        let references := references.select_top_references documents 3 in
        decision <- action_classifier.infer_action answer 0.5 ;;
        let action_required :=
          normalize_action (action_classifier.action decision) in
        match schemas.new_MCPResponse answer references action_required with
        | inl _ => raise (ValueError (u "MCP schema validation failed: "))
        | inr validated => ret validated
        end
    end.

End WithServices.
End generation.

(** ** [rag_pipeline.py] *)

Module rag_pipeline.
Section WithServices.
Context {S : Services}.
Local Open Scope pipeline_scope.
Local Open Scope float_scope.

(** The returned dict: the dumped response and the three diagnostic keys. *)
Record Result := mkResult {
  answer : pystr;
  references : list pystr;
  action_required : pystr;
  _rewritten_queries : list pystr;
  _reranked_docs : list Document;
  _retrieval_eval : pydict
}.

(** Which arm of the [if]/[elif] in the query loop runs. *)
Inductive branch := AdoptGood | AdoptWeak | Keep.

Definition which_branch (best_eval eval_metrics : pydict) : branch :=
  if get_is eval_metrics "quality" (u "good") then AdoptGood
  else if (get_is eval_metrics "quality" (u "weak")
           && negb (get_is best_eval "quality" (u "good")))%bool
  then AdoptWeak
  else Keep.

Definition update_best (best_eval eval_metrics : pydict) : pydict :=
  match which_branch best_eval eval_metrics with
  | AdoptGood => eval_metrics
  | AdoptWeak => eval_metrics
  | Keep => best_eval
  end.

(** The assessment the loop starts from. *)
Definition initial_eval : pydict := [("quality"%string, VStr (u "poor"))].

(** The loop over the queries; the state is [(all_docs, best_eval)]. *)
Fixpoint retrieve_loop (queries : list pystr) (all_docs : list Document)
    (best_eval : pydict) : M (list Document * pydict) :=
  match queries with
  | [] => ret (all_docs, best_eval)
  | q :: rest =>
      r <- retriever.retrieve_documents q retriever.INITIAL_K
             retriever.FINAL_K ;;
      retrieve_loop rest (all_docs ++ fst r) (update_best best_eval (snd r))
  end.

(** [dedup[key] = doc]: a key already present keeps its position and
    takes the new value. *)
Fixpoint dedup_set (dedup : list (pystr * Document)) (key : pystr)
    (doc : Document) : list (pystr * Document) :=
  match dedup with
  | [] => [(key, doc)]
  | (k, v) :: rest =>
      if str_eqb k key then (k, doc) :: rest
      else (k, v) :: dedup_set rest key doc
  end.

Definition dedup_docs (all_docs : list Document) : list (pystr * Document) :=
  fold_left (fun dedup d => dedup_set dedup (page_content d) d) all_docs [].

(** The sort key: the relevance score, negative infinity when absent. *)
Definition rank_key (d : Document) : float :=
  get_default (relevance_score (metadata d)) neg_infinity.

(** From [all_docs] to [final_docs]. *)
Definition rank_documents (all_docs : list Document) : list Document :=
  let dedup := dedup_docs all_docs in
  let global_ranked := sorted_desc rank_key (map snd dedup) in
  firstn 4 global_ranked.

(** The override applied to the generated response. *)
Definition override_action (best_eval : pydict) (action_required : pystr)
  : pystr :=
  if get_is best_eval "quality" (u "poor") then
    if str_eqb action_required (u "none") then u "follow_up_required"
    else action_required
  else action_required.

Definition resolve_ticket (ticket_text : pystr)
    (llm_call : pystr -> option pystr) : M Result :=
  queries <- query_rewriter.rewrite_ticket ticket_text llm_call ;;
  let queries :=
    match queries with [] => [ticket_text] | _ :: _ => queries end in
  r <- retrieve_loop queries [] initial_eval ;;
  let all_docs := fst r in
  let best_eval := snd r in
  let final_docs := rank_documents all_docs in
  result <- generation.generate_answer ticket_text final_docs llm_call ;;
  ret (mkResult
         (schemas.answer result)
         (schemas.references result)
         (override_action best_eval (schemas.action_required result))
         queries final_docs best_eval).

End WithServices.
End rag_pipeline.

(** ** [main.py] *)

Module main.
Section WithServices.
Context {S : Services}.

(** What the endpoint hands back to the web framework: the returned dict
    or the raised [HTTPException]. *)
Inductive outcome :=
| Returned (answer : pystr) (references : list pystr)
    (action_required : pystr)
| HTTPException (status_code : nat) (detail : pystr).

(** [resolve_ticket_endpoint(request)] for a request the framework has
    validated; [llm_call] is [llm_client.call_text] of the module's
    client.  The result dict of the pipeline always holds the three
    public keys, so the [setdefault] calls change nothing. *)
Definition resolve_ticket_endpoint (request : schemas.TicketRequest)
    (llm_call : pystr -> option pystr) (log : list call)
  : outcome * list call :=
  match rag_pipeline.resolve_ticket (schemas.ticket_text request) llm_call log
  with
  | (inl _, log') =>
      (HTTPException 500 (u "Failed to resolve support ticket"), log')
  | (inr result, log') =>
      (Returned (rag_pipeline.answer result)
         (rag_pipeline.references result)
         (rag_pipeline.action_required result),
       log')
  end.

End WithServices.
End main.

(** ** The pipeline with document objects and collaborators that raise

    The modules above take a [Document] as a value and a collaborator as
    a function that returns.  [Full] transcribes the same functions with
    the two things this leaves out.  A [Document] is an object whose
    metadata dict lives at an address of a store, so that the write
    [doc.metadata["relevance_score"] = float(score)] of
    [_rerank_documents] is seen through every document that shares the
    dict.  A call to a collaborator (the language model, the index, the
    reranker, the embedding model) may raise, and no function of the
    pipeline catches what it raises. *)

(** Which collaborator calls raise: [raises log c] is the exception of
    the call [c] made after the calls [log], and [None] when that call
    returns (the value it returns is the one of [Services]). *)
Class Faults := {
  raises : list call -> call -> option pystr
}.

Module Full.

(** The address of a metadata dict. *)
Definition ref := nat.

(** A [Document] object: its content and the address of its metadata
    dict.  Two entries of a list with the same address share the dict. *)
Record DocumentObject := mkObject {
  object_content : pystr;
  object_metadata : ref
}.

(** The metadata dicts, by address. *)
Definition store := ref -> Metadata.

(** The document as a reader sees it in the store [st]. *)
Definition read (st : store) (d : DocumentObject) : Document :=
  mkDocument (object_content d) (st (object_metadata d)).

(** The dict [m] after [m["relevance_score"] = score]. *)
Definition with_score (m : Metadata) (score : float) : Metadata :=
  mkMetadata (category m) (source_file m) (section m) (subsection m)
    (Some score).

(** [metadata["relevance_score"] = score] on the dict at address [r]. *)
Definition write_score (st : store) (r : ref) (score : float) : store :=
  fun r' => if Nat.eqb r' r then with_score (st r') score else st r'.

Definition empty_metadata : Metadata := mkMetadata None None None None None.

(** The documents a search returns are new objects, each with a metadata
    dict of its own: the addresses [0], [1], ... of a new store. *)
Definition allocate (docs : list Document) : list DocumentObject * store :=
  (map (fun p => mkObject (page_content (snd p)) (fst p))
     (combine (seq 0 (List.length docs)) docs),
   fun r =>
     match nth_error docs r with
     | Some d => metadata d
     | None => empty_metadata
     end).

(** What a function raises: an exception of the pipeline's own code, or
    the exception of a collaborator call passing through. *)
Inductive raised :=
| Own (e : exn)
| Collaborator (c : call) (exception : pystr).

Definition M (A : Type) : Type := list call -> (raised + A) * list call.

Definition ret {A} (a : A) : M A := fun log => (inr a, log).

Definition raise {A} (e : raised) : M A := fun log => (inl e, log).

Definition bind {A B} (m : M A) (k : A -> M B) : M B :=
  fun log =>
    match m log with
    | (inl e, log') => (inl e, log')
    | (inr a, log') => k a log'
    end.

Declare Scope full_scope.
Delimit Scope full_scope with full.
Notation "x <- m ;; k" := (bind m (fun x => k))
  (at level 61, m at next level, right associativity) : full_scope.
Notation "m ;; k" := (bind m (fun _ => k))
  (at level 61, right associativity) : full_scope.

Section WithServices.
Context {S : Services} {F : Faults}.
Local Open Scope full_scope.
Local Open Scope float_scope.

(** One call to a collaborator: it is logged, and it returns or raises. *)
Definition invoke (c : call) : M unit :=
  fun log =>
    match raises log c with
    | Some e => (inl (Collaborator c e), log ++ [c])
    | None => (inr tt, log ++ [c])
    end.

(** [retriever._rerank_documents]; the third component of the result is
    the store after the writes of the last loop. *)
Definition _rerank_documents (query : pystr) (docs : list DocumentObject)
    (top_k : Z) (st : store)
  : M (list DocumentObject * list float * store) :=
  match docs with
  | [] => ret ([], [], st)
  | _ :: _ =>
      let pairs := map (fun d => (query, object_content d)) docs in
      invoke (RerankCall pairs) ;;
      let scores := RERANKER_predict pairs in
      let ranked := sorted_desc snd (combine docs scores) in
      let top_ranked := slice_to top_k ranked in
      let st' :=
        fold_left
          (fun st x => write_score st (object_metadata (fst x)) (snd x))
          top_ranked st in
      ret (map fst top_ranked, map snd top_ranked, st')
  end.

(** [retriever.retrieve_documents]; the documents it returns are read
    from the store the reranking leaves, and nothing writes to them
    afterwards. *)
Definition retrieve_documents (query : pystr) (initial_k final_k : Z)
  : M (list Document * pydict) :=
  let q := strip query in
  if negb (truthy q) then
    raise (Own (ValueError (u "Query must be a non-empty string")))
  else
    invoke (SearchCall q initial_k) ;;
    let initial_docs := allocate (retriever_invoke q initial_k) in
    r <- _rerank_documents q (fst initial_docs) final_k (snd initial_docs) ;;
    let final_docs := map (read (snd r)) (fst (fst r)) in
    let scores := snd (fst r) in
    ret (final_docs, retriever.evaluate_retrieval scores final_docs).

(** [query_rewriter.rewrite_ticket]. *)
Definition rewrite_ticket (ticket_text : pystr)
    (llm_call : pystr -> option pystr) : M (list pystr) :=
  if (negb (truthy ticket_text) || negb (truthy (strip ticket_text)))%bool
  then raise (Own (ValueError (u "ticket_text must be non-empty")))
  else
    let prompt := query_rewriter.QUERY_REWRITE_PROMPT (strip ticket_text) in
    invoke (LLMCall prompt) ;;
    let response := llm_call prompt in
    let lines :=
      query_rewriter.clean_lines (splitlines (get_default response [])) in
    let out := query_rewriter.dedup_loop [] [] lines in
    ret (firstn 5 out).

(** [action_classifier.infer_action]. *)
Definition infer_action (answer : pystr) (threshold : float)
  : M action_classifier.Decision :=
  if (negb (truthy answer) || negb (truthy (strip answer)))%bool
  then ret (action_classifier.mkDecision (u "no_action") 0.0)
  else
    invoke (EncodeCall answer) ;;
    let best :=
      fold_left (action_classifier.best_step answer)
        action_classifier.ACTION_PROTOTYPES (u "no_action", 0.0) in
    let best_action := fst best in
    let best_score := snd best in
    if PrimFloat.ltb best_score threshold
    then ret (action_classifier.mkDecision (u "no_action")
                (py_round best_score 3))
    else ret (action_classifier.mkDecision best_action
                (py_round best_score 3)).

(** [generation.generate_answer]. *)
Definition generate_answer (ticket_text : pystr) (documents : list Document)
    (llm_call : pystr -> option pystr) : M schemas.MCPResponse :=
  if (negb (truthy ticket_text) || negb (truthy (strip ticket_text)))%bool
  then raise (Own (ValueError (u "ticket_text must be non-empty")))
  else
    let context :=
      generation.str_or
        (join [10%N; 10%N]
           (map (fun doc => strip (page_content doc)) documents))
        (u "No relevant documentation found.") in
    let prompt :=
      generation.MCP_GENERATION_PROMPT (strip ticket_text) context in
    invoke (LLMCall prompt) ;;
    let raw := llm_call prompt in
    match match raw with Some r => json_answer r | None => None end with
    | None =>
        raise (Own (ValueError
                      (u "LLM did not return valid JSON with `answer`")))
    | Some parsed_answer =>
        let answer := strip parsed_answer in
        let references := references.select_top_references documents 3 in
        decision <- infer_action answer 0.5 ;;
        let action_required :=
          generation.normalize_action (action_classifier.action decision) in
        match schemas.new_MCPResponse answer references action_required with
        | inl _ =>
            raise (Own (ValueError (u "MCP schema validation failed: ")))
        | inr validated => ret validated
        end
    end.

(** The loop over the queries of [rag_pipeline.resolve_ticket]. *)
Fixpoint retrieve_loop (queries : list pystr) (all_docs : list Document)
    (best_eval : pydict) : M (list Document * pydict) :=
  match queries with
  | [] => ret (all_docs, best_eval)
  | q :: rest =>
      r <- retrieve_documents q retriever.INITIAL_K retriever.FINAL_K ;;
      retrieve_loop rest (all_docs ++ fst r)
        (rag_pipeline.update_best best_eval (snd r))
  end.

(** [rag_pipeline.resolve_ticket]. *)
Definition resolve_ticket (ticket_text : pystr)
    (llm_call : pystr -> option pystr) : M rag_pipeline.Result :=
  queries <- rewrite_ticket ticket_text llm_call ;;
  let queries :=
    match queries with [] => [ticket_text] | _ :: _ => queries end in
  r <- retrieve_loop queries [] rag_pipeline.initial_eval ;;
  let all_docs := fst r in
  let best_eval := snd r in
  let final_docs := rag_pipeline.rank_documents all_docs in
  result <- generate_answer ticket_text final_docs llm_call ;;
  ret (rag_pipeline.mkResult
         (schemas.answer result)
         (schemas.references result)
         (rag_pipeline.override_action best_eval
            (schemas.action_required result))
         queries final_docs best_eval).

(** The first call of [calls], made after [log], that raises: the log up
    to and with that call, the call and its exception. *)
Fixpoint first_fault (log calls : list call)
  : option (list call * call * pystr) :=
  match calls with
  | [] => None
  | c :: rest =>
      match raises log c with
      | Some e => Some (log ++ [c], c, e)
      | None => first_fault (log ++ [c]) rest
      end
  end.

(** A run in which every collaborator returns, started on [log], cut at
    its first call that raises. *)
Definition with_faults {A} (log : list call) (run : (exn + A) * list call)
  : (raised + A) * list call :=
  match first_fault log (skipn (List.length log) (snd run)) with
  | Some (log', c, e) => (inl (Collaborator c e), log')
  | None =>
      (match fst run with inl e => inl (Own e) | inr a => inr a end, snd run)
  end.

End WithServices.
End Full.

(** [mf] is [m] with its collaborator calls allowed to raise: [m] only
    adds calls to the log, and a run of [mf] is the run of [m] cut at the
    first call that raises. *)
Definition simulates {F : Faults} {A} (mf : Full.M A) (m : M A) : Prop :=
  forall log,
    (exists calls, snd (m log) = log ++ calls)
    /\ mf log = Full.with_faults log (m log).

(** ** Counting the calls of a log *)

Module CallLog.

Definition is_llm (c : call) : bool :=
  match c with LLMCall _ => true | _ => false end.

Definition is_search (c : call) : bool :=
  match c with SearchCall _ _ => true | _ => false end.

Definition is_rerank (c : call) : bool :=
  match c with RerankCall _ => true | _ => false end.

Definition is_encode (c : call) : bool :=
  match c with EncodeCall _ => true | _ => false end.

(** The number of calls of one kind. *)
Definition count (kind : call -> bool) (log : list call) : nat :=
  List.length (filter kind log).

End CallLog.

(** ** The specification's wording, for comparison with the code *)

Module Spec.

(** An assessment whose quality is ["good"]. *)
Definition is_good (e : pydict) : bool := get_is e "quality" (u "good").


(** Deduplication by string equality that keeps the first occurrence of
    every string, in first-seen order. *)
Fixpoint first_seen (l : list pystr) : list pystr :=
  match l with
  | [] => []
  | x :: l' => x :: filter (fun y => negb (str_eqb y x)) (first_seen l')
  end.

(** [d] is the last document of [all_docs] with its content. *)
Definition last_occurrence (d : Document) (all_docs : list Document) : Prop :=
  exists before after,
    all_docs = before ++ d :: after
    /\ ~ In (page_content d) (map page_content after).


(** A bullet marker: the hyphen or the bullet U+2022. *)
Definition is_bullet_marker (c : char) : Prop := c = 45%N \/ c = 8226%N.

(** [prefix] is a numeric list prefix standing in front of [rest]: the
    digits at the start, the dot or closing parenthesis that ends them,
    and all the whitespace that follows. *)
Definition numeric_prefix (isdecimal : char -> bool) (prefix rest : pystr)
  : Prop :=
  exists digits c spaces,
    prefix = digits ++ c :: spaces
    /\ digits <> []
    /\ Forall (fun d => isdecimal d = true) digits
    /\ (c = 46%N \/ c = 41%N)
    /\ isdecimal c = false
    /\ Forall (fun w => isspace w = true) spaces
    /\ (forall w rest', rest = w :: rest' -> isspace w = false).

(** [q] is what remains of [line] once it is trimmed and stripped of its
    leading bullet markers and of its numeric list prefix: the trimmed
    line is [bullets ++ body] with all the leading bullet markers in
    [bullets], and the trimmed [body] is a numeric list prefix followed by
    [q], or is [q] itself when it has no numeric list prefix. *)
Definition cleaned_from (isdecimal : char -> bool) (line q : pystr) : Prop :=
  exists bullets body,
    strip line = bullets ++ body
    /\ Forall is_bullet_marker bullets
    /\ (forall c rest, body = c :: rest -> ~ is_bullet_marker c)
    /\ ((exists prefix,
            strip body = prefix ++ q /\ numeric_prefix isdecimal prefix q)
        \/ (strip body = q
            /\ forall prefix rest,
                 strip body = prefix ++ rest ->
                 ~ numeric_prefix isdecimal prefix rest)).

(** [small] is a contiguous piece of [big]. *)
Definition substring (small big : pystr) : Prop :=
  exists front back, big = front ++ small ++ back.

(** A string with at least one character and no whitespace at either end. *)
Definition trimmed_nonempty (q : pystr) : Prop :=
  q <> []
  /\ (forall c rest, q = c :: rest -> isspace c = false)
  /\ (forall c front, q = front ++ [c] -> isspace c = false).

End Spec.

(** ** Concrete services and inputs for the examples *)

Module Demo.
Local Open Scope float_scope.

(** Services with ASCII digits only, a JSON layer that takes the raw text
    as the answer, an index that returns the same two chunks for every
    query, a reranker that answers [scores], and an embedding model whose
    similarity to every prototype group is [sim]. *)
Definition services (scores : list float) (sim : float) : Services := {|
  unicode_isdecimal := fun c => in_range 48%N 57%N c;
  json_answer := fun raw => Some raw;
  retriever_invoke := fun _ _ =>
    [ mkDocument (u "doc A") (mkMetadata None None None None None);
      mkDocument (u "doc B")
        (mkMetadata (Some (u "faqs")) None None None None) ];
  RERANKER_predict := fun _ => scores;
  MODEL_max_similarity := fun _ _ => sim
|}.

(** The metadata of the formatting example. *)
Definition faq_doc : Document :=
  mkDocument (u "content")
    (mkMetadata (Some (u "faqs")) (Some (u "faqs/reset.md"))
       (Some (u "Password Reset")) (Some (u "Email Flow")) None).

(** A collaborator answer with bullets, numbering, a duplicate and more
    than five queries. *)
Definition llm_lines (_ : pystr) : option pystr :=
  Some (join [10%N]
          [ u "  - domain suspension reason";
            u "  1. billing issue refund";
            [];
            u "  2) abuse complaint details";
            u "domain suspension reason";
            u "q4"; u "q5"; u "q6"; u "q7" ]).

Definition scored (text : string) (score : float) : Document :=
  mkDocument (u text) (mkMetadata None None None None (Some score)).

(** A collaborator that answers ["Test"] to every prompt. *)
Definition llm_test (_ : pystr) : option pystr := Some (u "Test").

(** Services whose retrieval is poor (top score 1.0) and whose classifier
    abstains (similarity 0.25). *)
Definition poor_services : Services := services [1.0; 0.5] 0.25.

(** The resolution of the ticket ["Help"] under [poor_services]. *)
Definition poor_run : (exn + rag_pipeline.Result) * list call :=
  Eval vm_compute in
    @rag_pipeline.resolve_ticket poor_services (u "Help") llm_test [].

Definition poor_result : rag_pipeline.Result :=
  Eval vm_compute in
    match fst poor_run with
    | inr r => r
    | inl _ => rag_pipeline.mkResult [] [] [] [] [] []
    end.

Definition poor_log : list call := Eval vm_compute in snd poor_run.

(** The query loop over two queries under [poor_services]. *)
Definition loop_run : (exn + list Document * pydict) * list call :=
  Eval vm_compute in
    @rag_pipeline.retrieve_loop poor_services [u "first"; u "second"] []
      rag_pipeline.initial_eval [].

Definition loop_result : list Document * pydict :=
  Eval vm_compute in
    match fst loop_run with inr r => r | inl _ => ([], []) end.

Definition loop_log : list call := Eval vm_compute in snd loop_run.

(** The generated response for the ticket ["Help"] without documents. *)
Definition generated_run : (exn + schemas.MCPResponse) * list call :=
  Eval vm_compute in
    @generation.generate_answer poor_services (u "Help") [] llm_test [].

Definition generated_response : schemas.MCPResponse :=
  Eval vm_compute in
    match fst generated_run with
    | inr r => r
    | inl _ => schemas.mkMCPResponse [] [] []
    end.

Definition generated_log : list call := Eval vm_compute in snd generated_run.

(** The rewritten queries for [llm_lines]. *)
Definition rewritten : list pystr :=
  Eval vm_compute in
    match fst (@query_rewriter.rewrite_ticket poor_services (u "Help")
                 llm_lines [])
    with
    | inr out => out
    | inl _ => []
    end.

Definition rewritten_log : list call :=
  Eval vm_compute in
    snd (@query_rewriter.rewrite_ticket poor_services (u "Help") llm_lines []).

(** Reranking two documents under [poor_services]. *)
Definition rerank_input : list Document :=
  [scored "a" 1.0; scored "b" 3.0].

Definition rerank_run
  : (exn + list Document * list float) * list call :=
  Eval vm_compute in
    @retriever._rerank_documents poor_services (u "q") rerank_input 4 [].

Definition rerank_docs : list Document :=
  Eval vm_compute in
    match fst rerank_run with inr r => fst r | inl _ => [] end.

Definition rerank_scores : list float :=
  Eval vm_compute in
    match fst rerank_run with inr r => snd r | inl _ => [] end.

Definition rerank_log : list call := Eval vm_compute in snd rerank_run.

(** The retrieval for the query ["first"] under [poor_services]. *)
Definition retrieve_run : (exn + list Document * pydict) * list call :=
  Eval vm_compute in
    @retriever.retrieve_documents poor_services (u "first")
      retriever.INITIAL_K retriever.FINAL_K [].

Definition retrieve_docs : list Document :=
  Eval vm_compute in
    match fst retrieve_run with inr r => fst r | inl _ => [] end.

Definition retrieve_eval : pydict :=
  Eval vm_compute in
    match fst retrieve_run with inr r => snd r | inl _ => [] end.

Definition retrieve_log : list call := Eval vm_compute in snd retrieve_run.

(** The request for the ticket ["Help me"] and the endpoint's answer. *)
Definition help_request : schemas.TicketRequest :=
  schemas.mkTicketRequest (u "Help me").






(** Collaborators that always return. *)
Definition no_faults : Faults := {| raises := fun _ _ => None |}.

(** A reranker that is down: every call to it raises. *)
Definition reranker_down : Faults := {|
  raises := fun _ c =>
    match c with
    | RerankCall _ => Some (u "ConnectionError")
    | _ => None
    end
|}.

(** The resolution of the ticket ["Help"] with the reranker down. *)
Definition down_run : (Full.raised + rag_pipeline.Result) * list call :=
  Eval vm_compute in
    @Full.resolve_ticket poor_services reranker_down (u "Help") llm_test [].

Definition down_log : list call := Eval vm_compute in snd down_run.

(** The call on which that resolution stops. *)
Definition down_call : call :=
  RerankCall [(u "Test", u "doc A"); (u "Test", u "doc B")].

(** Two document objects that share the metadata dict at address 0. *)
Definition shared : list Full.DocumentObject :=
  [Full.mkObject (u "a") 0%nat; Full.mkObject (u "b") 0%nat].

Definition empty_store : Full.store := fun _ => Full.empty_metadata.


End Demo.

(** * Properties *)

(** ** Strings *)

Lemma str_eqb_eq (a b : pystr) : str_eqb a b = true <-> a = b.
Proof.
  revert b; induction a as [|x a IH]; intros [|y b]; simpl;
    try (split; [discriminate | discriminate]); try tauto.
  unfold char_eqb. rewrite andb_true_iff, N.eqb_eq, IH.
  split; [intros [-> ->]; reflexivity | intros H; inversion H; auto].
Qed.

Lemma str_eqb_refl (a : pystr) : str_eqb a a = true.
Proof. apply str_eqb_eq; reflexivity. Qed.

Lemma str_eqb_neq (a b : pystr) : str_eqb a b = false <-> a <> b.
Proof.
  rewrite <- str_eqb_eq. destruct (str_eqb a b); split; congruence.
Qed.

Lemma str_in_In (s : pystr) (l : list pystr) : str_in s l = true <-> In s l.
Proof.
  unfold str_in. rewrite existsb_exists. split.
  - intros [x [Hx He]]. apply str_eqb_eq in He. subst; assumption.
  - intros H. exists s. split; [assumption | apply str_eqb_refl].
Qed.

Lemma str_in_not_In (s : pystr) (l : list pystr) :
  str_in s l = false <-> ~ In s l.
Proof.
  rewrite <- str_in_In. destruct (str_in s l); split; congruence.
Qed.

(** ** [format_reference] *)

(** C1, evaluated on the code: for the metadata of the example the
    formatter puts the two characters U+0E22 U+0E07 in front of the
    subsection, so its result is not the string with the section sign
    U+00A7 that the specification and [test_references.py] expect. *)
Theorem C1_format_reference_example :
  references.format_reference Demo.faq_doc
  = u "faqs: Password Reset | " ++ [3618%N; 3591%N]
      ++ u " Email Flow | file=faqs/reset.md"
  /\ references.format_reference Demo.faq_doc
     <> u "faqs: Password Reset | " ++ references.section_sign
          ++ u " Email Flow | file=faqs/reset.md".
Proof.
  split; [reflexivity|].
  apply str_eqb_neq. vm_compute. reflexivity.
Qed.

(** ** [evaluate_retrieval] *)

(** C2, against the claim as stated: for the single score 3.4 the label is
    ["partially good"], which is none of ["good"], ["partially_good"],
    ["poor"]. *)
Lemma C2_label_outside_spec_set :
  dict_get (retriever.evaluate_retrieval [3.4%float] []) "quality"
  = Some (VStr (u "partially good"))
  /\ ~ In (u "partially good") [u "good"; u "partially_good"; u "poor"].
Proof.
  split; [reflexivity|].
  apply str_in_not_In. vm_compute. reflexivity.
Qed.

(** C2, amended: for every score list and document list the quality label
    of the assessment is one of the three strings ["good"],
    ["partially good"] (with a space) and ["poor"]. *)
Theorem C2_quality_labels (scores : list float) (docs : list Document) :
  exists q,
    dict_get (retriever.evaluate_retrieval scores docs) "quality"
    = Some (VStr q)
    /\ In q [u "good"; u "partially good"; u "poor"].
Proof.
  unfold retriever.evaluate_retrieval.
  destruct scores as [|top rest].
  - exists (u "poor"). split; [reflexivity | simpl; auto].
  - cbv beta zeta.
    destruct (gtb top 4 && gtb _ 0.6)%bool.
    + exists (u "good"). split; [reflexivity | simpl; auto].
    + destruct (gtb top 3).
      * exists (u "partially good"). split; [reflexivity | simpl; auto].
      * exists (u "poor"). split; [reflexivity | simpl; auto].
Qed.

(** C5, against the claim as stated: the single score 3.4 has
    [top > 3.0] and is not ["good"], yet the label is not
    ["partially_good"]. *)
Lemma C5_label_is_not_partially_good :
  PrimFloat.ltb 3.0 3.4 = true
  /\ PrimFloat.ltb 4.0 3.4 = false
  /\ dict_get (retriever.evaluate_retrieval [3.4%float] []) "quality"
     <> Some (VStr (u "partially_good")).
Proof.
  split; [reflexivity|]. split; [reflexivity|].
  vm_compute. intros H. discriminate H.
Qed.

(** C5, amended: an empty score list gives exactly
    [{quality: poor, reason: no_documents_retrieved}]; a non-empty one
    gives [top = scores[0]], [gap = scores[0] - scores[1]] with at least
    two scores and [scores[0]] otherwise, the label ["good"] iff
    [top > 4.0] and [gap > 0.6], otherwise ["partially good"] (with a
    space) iff [top > 3.0], otherwise ["poor"], and the average, top and
    gap each passed through [round(_, 3)]. *)
Theorem C5_evaluate_retrieval :
  (forall docs,
      retriever.evaluate_retrieval [] docs
      = [("quality"%string, VStr (u "poor"));
         ("reason"%string, VStr (u "no_documents_retrieved"))])
  /\ (forall top rest docs,
         let scores := top :: rest in
         let gap :=
           match rest with
           | second :: _ => PrimFloat.sub top second
           | [] => top
           end in
         let avg :=
           PrimFloat.div (py_sum scores)
             (float_of_Z (Z.of_nat (List.length scores))) in
         let is_good :=
           (PrimFloat.ltb 4.0 top && PrimFloat.ltb 0.6 gap)%bool in
         exists q rest_of_dict,
           retriever.evaluate_retrieval scores docs
           = ("quality"%string, VStr q)
               :: ("avg_relevance_score"%string, VFloat (py_round avg 3))
               :: ("top_relevance_score"%string, VFloat (py_round top 3))
               :: ("score_gap"%string, VFloat (py_round gap 3))
               :: rest_of_dict
           /\ (q = u "good" <-> is_good = true)
           /\ (q = u "partially good"
               <-> is_good = false /\ PrimFloat.ltb 3.0 top = true)
           /\ (q = u "poor"
               <-> is_good = false /\ PrimFloat.ltb 3.0 top = false)).
Proof.
  split; [reflexivity|].
  intros top rest docs scores gap avg is_good.
  unfold retriever.evaluate_retrieval, scores.
  fold gap. cbv beta zeta. unfold gtb. fold is_good.
  destruct is_good.
  - eexists; eexists. split; [reflexivity|].
    repeat split; try reflexivity; try discriminate;
      intros [? ?]; discriminate.
  - destruct (PrimFloat.ltb 3 top).
    + eexists; eexists. split; [reflexivity|].
      repeat split; try reflexivity; try discriminate;
        intros [? ?]; discriminate.
    + eexists; eexists. split; [reflexivity|].
      repeat split; try reflexivity; try discriminate;
        intros [? ?]; discriminate.
Qed.

(** ** The call-log monad *)

Lemma bind_inr {A B} (m : M A) (k : A -> M B) log b log' :
  bind m k log = (inr b, log') ->
  exists a log1, m log = (inr a, log1) /\ k a log1 = (inr b, log').
Proof.
  unfold bind. destruct (m log) as [[e|a] log1]; intros H.
  - discriminate.
  - exists a, log1. split; [reflexivity | assumption].
Qed.

Lemma tell_inr c log u0 log' :
  tell c log = (inr u0, log') -> log' = log ++ [c].
Proof. unfold tell. intros H. inversion H. reflexivity. Qed.

Lemma ret_inr {A} (a b : A) log log' :
  ret a log = (inr b, log') -> a = b /\ log' = log.
Proof. unfold ret. intros H. inversion H. auto. Qed.

Lemma raise_not_inr {A} e log (a : A) log' : raise e log <> (inr a, log').
Proof. unfold raise. discriminate. Qed.

(** Inverts a successful run through binds, logs and returns. *)
Ltac run_inv H :=
  repeat
    match type of H with
    | bind _ _ _ = (inr _, _) =>
        let a := fresh "a" in
        let l := fresh "log" in
        let H1 := fresh "Hrun" in
        apply bind_inr in H; destruct H as [a [l [H1 H]]];
        try (apply tell_inr in H1; subst l)
    | ret _ _ = (inr _, _) =>
        apply ret_inr in H; destruct H as [? ?]
    | raise _ _ = (inr _, _) => exfalso; exact (raise_not_inr _ _ _ _ H)
    end.

(** ** The query loop and the aggregate assessment *)





Section PipelineFacts.
Context {S : Services}.




End PipelineFacts.


(** ** The safety override *)

(** C4: in a resolution that returns, the diagnostic assessment is the
    aggregate left by the query loop, the answer is the generated answer,
    and the action is the generated action except when the aggregate
    assessment is ["poor"] and the generated action is ["none"], where it
    is ["follow_up_required"]. *)
Theorem C4_safety_override (S : Services) ticket llm log res log' :
  rag_pipeline.resolve_ticket ticket llm log = (inr res, log') ->
  exists all_docs log0 log1 generated,
    rag_pipeline.retrieve_loop (rag_pipeline._rewritten_queries res) []
      rag_pipeline.initial_eval log0
    = (inr (all_docs, rag_pipeline._retrieval_eval res), log1)
    /\ generation.generate_answer ticket (rag_pipeline._reranked_docs res) llm
         log1 = (inr generated, log')
    /\ rag_pipeline.answer res = schemas.answer generated
    /\ (get_is (rag_pipeline._retrieval_eval res) "quality" (u "poor") = true ->
        schemas.action_required generated = u "none" ->
        rag_pipeline.action_required res = u "follow_up_required")
    /\ (~ (get_is (rag_pipeline._retrieval_eval res) "quality" (u "poor")
           = true
           /\ schemas.action_required generated = u "none") ->
        rag_pipeline.action_required res
        = schemas.action_required generated).
Proof.
  intros H. unfold rag_pipeline.resolve_ticket in H. run_inv H.
  subst res log'. simpl.
  exists (fst a0), log0, log1, a1.
  split; [destruct a0; exact Hrun0|].
  split; [assumption|]. split; [reflexivity|].
  unfold rag_pipeline.override_action.
  destruct (get_is (snd a0) "quality" (u "poor")) eqn:Hq.
  - destruct (str_eqb (schemas.action_required a1) (u "none")) eqn:Ha.
    + split; [reflexivity|]. intros Hn. exfalso. apply Hn.
      split; [reflexivity | apply str_eqb_eq; assumption].
    + split; [|reflexivity]. intros _ Hnone.
      apply str_eqb_neq in Ha. contradiction.
  - split; [discriminate | reflexivity].
Qed.

(** ** Response validation *)

Lemma truthy_false_nil (s : pystr) : truthy s = false <-> s = [].
Proof. destruct s; simpl; split; congruence. Qed.

Lemma strip_nil : strip [] = [].
Proof. reflexivity. Qed.

Lemma nonblank_filter (r : pystr) :
  (truthy r && truthy (strip r))%bool = truthy (strip r).
Proof. destruct r as [|c r]; [reflexivity | simpl; reflexivity]. Qed.

Lemma cleaned_references (refs : list pystr) :
  filter (fun r => (truthy r && truthy (strip r))%bool) refs
  = filter (fun r => truthy (strip r)) refs.
Proof. apply filter_ext. intros r. apply nonblank_filter. Qed.

Lemma new_MCPResponse_rejects answer refs act :
  schemas.validate_answer answer = None
  \/ schemas.validate_references refs = None
  \/ schemas.validate_action_required act = None ->
  exists fields,
    schemas.new_MCPResponse answer refs act = inl (ValidationError fields)
    /\ fields <> [].
Proof.
  intros H. unfold schemas.new_MCPResponse.
  destruct (schemas.validate_answer answer) as [a|],
    (schemas.validate_references refs) as [r|],
    (schemas.validate_action_required act) as [x|];
    try (eexists; split; [reflexivity | simpl; discriminate]).
  destruct H as [H | [H | H]]; discriminate.
Qed.

Lemma new_MCPResponse_accepts answer refs act resp :
  schemas.new_MCPResponse answer refs act = inr resp ->
  schemas.validate_answer answer = Some (schemas.answer resp)
  /\ schemas.validate_references refs = Some (schemas.references resp)
  /\ schemas.validate_action_required act
     = Some (schemas.action_required resp).
Proof.
  unfold schemas.new_MCPResponse.
  destruct (schemas.validate_answer answer) as [a|],
    (schemas.validate_references refs) as [r|],
    (schemas.validate_action_required act) as [x|];
    intros H; try discriminate.
  inversion H; subst; simpl. auto.
Qed.

Lemma no_action_not_in_enum :
  str_in (u "no_action") schemas.ActionRequired = false.
Proof. vm_compute. reflexivity. Qed.

Section GenerationFacts.
Context {S : Services}.

(** A run of [generate_answer] that returns, step by step: the answer
    parsed from the collaborator's reply to the prompt, the classifier's
    decision on the trimmed answer, and the response constructed from the
    normalized action. *)
Lemma generate_answer_returned ticket docs llm log resp log' :
  generation.generate_answer ticket docs llm log = (inr resp, log') ->
  let prompt :=
    generation.MCP_GENERATION_PROMPT (strip ticket)
      (generation.str_or
         (join [10%N; 10%N] (map (fun doc => strip (page_content doc)) docs))
         (u "No relevant documentation found.")) in
  exists a decision,
    match llm prompt with Some r => json_answer r | None => None end = Some a
    /\ action_classifier.infer_action (strip a) 0.5 (log ++ [LLMCall prompt])
       = (inr decision, log')
    /\ schemas.new_MCPResponse (strip a)
         (references.select_top_references docs 3)
         (generation.normalize_action (action_classifier.action decision))
       = inr resp.
Proof.
  unfold generation.generate_answer.
  destruct (negb (truthy ticket) || negb (truthy (strip ticket)))%bool;
    intros H; run_inv H.
  cbv zeta.
  destruct (match llm _ with Some r => json_answer r | None => None end)
    as [parsed|]; run_inv H.
  destruct (schemas.new_MCPResponse _ _ _) as [e|v] eqn:Hv; run_inv H.
  subst. exists parsed, a0. auto.
Qed.

End GenerationFacts.

(** C7: constructing a response fails with a validation error whenever
    the answer is blank after trimming or longer than 5000 characters, or
    more than 3 references remain after the blank ones are dropped, or the
    action is outside the seven-value enum, as ["no_action"] is; an
    accepted response keeps every cleaned reference.  In every run of the
    generator that returns, the response is the one the validation
    constructs from the trimmed answer parsed from the collaborator's
    reply, the references of the first three documents and the action of
    the classifier's decision on that answer passed through the
    normalization, which maps ["no_action"] to ["none"]: the returned
    action is ["none"] when the classifier abstains and is never
    ["no_action"]. *)
Theorem C7_response_validation :
  (forall answer refs act,
      truthy (strip answer) = false
      \/ 5000 < List.length answer
      \/ 3 < List.length (filter (fun r => truthy (strip r)) refs)
      \/ ~ In act schemas.ActionRequired ->
      exists fields,
        schemas.new_MCPResponse answer refs act
        = inl (ValidationError fields)
        /\ fields <> [])
  /\ (forall answer refs,
         exists fields,
           schemas.new_MCPResponse answer refs (u "no_action")
           = inl (ValidationError fields)
           /\ In "action_required"%string fields)
  /\ (forall answer refs act resp,
         schemas.new_MCPResponse answer refs act = inr resp ->
         schemas.references resp
         = map strip (filter (fun r => truthy (strip r)) refs))
  /\ generation.normalize_action (u "no_action") = u "none"
  /\ (forall (S : Services) ticket docs llm log resp log',
         generation.generate_answer ticket docs llm log = (inr resp, log') ->
         let prompt :=
           generation.MCP_GENERATION_PROMPT (strip ticket)
             (generation.str_or
                (join [10%N; 10%N]
                   (map (fun doc => strip (page_content doc)) docs))
                (u "No relevant documentation found.")) in
         exists a decision,
           match llm prompt with Some r => json_answer r | None => None end
           = Some a
           /\ action_classifier.infer_action (strip a) 0.5
                (log ++ [LLMCall prompt])
              = (inr decision, log')
           /\ schemas.new_MCPResponse (strip a)
                (references.select_top_references docs 3)
                (generation.normalize_action
                   (action_classifier.action decision))
              = inr resp
           /\ schemas.action_required resp
              = generation.normalize_action
                  (action_classifier.action decision)
           /\ (action_classifier.action decision = u "no_action" ->
               schemas.action_required resp = u "none")
           /\ schemas.action_required resp <> u "no_action").
Proof.
  split; [|split; [|split; [|split]]].
  - intros answer refs act H. apply new_MCPResponse_rejects.
    destruct H as [H | [H | [H | H]]].
    + left. unfold schemas.validate_answer, schemas.answer_must_not_be_blank.
      rewrite H. simpl negb. cbv iota.
      match goal with |- (if ?b then _ else _) = _ => destruct b end;
        reflexivity.
    + left. unfold schemas.validate_answer.
      assert (Hl : Nat.leb (List.length answer) 5000 = false)
        by (apply Nat.leb_gt; assumption).
      rewrite Hl, andb_false_r. reflexivity.
    + right; left.
      unfold schemas.validate_references, schemas.references_nonempty_strings.
      rewrite cleaned_references, length_map.
      assert (Hl : Nat.ltb 3
                     (List.length (filter (fun r => truthy (strip r)) refs))
                   = true) by (apply Nat.ltb_lt; assumption).
      rewrite Hl. reflexivity.
    + right; right. unfold schemas.validate_action_required.
      apply str_in_not_In in H. rewrite H. reflexivity.
  - intros answer refs. unfold schemas.new_MCPResponse.
    replace (schemas.validate_action_required (u "no_action"))
      with (@None pystr) by reflexivity.
    destruct (schemas.validate_answer answer),
      (schemas.validate_references refs);
      eexists; (split; [reflexivity|]); simpl; auto.
  - intros answer refs act resp H.
    apply new_MCPResponse_accepts in H. destruct H as [_ [H _]].
    unfold schemas.validate_references, schemas.references_nonempty_strings
      in H.
    rewrite cleaned_references in H.
    destruct (Nat.ltb 3 _); [discriminate|]. inversion H. reflexivity.
  - reflexivity.
  - intros S ticket docs llm log resp log' H prompt.
    apply generate_answer_returned in H. fold prompt in H.
    destruct H as [a [decision [Hparsed [Hinf Hnew]]]].
    exists a, decision.
    split; [exact Hparsed|]. split; [exact Hinf|]. split; [exact Hnew|].
    apply new_MCPResponse_accepts in Hnew. destruct Hnew as [_ [_ Hact]].
    unfold schemas.validate_action_required in Hact.
    destruct (str_in _ schemas.ActionRequired) eqn:Hin; [|discriminate].
    injection Hact as Heq. split; [symmetry; exact Heq|]. split.
    + intros Hno. rewrite <- Heq, Hno. reflexivity.
    + intros Hno. rewrite <- Heq in Hno. rewrite Hno in Hin.
      rewrite no_action_not_in_enum in Hin. discriminate.
Qed.

(** ** Trimming *)

Lemma takewhile_dropwhile p (s : pystr) : takewhile p s ++ dropwhile p s = s.
Proof.
  induction s as [|c s IH]; simpl; [reflexivity|].
  destruct (p c); simpl; [rewrite IH|]; reflexivity.
Qed.

Lemma takewhile_all p (s : pystr) :
  Forall (fun c => p c = true) (takewhile p s).
Proof.
  induction s as [|c s IH]; simpl; [constructor|].
  destruct (p c) eqn:Hc; constructor; assumption.
Qed.

Lemma dropwhile_head p (s : pystr) c rest :
  dropwhile p s = c :: rest -> p c = false.
Proof.
  induction s as [|d s IH]; simpl; [discriminate|].
  destruct (p d) eqn:Hd; [exact IH|].
  intros H. inversion H; subst. exact Hd.
Qed.

Lemma dropwhile_suffix p (s : pystr) : exists front, s = front ++ dropwhile p s.
Proof. exists (takewhile p s). symmetry. apply takewhile_dropwhile. Qed.

Lemma rstrip_prefix (s : pystr) : exists spaces, s = rstrip s ++ spaces.
Proof.
  unfold rstrip. exists (rev (takewhile isspace (rev s))).
  rewrite <- rev_app_distr, takewhile_dropwhile, rev_involutive.
  reflexivity.
Qed.

Lemma rstrip_last (s : pystr) c front :
  rstrip s = front ++ [c] -> isspace c = false.
Proof.
  unfold rstrip. intros H.
  apply (f_equal (@rev char)) in H.
  rewrite rev_involutive, rev_app_distr in H. simpl in H.
  exact (dropwhile_head _ _ _ _ H).
Qed.

Lemma strip_head (s : pystr) c rest : strip s = c :: rest -> isspace c = false.
Proof.
  unfold strip. intros H.
  destruct (rstrip_prefix (lstrip s)) as [spaces Hs].
  rewrite H in Hs. simpl in Hs.
  exact (dropwhile_head _ _ _ _ Hs).
Qed.

Lemma strip_last (s : pystr) c front :
  strip s = front ++ [c] -> isspace c = false.
Proof. unfold strip. apply rstrip_last. Qed.

Lemma strip_trimmed (s : pystr) : strip s <> [] -> Spec.trimmed_nonempty (strip s).
Proof.
  intros Hne. split; [exact Hne|]. split.
  - intros c rest H. exact (strip_head _ _ _ H).
  - intros c front H. exact (strip_last _ _ _ H).
Qed.

Lemma truthy_true_ne (s : pystr) : truthy s = true <-> s <> [].
Proof. destruct s; simpl; split; congruence. Qed.

Lemma suffix_trimmed (s front q : pystr) :
  Spec.trimmed_nonempty s -> s = front ++ q -> q <> [] ->
  (forall c rest, q = c :: rest -> isspace c = false) ->
  Spec.trimmed_nonempty q.
Proof.
  intros [_ [_ Hlast]] Hs Hq Hhead. split; [exact Hq|]. split; [exact Hhead|].
  intros c pre Hc. apply (Hlast c (front ++ pre)).
  rewrite Hs, Hc, app_assoc. reflexivity.
Qed.

Section RewriterFacts.
Context {S : Services}.

(** The two outcomes of the substitution: no match, or digits, one of the
    two punctuation marks and whitespace removed from the front. *)
Lemma sub_numeric_prefix_cases (s : pystr) :
  query_rewriter.sub_numeric_prefix s = s
  \/ exists digits c rest,
       s = digits ++ c :: rest
       /\ digits <> []
       /\ Forall (fun d => unicode_isdecimal d = true) digits
       /\ (c = 46%N \/ c = 41%N)
       /\ query_rewriter.sub_numeric_prefix s = dropwhile isspace rest.
Proof.
  unfold query_rewriter.sub_numeric_prefix.
  pose proof (takewhile_dropwhile unicode_isdecimal s) as Hsplit.
  pose proof (takewhile_all unicode_isdecimal s) as Hall.
  destruct (takewhile unicode_isdecimal s) as [|d ds]; [left; reflexivity|].
  destruct (dropwhile unicode_isdecimal s) as [|c rest]; [left; reflexivity|].
  destruct (N.eqb c 46 || N.eqb c 41)%bool eqn:Hc; [|left; reflexivity].
  right. exists (d :: ds), c, rest.
  split; [symmetry; exact Hsplit|]. split; [discriminate|].
  split; [exact Hall|]. split; [|reflexivity].
  apply orb_true_iff in Hc. rewrite !N.eqb_eq in Hc. exact Hc.
Qed.

Lemma sub_numeric_prefix_trimmed (s : pystr) :
  Spec.trimmed_nonempty s ->
  query_rewriter.sub_numeric_prefix s <> [] ->
  Spec.trimmed_nonempty (query_rewriter.sub_numeric_prefix s).
Proof.
  intros Hs Hne.
  destruct (sub_numeric_prefix_cases s)
    as [-> | [digits [c [rest [Heq [_ [_ [_ Hsub]]]]]]]]; [exact Hs|].
  rewrite Hsub in *.
  destruct (dropwhile_suffix isspace rest) as [spaces Hrest].
  apply (suffix_trimmed s (digits ++ c :: spaces)); [exact Hs | | exact Hne |].
  - rewrite Heq at 1. rewrite Hrest at 1.
    rewrite <- app_assoc. reflexivity.
  - intros x xs Hx. exact (dropwhile_head _ _ _ _ Hx).
Qed.

Lemma clean_line_trimmed (line q : pystr) :
  query_rewriter.clean_line line = Some q -> Spec.trimmed_nonempty q.
Proof.
  unfold query_rewriter.clean_line.
  destruct (negb (truthy (strip line))); [discriminate|].
  set (s := strip (lstrip_chars query_rewriter.bullet_chars (strip line))).
  destruct (truthy (query_rewriter.sub_numeric_prefix s)) eqn:Ht;
    [|discriminate].
  intros H. inversion H; subst q. apply truthy_true_ne in Ht.
  apply sub_numeric_prefix_trimmed; [|exact Ht].
  apply strip_trimmed. intros Hnil. apply Ht. fold s in Hnil.
  rewrite Hnil. reflexivity.
Qed.

Lemma clean_lines_In (lines : list pystr) q :
  In q (query_rewriter.clean_lines lines)
  <-> exists line, In line lines /\ query_rewriter.clean_line line = Some q.
Proof.
  induction lines as [|l lines IH]; simpl.
  - split; [contradiction | intros [? [[] _]]].
  - destruct (query_rewriter.clean_line l) as [s|] eqn:Hl; simpl;
      rewrite IH; split.
    + intros [<- | [line [Hin Hc]]]; [exists l; auto | exists line; auto].
    + intros [line [[<- | Hin] Hc]].
      * left. congruence.
      * right. exists line; auto.
    + intros [line [Hin Hc]]. exists line; auto.
    + intros [line [[<- | Hin] Hc]]; [congruence | exists line; auto].
Qed.

End RewriterFacts.

Lemma takewhile_app_stop p (front : pystr) c rest :
  Forall (fun d => p d = true) front -> p c = false ->
  takewhile p (front ++ c :: rest) = front.
Proof.
  intros Hall Hc. induction Hall as [|d front Hd _ IH]; simpl.
  - rewrite Hc. reflexivity.
  - rewrite Hd, IH. reflexivity.
Qed.

Lemma dropwhile_app_stop p (front : pystr) c rest :
  Forall (fun d => p d = true) front -> p c = false ->
  dropwhile p (front ++ c :: rest) = c :: rest.
Proof.
  intros Hall Hc. induction Hall as [|d front Hd _ IH]; simpl.
  - rewrite Hc. reflexivity.
  - rewrite Hd, IH. reflexivity.
Qed.

Lemma dropwhile_app_all p (front s : pystr) :
  Forall (fun d => p d = true) front ->
  (forall c rest, s = c :: rest -> p c = false) ->
  dropwhile p (front ++ s) = s.
Proof.
  intros Hall Hs. destruct s as [|c rest].
  - rewrite app_nil_r. clear Hs.
    induction Hall as [|d front Hd _ IH]; simpl; [reflexivity|].
    rewrite Hd. exact IH.
  - apply dropwhile_app_stop; [exact Hall|]. apply (Hs c rest). reflexivity.
Qed.

Section RewriterSpec.
Context {S : Services}.

Lemma is_bullet_marker_iff (c : char) :
  existsb (char_eqb c) query_rewriter.bullet_chars = true
  <-> Spec.is_bullet_marker c.
Proof.
  unfold Spec.is_bullet_marker. simpl. unfold char_eqb.
  rewrite orb_false_r, orb_true_iff, !N.eqb_eq. tauto.
Qed.

(** A numeric list prefix is the one the substitution removes. *)
Lemma numeric_prefix_removed (prefix rest : pystr) :
  Spec.numeric_prefix unicode_isdecimal prefix rest ->
  query_rewriter.sub_numeric_prefix (prefix ++ rest) = rest.
Proof.
  intros [digits [c [spaces [-> [Hne [Hdig [Hc [Hnd [Hsp Hmax]]]]]]]]].
  unfold query_rewriter.sub_numeric_prefix.
  rewrite <- app_assoc. simpl.
  rewrite (takewhile_app_stop _ _ _ _ Hdig Hnd).
  rewrite (dropwhile_app_stop _ _ _ _ Hdig Hnd).
  destruct digits as [|d ds]; [congruence|].
  assert (Hpunct : (N.eqb c 46 || N.eqb c 41)%bool = true).
  { apply orb_true_iff. rewrite !N.eqb_eq. exact Hc. }
  rewrite Hpunct. apply dropwhile_app_all; assumption.
Qed.

(** The substitution removes a numeric list prefix, or there is none and
    the string is unchanged. *)
Lemma sub_numeric_prefix_spec (s : pystr) :
  (exists prefix,
      s = prefix ++ query_rewriter.sub_numeric_prefix s
      /\ Spec.numeric_prefix unicode_isdecimal prefix
           (query_rewriter.sub_numeric_prefix s))
  \/ (s = query_rewriter.sub_numeric_prefix s
      /\ forall prefix rest,
           s = prefix ++ rest ->
           ~ Spec.numeric_prefix unicode_isdecimal prefix rest).
Proof.
  assert (Hnone : query_rewriter.sub_numeric_prefix s = s ->
                  forall prefix rest,
                    s = prefix ++ rest ->
                    ~ Spec.numeric_prefix unicode_isdecimal prefix rest).
  { intros Hsame prefix rest Hs Hp.
    pose proof (numeric_prefix_removed _ _ Hp) as Hrem.
    rewrite <- Hs, Hsame in Hrem.
    destruct Hp as [digits [c [spaces [Hpre _]]]].
    assert (Hlen : List.length s = List.length prefix + List.length rest)
      by (rewrite Hs, length_app; reflexivity).
    rewrite Hrem, Hpre, length_app in Hlen. simpl in Hlen. lia. }
  unfold query_rewriter.sub_numeric_prefix in *.
  pose proof (takewhile_dropwhile unicode_isdecimal s) as Hsplit.
  pose proof (takewhile_all unicode_isdecimal s) as Hall.
  pose proof (dropwhile_head unicode_isdecimal s) as Hhead.
  destruct (takewhile unicode_isdecimal s) as [|d ds];
    [right; split; [reflexivity | apply Hnone; reflexivity]|].
  destruct (dropwhile unicode_isdecimal s) as [|c rest];
    [right; split; [reflexivity | apply Hnone; reflexivity]|].
  destruct (N.eqb c 46 || N.eqb c 41)%bool eqn:Hc;
    [|right; split; [reflexivity | apply Hnone; reflexivity]].
  left. exists ((d :: ds) ++ c :: takewhile isspace rest). split.
  - rewrite <- app_assoc. simpl app at 2.
    rewrite takewhile_dropwhile. symmetry. exact Hsplit.
  - exists (d :: ds), c, (takewhile isspace rest).
    split; [reflexivity|]. split; [discriminate|]. split; [exact Hall|].
    split; [apply orb_true_iff in Hc; rewrite !N.eqb_eq in Hc; exact Hc|].
    split; [apply (Hhead c rest); reflexivity|].
    split; [apply takewhile_all|].
    intros w rest' Hw. exact (dropwhile_head _ _ _ _ Hw).
Qed.

(** The relation of the specification holds of exactly one string for
    every line: the one the loop computes. *)
Lemma cleaned_from_iff (line q : pystr) :
  Spec.cleaned_from unicode_isdecimal line q
  <-> q = query_rewriter.cleaned_line line.
Proof.
  unfold query_rewriter.cleaned_line. split.
  - intros [bullets [body [Hsplit [Hbul [Hmax Hq]]]]].
    assert (Hbody : lstrip_chars query_rewriter.bullet_chars (strip line)
                    = body).
    { rewrite Hsplit. unfold lstrip_chars. apply dropwhile_app_all.
      - eapply Forall_impl; [|exact Hbul].
        intros c Hc. apply is_bullet_marker_iff. exact Hc.
      - intros c rest Hc.
        destruct (existsb (char_eqb c) query_rewriter.bullet_chars) eqn:He;
          [|reflexivity].
        exfalso. apply (Hmax c rest Hc). apply is_bullet_marker_iff.
        exact He. }
    rewrite Hbody.
    destruct Hq as [[prefix [Hs Hp]] | [Hs Hnone]].
    + rewrite Hs. symmetry. apply numeric_prefix_removed. exact Hp.
    + destruct (sub_numeric_prefix_spec (strip body))
        as [[prefix [Hs' Hp]] | [Hs' _]].
      * exfalso. exact (Hnone _ _ Hs' Hp).
      * rewrite <- Hs'. symmetry. exact Hs.
  - intros ->.
    set (is_bullet :=
           fun c => existsb (char_eqb c) query_rewriter.bullet_chars).
    exists (takewhile is_bullet (strip line)),
      (lstrip_chars query_rewriter.bullet_chars (strip line)).
    split; [symmetry; apply takewhile_dropwhile|]. split.
    { eapply Forall_impl; [|apply takewhile_all].
      intros c Hc. apply is_bullet_marker_iff. exact Hc. }
    split.
    { intros c rest Hc Hb. apply is_bullet_marker_iff in Hb.
      apply dropwhile_head in Hc. congruence. }
    destruct (sub_numeric_prefix_spec
                (strip (lstrip_chars query_rewriter.bullet_chars
                          (strip line))))
      as [[prefix [Hs Hp]] | [Hs Hnone]].
    + left. exists prefix. split; [exact Hs | exact Hp].
    + right. split; [exact Hs | exact Hnone].
Qed.

Lemma clean_line_cleaned_line (line : pystr) :
  query_rewriter.clean_line line
  = if truthy (query_rewriter.cleaned_line line)
    then Some (query_rewriter.cleaned_line line)
    else None.
Proof.
  unfold query_rewriter.clean_line, query_rewriter.cleaned_line.
  destruct (truthy (strip line)) eqn:Ht; simpl; [reflexivity|].
  apply truthy_false_nil in Ht. rewrite Ht. reflexivity.
Qed.

Lemma clean_lines_cleaned_line (lines : list pystr) :
  query_rewriter.clean_lines lines
  = filter truthy (map query_rewriter.cleaned_line lines).
Proof.
  induction lines as [|line lines IH]; simpl; [reflexivity|].
  rewrite clean_line_cleaned_line.
  destruct (truthy (query_rewriter.cleaned_line line)); rewrite IH;
    reflexivity.
Qed.

Lemma cleaned_from_map (lines : list pystr) :
  Forall2 (Spec.cleaned_from unicode_isdecimal) lines
    (map query_rewriter.cleaned_line lines).
Proof.
  induction lines as [|line lines IH]; simpl; constructor; [|exact IH].
  apply cleaned_from_iff. reflexivity.
Qed.

End RewriterSpec.

(** ** First-seen deduplication *)

Lemma filter_filter_comm {A} (p q : A -> bool) (l : list A) :
  filter p (filter q l) = filter q (filter p l).
Proof.
  induction l as [|x l IH]; simpl; [reflexivity|].
  destruct (p x) eqn:Hp, (q x) eqn:Hq; simpl;
    rewrite ?Hp, ?Hq, ?IH; reflexivity.
Qed.

Lemma filter_filter_and {A} (p q : A -> bool) (l : list A) :
  filter p (filter q l) = filter (fun x => (p x && q x)%bool) l.
Proof.
  induction l as [|x l IH]; simpl; [reflexivity|].
  destruct (q x) eqn:Hq; simpl; rewrite ?andb_true_r, ?andb_false_r, IH;
    reflexivity.
Qed.

Lemma filter_absorb (p : pystr -> bool) (x : pystr) (l : list pystr) :
  p x = false ->
  filter p (filter (fun y => negb (str_eqb y x)) l) = filter p l.
Proof.
  intros Hx. induction l as [|y l IH]; simpl; [reflexivity|].
  destruct (str_eqb y x) eqn:Hyx; simpl.
  - apply str_eqb_eq in Hyx. subst y. rewrite Hx. exact IH.
  - rewrite IH. reflexivity.
Qed.

Lemma first_seen_filter (p : pystr -> bool) (l : list pystr) :
  Spec.first_seen (filter p l) = filter p (Spec.first_seen l).
Proof.
  induction l as [|x l IH]; simpl; [reflexivity|].
  destruct (p x) eqn:Hx; simpl.
  - rewrite IH, filter_filter_comm. reflexivity.
  - rewrite IH, filter_absorb by exact Hx. reflexivity.
Qed.

Lemma first_seen_In (l : list pystr) q : In q (Spec.first_seen l) <-> In q l.
Proof.
  induction l as [|x l IH]; simpl; [tauto|].
  rewrite filter_In, IH, negb_true_iff, str_eqb_neq.
  destruct (str_eqb q x) eqn:Hq.
  - apply str_eqb_eq in Hq. subst. tauto.
  - apply str_eqb_neq in Hq. split; [tauto|].
    intros [H | H]; [left; exact H | right; auto].
Qed.

Lemma first_seen_NoDup (l : list pystr) : NoDup (Spec.first_seen l).
Proof.
  induction l as [|x l IH]; simpl; constructor.
  - rewrite filter_In, negb_true_iff, str_eqb_neq. intros [_ H]. apply H.
    reflexivity.
  - apply NoDup_filter. exact IH.
Qed.

Lemma In_firstn {A} (n : nat) (l : list A) (x : A) :
  In x (firstn n l) -> In x l.
Proof.
  intros H. rewrite <- (firstn_skipn n l). apply in_or_app. left. exact H.
Qed.

Lemma NoDup_firstn_of {A} (n : nat) (l : list A) : NoDup l -> NoDup (firstn n l).
Proof.
  revert n. induction l as [|x l IH]; intros [|n] H; simpl;
    try constructor.
  - inversion H; subst. intros Hin. apply In_firstn in Hin. contradiction.
  - inversion H; subst. apply IH. assumption.
Qed.

Lemma dedup_loop_first_seen (lines seen out : list pystr) :
  query_rewriter.dedup_loop seen out lines
  = out ++ Spec.first_seen (filter (fun q => negb (str_in q seen)) lines).
Proof.
  revert seen out. induction lines as [|q rest IH]; intros seen out; simpl.
  - rewrite app_nil_r. reflexivity.
  - destruct (str_in q seen) eqn:Hq; simpl.
    + apply IH.
    + rewrite IH, <- app_assoc. simpl. f_equal. f_equal.
      rewrite <- first_seen_filter, filter_filter_and.
      f_equal. apply filter_ext. intros y. apply negb_orb.
Qed.

Lemma dedup_loop_start (lines : list pystr) :
  query_rewriter.dedup_loop [] [] lines = Spec.first_seen lines.
Proof.
  rewrite dedup_loop_first_seen. simpl. f_equal.
  induction lines as [|x l IH]; simpl; [reflexivity | rewrite IH; reflexivity].
Qed.

(** ** [rewrite_ticket] *)

Section RewriteTicket.
Context {S : Services}.

Lemma rewrite_ticket_run ticket llm log :
  truthy (strip ticket) = true ->
  let prompt := query_rewriter.QUERY_REWRITE_PROMPT (strip ticket) in
  query_rewriter.rewrite_ticket ticket llm log
  = (inr (firstn 5
            (Spec.first_seen
               (query_rewriter.clean_lines
                  (splitlines (get_default (llm prompt) []))))),
     log ++ [LLMCall prompt]).
Proof.
  intros Hnb prompt. unfold query_rewriter.rewrite_ticket.
  assert (Ht : truthy ticket = true).
  { destruct ticket; [discriminate | reflexivity]. }
  rewrite Ht, Hnb. simpl orb. cbv iota.
  unfold bind, tell, ret. fold prompt.
  rewrite dedup_loop_start. reflexivity.
Qed.

Lemma rewrite_ticket_inr ticket llm log out log' :
  query_rewriter.rewrite_ticket ticket llm log = (inr out, log') ->
  truthy (strip ticket) = true.
Proof.
  unfold query_rewriter.rewrite_ticket.
  destruct (truthy ticket); simpl; [|intros H; discriminate].
  destruct (truthy (strip ticket)); simpl; [reflexivity|].
  intros H; discriminate.
Qed.

End RewriteTicket.

(** C9: for a non-blank ticket and any collaborator answer the rewriter
    returns a list without duplicates, of length at most 5.  Every line of
    the answer has exactly one cleaned form: the line trimmed, without its
    leading bullet markers and without its numeric list prefix.  The
    returned list is the first five of the non-empty cleaned forms, in
    line order, deduplicated by string equality in first-seen order; a
    blank line has the empty cleaned form and is dropped. *)
Theorem C9_rewrite_ticket (S : Services) ticket llm log :
  truthy (strip ticket) = true ->
  exists out response cleaned,
    query_rewriter.rewrite_ticket ticket llm log
    = (inr out,
       log ++ [LLMCall (query_rewriter.QUERY_REWRITE_PROMPT (strip ticket))])
    /\ response
       = get_default
           (llm (query_rewriter.QUERY_REWRITE_PROMPT (strip ticket))) []
    /\ Forall2 (Spec.cleaned_from unicode_isdecimal) (splitlines response)
         cleaned
    /\ (forall line q q',
           Spec.cleaned_from unicode_isdecimal line q ->
           Spec.cleaned_from unicode_isdecimal line q' ->
           q = q')
    /\ (forall line,
           strip line = [] -> Spec.cleaned_from unicode_isdecimal line [])
    /\ out = firstn 5 (Spec.first_seen (filter truthy cleaned))
    /\ NoDup out
    /\ List.length out <= 5.
Proof.
  intros Hnb.
  exists (firstn 5
            (Spec.first_seen
               (query_rewriter.clean_lines
                  (splitlines
                     (get_default
                        (llm (query_rewriter.QUERY_REWRITE_PROMPT
                                (strip ticket))) []))))).
  eexists.
  exists (map query_rewriter.cleaned_line
            (splitlines
               (get_default
                  (llm (query_rewriter.QUERY_REWRITE_PROMPT (strip ticket)))
                  []))).
  split; [apply rewrite_ticket_run; exact Hnb|].
  split; [reflexivity|].
  split; [apply cleaned_from_map|].
  split.
  { intros line q q' Hq Hq'.
    apply cleaned_from_iff in Hq. apply cleaned_from_iff in Hq'.
    congruence. }
  split.
  { intros line Hline. apply cleaned_from_iff.
    unfold query_rewriter.cleaned_line.
    rewrite Hline. reflexivity. }
  split; [rewrite clean_lines_cleaned_line; reflexivity|].
  split; [apply NoDup_firstn_of, first_seen_NoDup|].
  apply firstn_le_length.
Qed.

(** C10: every string the rewriter returns has at least one character and
    neither starts nor ends with whitespace, whatever the collaborator
    answered, a missing answer included. *)
Theorem C10_queries_trimmed (S : Services) ticket
    (llm : pystr -> option pystr) log out log' :
  query_rewriter.rewrite_ticket ticket llm log = (inr out, log') ->
  Forall Spec.trimmed_nonempty out.
Proof.
  intros H. pose proof (rewrite_ticket_inr _ _ _ _ _ H) as Hnb.
  pose proof (rewrite_ticket_run ticket llm log Hnb) as Hrun.
  cbv zeta in Hrun.
  assert (Hout : out
                 = firstn 5
                     (Spec.first_seen
                        (query_rewriter.clean_lines
                           (splitlines
                              (get_default
                                 (llm (query_rewriter.QUERY_REWRITE_PROMPT
                                         (strip ticket))) [])))))
    by congruence.
  subst out. clear H Hrun.
  apply Forall_forall. intros q Hq.
  apply In_firstn, first_seen_In, clean_lines_In in Hq.
  destruct Hq as [line [_ Hc]].
  exact (clean_line_trimmed _ _ Hc).
Qed.

(** ** The order of the float comparisons *)

Section FloatOrderFacts.
Import FloatOrder.
Local Open Scope Z_scope.

Lemma SFleb_key (a b : spec_float) :
  a <> S754_nan -> b <> S754_nan ->
  (SFleb a b = true <-> key_le (sf_key a) (sf_key b)).
Proof.
  intros Ha Hb. unfold SFleb, SFcompare, key_le.
  destruct a as [[|]|[|]| |[|] ma ea]; try congruence;
    destruct b as [[|]|[|]| |[|] mb eb]; try congruence; simpl;
    try (split; [intros _; lia | reflexivity]);
    try (split; [discriminate | lia]);
    change (Pos.compare_cont Eq ma mb) with (Pos.compare ma mb);
    destruct (Z.compare_spec ea eb); simpl;
    try (split; [intros _; lia | reflexivity]);
    try (split; [discriminate | lia]);
    destruct (Pos.compare_spec ma mb); simpl;
    try (split; [intros _; lia | reflexivity]);
    try (split; [discriminate | lia]).
Qed.

Lemma SFltb_key (a b : spec_float) :
  a <> S754_nan -> b <> S754_nan ->
  (SFltb a b = true <-> key_lt (sf_key a) (sf_key b)).
Proof.
  intros Ha Hb. unfold SFltb, SFcompare, key_lt.
  destruct a as [[|]|[|]| |[|] ma ea]; try congruence;
    destruct b as [[|]|[|]| |[|] mb eb]; try congruence; simpl;
    try (split; [intros _; lia | reflexivity]);
    try (split; [discriminate | lia]);
    change (Pos.compare_cont Eq ma mb) with (Pos.compare ma mb);
    destruct (Z.compare_spec ea eb); simpl;
    try (split; [intros _; lia | reflexivity]);
    try (split; [discriminate | lia]);
    destruct (Pos.compare_spec ma mb); simpl;
    try (split; [intros _; lia | reflexivity]);
    try (split; [discriminate | lia]).
Qed.

Lemma SFleb_not_nan (a b : spec_float) :
  SFleb a b = true -> a <> S754_nan /\ b <> S754_nan.
Proof.
  unfold SFleb, SFcompare.
  destruct a as [[|]|[|]| |[|] ma ea], b as [[|]|[|]| |[|] mb eb];
    intros H; try discriminate; split; discriminate.
Qed.

Lemma SFltb_not_nan (a b : spec_float) :
  SFltb a b = true -> a <> S754_nan /\ b <> S754_nan.
Proof.
  unfold SFltb, SFcompare.
  destruct a as [[|]|[|]| |[|] ma ea], b as [[|]|[|]| |[|] mb eb];
    intros H; try discriminate; split; discriminate.
Qed.

Lemma SFltb_nan_r (a : spec_float) : SFltb a S754_nan = false.
Proof. destruct a as [[|]|[|]| |[|] ma ea]; reflexivity. Qed.

Lemma is_nan_Prim2SF (x : float) :
  PrimFloat.is_nan x = false <-> Prim2SF x <> S754_nan.
Proof.
  unfold PrimFloat.is_nan. rewrite eqb_spec, negb_false_iff.
  unfold SFeqb, SFcompare.
  destruct (Prim2SF x) as [[|]|[|]| |[|] m e]; simpl;
    try (split; [discriminate | reflexivity]);
    try (split; [intros H; discriminate H | intros H; congruence]);
    rewrite Z.compare_refl;
    change (Pos.compare_cont Eq m m) with (Pos.compare m m);
    rewrite Pos.compare_refl; simpl; split; try discriminate; reflexivity.
Qed.

Lemma leb_key (x y : float) :
  PrimFloat.leb x y = true <->
  Prim2SF x <> S754_nan /\ Prim2SF y <> S754_nan /\ key_le (fkey x) (fkey y).
Proof.
  rewrite leb_spec. unfold fkey. split.
  - intros H. destruct (SFleb_not_nan _ _ H) as [Hx Hy].
    split; [exact Hx|]. split; [exact Hy|].
    apply SFleb_key; assumption.
  - intros [Hx [Hy H]]. apply SFleb_key; assumption.
Qed.

Lemma ltb_key (x y : float) :
  PrimFloat.ltb x y = true <->
  Prim2SF x <> S754_nan /\ Prim2SF y <> S754_nan /\ key_lt (fkey x) (fkey y).
Proof.
  rewrite ltb_spec. unfold fkey. split.
  - intros H. destruct (SFltb_not_nan _ _ H) as [Hx Hy].
    split; [exact Hx|]. split; [exact Hy|].
    apply SFltb_key; assumption.
  - intros [Hx [Hy H]]. apply SFltb_key; assumption.
Qed.

Lemma ltb_false_key (x y : float) :
  Prim2SF x <> S754_nan -> Prim2SF y <> S754_nan ->
  PrimFloat.ltb x y = false -> key_le (fkey y) (fkey x).
Proof.
  intros Hx Hy H.
  assert (Hn : ~ key_lt (fkey x) (fkey y)).
  { intros Hlt. rewrite (proj2 (ltb_key x y)) in H; [discriminate|]. auto. }
  unfold key_lt in Hn. unfold key_le. lia.
Qed.

Lemma ltb_leb (x y : float) :
  PrimFloat.ltb x y = true -> PrimFloat.leb x y = true.
Proof.
  intros H. apply ltb_key in H. destruct H as [Hx [Hy H]].
  apply leb_key. split; [exact Hx|]. split; [exact Hy|].
  unfold key_lt in H. unfold key_le. lia.
Qed.

Lemma leb_trans (x y z : float) :
  PrimFloat.leb x y = true -> PrimFloat.leb y z = true ->
  PrimFloat.leb x z = true.
Proof.
  intros H1 H2. apply leb_key in H1, H2.
  destruct H1 as [Hx [Hy H1]], H2 as [_ [Hz H2]].
  apply leb_key. split; [exact Hx|]. split; [exact Hz|].
  unfold key_le in *. lia.
Qed.

Lemma ltb_false_leb (x y : float) :
  PrimFloat.is_nan x = false -> PrimFloat.is_nan y = false ->
  PrimFloat.ltb x y = false -> PrimFloat.leb y x = true.
Proof.
  intros Hx Hy H. apply is_nan_Prim2SF in Hx, Hy.
  apply leb_key. split; [exact Hy|]. split; [exact Hx|].
  apply ltb_false_key; assumption.
Qed.

(** Once no value exceeds [b], none exceeds a larger [b']. *)
Lemma ltb_false_mono (b b' s : float) :
  PrimFloat.ltb b s = false -> PrimFloat.ltb b b' = true ->
  PrimFloat.ltb b' s = false.
Proof.
  intros Hs Hb. apply ltb_key in Hb. destruct Hb as [Hnb [Hnb' Hb]].
  destruct (PrimFloat.ltb b' s) eqn:E; [|reflexivity].
  apply ltb_key in E. destruct E as [_ [Hns E]].
  pose proof (ltb_false_key b s Hnb Hns Hs) as Hle.
  unfold key_lt, key_le in *. lia.
Qed.

End FloatOrderFacts.

(** ** Sorting by a float key *)

Lemma Forall_perm {A} (P : A -> Prop) (l l' : list A) :
  Permutation l l' -> Forall P l -> Forall P l'.
Proof.
  intros Hp Hl. rewrite Forall_forall in *. intros x Hx.
  apply Hl. apply (Permutation_in x (Permutation_sym Hp)). exact Hx.
Qed.

Section SortedDesc.
Context {A : Type} (key : A -> float).

(** [a] may stand before [b]: the key of [b] is at most the key of [a]. *)
Let ge_key (a b : A) : Prop := PrimFloat.leb (key b) (key a) = true.

Lemma insert_desc_perm (x : A) (l : list A) :
  Permutation (insert_desc key x l) (x :: l).
Proof.
  induction l as [|y l IH]; simpl; [reflexivity|].
  destruct (PrimFloat.ltb (key x) (key y)); [|reflexivity].
  rewrite IH. apply perm_swap.
Qed.

Lemma sorted_desc_perm (l : list A) : Permutation (sorted_desc key l) l.
Proof.
  induction l as [|x l IH]; simpl; [reflexivity|].
  rewrite insert_desc_perm. constructor. exact IH.
Qed.

Lemma insert_desc_sorted (x : A) (l : list A) :
  PrimFloat.is_nan (key x) = false ->
  Forall (fun y => PrimFloat.is_nan (key y) = false) l ->
  StronglySorted ge_key l ->
  StronglySorted ge_key (insert_desc key x l).
Proof.
  intros Hx Hl Hs. induction Hs as [|y l Hs IH Hy]; simpl.
  - constructor; constructor.
  - inversion Hl as [|? ? Hny Hl']; subst.
    destruct (PrimFloat.ltb (key x) (key y)) eqn:E.
    + constructor; [apply IH; exact Hl'|].
      apply (Forall_perm _ (x :: l)).
      * symmetry. apply insert_desc_perm.
      * constructor; [|exact Hy]. unfold ge_key. apply ltb_leb. exact E.
    + assert (Hxy : ge_key x y) by (apply ltb_false_leb; assumption).
      constructor; [constructor; assumption|].
      constructor; [exact Hxy|].
      eapply Forall_impl; [|exact Hy].
      intros z Hz. unfold ge_key in *. eapply leb_trans; eassumption.
Qed.

Lemma sorted_desc_sorted (l : list A) :
  Forall (fun y => PrimFloat.is_nan (key y) = false) l ->
  StronglySorted ge_key (sorted_desc key l).
Proof.
  induction l as [|x l IH]; intros Hl; simpl; [constructor|].
  inversion Hl as [|? ? Hx Hl']; subst.
  apply insert_desc_sorted; [exact Hx | | apply IH; exact Hl'].
  apply (Forall_perm _ l); [|exact Hl'].
  symmetry. apply sorted_desc_perm.
Qed.

End SortedDesc.

(** ** Deduplication by content *)

Lemma last_occurrence_snoc (x d : Document) (l : list Document) :
  Spec.last_occurrence x (l ++ [d])
  <-> x = d
      \/ (Spec.last_occurrence x l /\ page_content x <> page_content d).
Proof.
  unfold Spec.last_occurrence. split.
  - intros [before [after [Heq Hnot]]].
    destruct after as [|a after _] using rev_ind.
    + apply app_inj_tail in Heq. left. symmetry. apply Heq.
    + right. rewrite app_comm_cons, app_assoc in Heq.
      apply app_inj_tail in Heq. destruct Heq as [Hl Hd]. subst a.
      rewrite map_app, in_app_iff in Hnot. simpl in Hnot. split.
      * exists before, after. split; [exact Hl | tauto].
      * intros Hc. apply Hnot. right. left. symmetry. exact Hc.
  - intros [-> | [[before [after [Heq Hnot]]] Hne]].
    + exists l, []. split; [reflexivity | simpl; tauto].
    + exists before, (after ++ [d]). split.
      * rewrite Heq, <- app_assoc. reflexivity.
      * rewrite map_app, in_app_iff. simpl. intros [H | [H | []]].
        -- contradiction.
        -- apply Hne. symmetry. exact H.
Qed.

Lemma last_occurrence_In (x : Document) (l : list Document) :
  Spec.last_occurrence x l -> In x l.
Proof.
  intros [before [after [-> _]]]. apply in_or_app. right. left. reflexivity.
Qed.

Lemma dedup_set_pairs (dd : list (pystr * Document)) k d k' x :
  NoDup (map fst dd) ->
  (In (k', x) (rag_pipeline.dedup_set dd k d)
   <-> (k' = k /\ x = d) \/ (k' <> k /\ In (k', x) dd)).
Proof.
  induction dd as [|[k0 v0] rest IH]; intros Hnd; simpl.
  - split.
    + intros [H | []]. inversion H. auto.
    + intros [[-> ->] | [_ []]]. auto.
  - inversion Hnd as [|? ? Hk0 Hrest]; subst.
    destruct (str_eqb k0 k) eqn:E; simpl.
    + apply str_eqb_eq in E. subst k0. split.
      * intros [H | H]; [inversion H; auto|].
        right. split; [|right; exact H].
        intros ->. apply Hk0. apply (in_map fst) in H. exact H.
      * intros [[-> ->] | [Hne [H | H]]]; [left; reflexivity | | right; exact H].
        inversion H; subst. contradiction.
    + apply str_eqb_neq in E. rewrite (IH Hrest). split.
      * intros [H | [H | [Hne H]]]; [|left; exact H | right; auto].
        inversion H; subst. right. split; [exact E | left; reflexivity].
      * intros [H | [Hne [H | H]]]; [right; left; exact H | left; exact H |].
        right. right. auto.
Qed.

Lemma dedup_set_NoDup (dd : list (pystr * Document)) k d :
  NoDup (map fst dd) -> NoDup (map fst (rag_pipeline.dedup_set dd k d)).
Proof.
  induction dd as [|[k0 v0] rest IH]; intros Hnd; simpl.
  - constructor; [intros [] | constructor].
  - inversion Hnd as [|? ? Hk0 Hrest]; subst.
    destruct (str_eqb k0 k) eqn:E; simpl.
    + constructor; assumption.
    + constructor; [|apply IH; exact Hrest].
      intros Hin. apply in_map_iff in Hin. destruct Hin as [[k1 x1] [Hk Hin]].
      simpl in Hk. subst k1.
      apply (dedup_set_pairs rest k d k0 x1 Hrest) in Hin.
      destruct Hin as [[Hk _] | [_ Hin]].
      * apply str_eqb_neq in E. apply E. exact Hk.
      * apply Hk0. apply (in_map fst) in Hin. exact Hin.
Qed.

Lemma dedup_docs_snoc (l : list Document) (d : Document) :
  rag_pipeline.dedup_docs (l ++ [d])
  = rag_pipeline.dedup_set (rag_pipeline.dedup_docs l) (page_content d) d.
Proof. unfold rag_pipeline.dedup_docs. rewrite fold_left_app. reflexivity. Qed.

Lemma dedup_docs_spec (l : list Document) :
  NoDup (map fst (rag_pipeline.dedup_docs l))
  /\ (forall k x,
         In (k, x) (rag_pipeline.dedup_docs l)
         <-> k = page_content x /\ Spec.last_occurrence x l).
Proof.
  induction l as [|d l [IHnd IH]] using rev_ind.
  - split; [constructor|]. intros k x. simpl. split; [intros []|].
    intros [_ [before [after [Heq _]]]]. destruct before; discriminate.
  - rewrite dedup_docs_snoc. split; [apply dedup_set_NoDup; exact IHnd|].
    intros k x. rewrite (dedup_set_pairs _ _ _ _ _ IHnd), IH.
    rewrite last_occurrence_snoc. split.
    + intros [[-> ->] | [Hne [-> Hlast]]]; [auto|].
      split; [reflexivity|]. right. auto.
    + intros [-> [-> | [Hlast Hne]]]; [left; auto|].
      right. auto.
Qed.

Lemma dedup_docs_values (l : list Document) (x : Document) :
  In x (map snd (rag_pipeline.dedup_docs l)) <-> Spec.last_occurrence x l.
Proof.
  destruct (dedup_docs_spec l) as [_ H]. rewrite in_map_iff. split.
  - intros [[k y] [Hy Hin]]. simpl in Hy. subst y. apply H in Hin. tauto.
  - intros Hlast. exists (page_content x, x). split; [reflexivity|].
    apply H. auto.
Qed.

Lemma dedup_docs_contents (l : list Document) :
  map page_content (map snd (rag_pipeline.dedup_docs l))
  = map fst (rag_pipeline.dedup_docs l).
Proof.
  destruct (dedup_docs_spec l) as [_ H].
  rewrite map_map. apply map_ext_in. intros [k x] Hin. simpl.
  apply H in Hin. symmetry. tauto.
Qed.


(** ** Rounding a value of the unit interval to three decimals *)

Section RoundUnit.
Import FloatOrder.
Local Open Scope Z_scope.

Lemma digits2_pos_bound (m : positive) : Zpos m < 2 ^ Zpos (digits2_pos m).
Proof.
  induction m as [m IH|m IH|]; simpl digits2_pos;
    rewrite ?Pos2Z.inj_succ, ?Z.pow_succ_r by lia; lia.
Qed.

Lemma valid_mantissa_bound s m e :
  SpecFloat.valid_binary prec emax (S754_finite s m e) = true ->
  Zpos m < 9007199254740992.
Proof.
  unfold SpecFloat.valid_binary, bounded, canonical_mantissa, fexp, emin.
  unfold prec, emax. intros H. apply andb_true_iff in H. destruct H as [H _].
  apply Z.eqb_eq in H. pose proof (digits2_pos_bound m) as Hd.
  assert (Hle : Zpos (digits2_pos m) <= 53) by lia.
  eapply Z.lt_le_trans; [exact Hd|].
  change 9007199254740992 with (2 ^ 53).
  apply Z.pow_le_mono_r; lia.
Qed.

Lemma decimal_digits_unit m e :
  Zpos m < 9007199254740992 ->
  e < -52 \/ (e = -52 /\ Zpos m <= mantissa_1_0005) ->
  0 <= decimal_digits m e 3 <= 1000.
Proof.
  intros Hm He. unfold decimal_digits.
  destruct (0 <=? e) eqn:E; [apply Z.leb_le in E; lia|]. clear E.
  change (10 ^ Z.of_nat 3) with 1000. unfold round_half_even.
  destruct He as [He | [-> HM]].
  - set (P := 2 ^ (- e)).
    assert (HP : 9007199254740992 <= P).
    { change 9007199254740992 with (2 ^ 53). apply Z.pow_le_mono_r; lia. }
    assert (Hq0 : 0 <= Zpos m * 1000 / P) by (apply Z.div_pos; lia).
    assert (Hq1 : Zpos m * 1000 / P < 1000)
      by (apply Z.div_lt_upper_bound; lia).
    destruct (2 * ((Zpos m * 1000) mod P) ?= P);
      [destruct (Z.even (Zpos m * 1000 / P))| |]; lia.
  - unfold mantissa_1_0005 in HM.
    change (2 ^ (- -52)) with 4503599627370496.
    pose proof (Z.div_mod (Zpos m * 1000) 4503599627370496) as Hdm.
    pose proof (Z.mod_pos_bound (Zpos m * 1000) 4503599627370496) as Hr.
    set (q := Zpos m * 1000 / 4503599627370496) in *.
    set (r := (Zpos m * 1000) mod 4503599627370496) in *.
    clearbody q r.
    destruct (Z.compare_spec (2 * r) 4503599627370496);
      [destruct (Z.even q)| |]; lia.
Qed.

Lemma unit_decimals_table :
  forallb
    (fun n =>
       let c := float_of_decimal false (Z.of_nat n) 3 in
       (PrimFloat.leb 0 c && PrimFloat.leb c 1
        && PrimFloat.Leibniz.eqb (py_round c 3) c)%bool)
    (seq 0 1001) = true.
Proof. vm_compute. reflexivity. Qed.

Lemma unit_decimal (n : Z) :
  0 <= n <= 1000 ->
  let c := float_of_decimal false n 3 in
  PrimFloat.leb 0 c = true /\ PrimFloat.leb c 1 = true /\ py_round c 3 = c.
Proof.
  intros Hn c.
  pose proof unit_decimals_table as H. rewrite forallb_forall in H.
  specialize (H (Z.to_nat n)).
  rewrite Z2Nat.id in H by lia. fold c in H.
  assert (Hin : In (Z.to_nat n) (seq 0 1001)) by (apply in_seq; lia).
  apply H in Hin. apply andb_true_iff in Hin. destruct Hin as [Hin H3].
  apply andb_true_iff in Hin. destruct Hin as [H1 H2].
  apply FloatAxioms.Leibniz.eqb_spec in H3. auto.
Qed.

Lemma Prim2SF_1_0005 :
  Prim2SF 1.0005 = S754_finite false 4505851427184181 (-52).
Proof. vm_compute. reflexivity. Qed.

Lemma Prim2SF_zero : Prim2SF 0 = S754_zero false.
Proof. vm_compute. reflexivity. Qed.

Lemma Prim2SF_one : Prim2SF 1 = S754_finite false 4503599627370496 (-52).
Proof. vm_compute. reflexivity. Qed.

(** A score between 0 and 1.0005 rounds to a three-decimal value of the
    unit interval, which rounding leaves unchanged. *)
Lemma round_unit (b : float) :
  PrimFloat.leb 0 b = true -> PrimFloat.leb b 1.0005 = true ->
  PrimFloat.leb 0 (py_round b 3) = true
  /\ PrimFloat.leb (py_round b 3) 1 = true
  /\ py_round (py_round b 3) 3 = py_round b 3.
Proof.
  intros H0 H1. pose proof (Prim2SF_valid b) as Hv.
  apply leb_key in H0, H1.
  destruct H0 as [_ [Hnan H0]], H1 as [_ [_ H1]].
  unfold fkey in H0, H1. rewrite Prim2SF_zero in H0.
  rewrite Prim2SF_1_0005 in H1. unfold key_le in H0, H1.
  destruct (Prim2SF b) as [s|[|]| |[|] m e] eqn:Hb; simpl in H0, H1;
    try lia; try congruence.
  - assert (Hr : py_round b 3 = b) by (unfold py_round; rewrite Hb; reflexivity).
    rewrite !Hr. split; [|split; [|reflexivity]].
    + apply leb_key. unfold fkey. rewrite Prim2SF_zero, Hb.
      repeat split; try discriminate. unfold key_le. simpl. lia.
    + apply leb_key. unfold fkey. rewrite Prim2SF_one, Hb.
      repeat split; try discriminate. unfold key_le. simpl. lia.
  - assert (Hr : py_round b 3
                 = float_of_decimal false (decimal_digits m e 3) 3)
      by (unfold py_round; rewrite Hb; reflexivity).
    rewrite !Hr. apply unit_decimal. apply decimal_digits_unit.
    + exact (valid_mantissa_bound _ _ _ Hv).
    + unfold mantissa_1_0005. lia.
Qed.

End RoundUnit.

(** ** [infer_action] *)

Lemma ltb_irrefl (x : float) : PrimFloat.ltb x x = false.
Proof.
  destruct (PrimFloat.ltb x x) eqn:E; [|reflexivity].
  apply ltb_key in E. destruct E as [_ [_ E]].
  unfold FloatOrder.key_lt in E. lia.
Qed.

Section InferAction.
Context {S : Services}.

(** The similarity of the answer to the prototypes of one label. *)
Let sim (answer : pystr) (proto : pystr * list pystr) : float :=
  MODEL_max_similarity (snd proto) answer.

(** What the loop over the prototypes leaves in [(best_action,
    best_score)]: the start value or the label and similarity of one
    prototype group, a score no similarity exceeds, and a score that is at
    least 0 when the start score is. *)
Lemma best_fold_spec (answer : pystr) (protos : list (pystr * list pystr)) :
  forall b0,
    let b := fold_left (action_classifier.best_step answer) protos b0 in
    (PrimFloat.leb 0 (snd b0) = true -> PrimFloat.leb 0 (snd b) = true)
    /\ (b = b0 \/ exists p, In p protos /\ b = (fst p, sim answer p))
    /\ (forall p, In p protos -> PrimFloat.ltb (snd b) (sim answer p) = false)
    /\ (forall s, PrimFloat.ltb (snd b0) s = false ->
                  PrimFloat.ltb (snd b) s = false).
Proof.
  induction protos as [|p rest IH]; intros b0; simpl.
  - repeat split; auto. intros p [].
  - specialize (IH (action_classifier.best_step answer b0 p)).
    cbv zeta in IH. destruct IH as [IH0 [IH1 [IH2 IH3]]].
    unfold action_classifier.best_step in *. fold (sim answer p) in *.
    destruct (PrimFloat.ltb (snd b0) (sim answer p)) eqn:E; simpl in *.
    + split; [|split; [|split]].
      * intros H0. apply IH0. eapply leb_trans; [exact H0|].
        apply ltb_leb. exact E.
      * right. destruct IH1 as [-> | [p' [Hin Hp']]].
        -- exists p. auto.
        -- exists p'. auto.
      * intros p' [<- | Hin]; [|apply IH2; exact Hin].
        apply IH3. apply ltb_irrefl.
      * intros s Hs. apply IH3. eapply ltb_false_mono; eassumption.
    + split; [exact IH0|]. split; [|split].
      * destruct IH1 as [-> | [p' [Hin Hp']]]; [left; reflexivity|].
        right. exists p'. auto.
      * intros p' [<- | Hin]; [|apply IH2; exact Hin].
        apply IH3. exact E.
      * exact IH3.
Qed.

End InferAction.

(** C8, against the claim as stated: with every similarity equal to
    -0.25, the best similarity is below the threshold 0.5 and
    [round(-0.25, 3)] is -0.25, yet the returned confidence is 0.0. *)
Lemma C8_confidence_is_floored_at_zero :
  (forall texts,
      @MODEL_max_similarity (Demo.services [] (-0.25)%float) texts (u "ok")
      = (-0.25)%float)
  /\ PrimFloat.ltb (-0.25) 0.5 = true
  /\ py_round (-0.25) 3 = (-0.25)%float
  /\ fst (@action_classifier.infer_action (Demo.services [] (-0.25)%float)
            (u "ok") 0.5 [])
     = inr (action_classifier.mkDecision (u "no_action") 0)
  /\ PrimFloat.ltb (-0.25) 0 = true.
Proof. repeat split; vm_compute; reflexivity. Qed.

(** C8, amended: when no similarity of the embedding model exceeds
    1.0005, [infer_action] returns a confidence between 0 and 1 that
    rounding to three decimals leaves unchanged.  A blank answer gives
    exactly [{action: no_action, confidence: 0.0}] and no call to the
    model.  Otherwise the model is called once and the confidence is
    [round(best, 3)], where [best] is 0.0 or the similarity of one label,
    is at least 0.0 and is exceeded by no similarity; the action is
    ["no_action"] when [best] is below the threshold. *)
Theorem C8_infer_action (S : Services) (answer : pystr) (threshold : float)
    (log : list call) :
  (forall proto,
      In proto action_classifier.ACTION_PROTOTYPES ->
      PrimFloat.leb (MODEL_max_similarity (snd proto) answer) 1.0005 = true) ->
  exists d log',
    action_classifier.infer_action answer threshold log = (inr d, log')
    /\ PrimFloat.leb 0 (action_classifier.confidence d) = true
    /\ PrimFloat.leb (action_classifier.confidence d) 1 = true
    /\ py_round (action_classifier.confidence d) 3
       = action_classifier.confidence d
    /\ (truthy (strip answer) = false ->
        d = action_classifier.mkDecision (u "no_action") 0 /\ log' = log)
    /\ (truthy (strip answer) = true ->
        exists best,
          log' = log ++ [EncodeCall answer]
          /\ action_classifier.confidence d = py_round best 3
          /\ PrimFloat.leb 0 best = true
          /\ (best = 0%float
              \/ exists proto,
                   In proto action_classifier.ACTION_PROTOTYPES
                   /\ best = MODEL_max_similarity (snd proto) answer)
          /\ (forall proto,
                 In proto action_classifier.ACTION_PROTOTYPES ->
                 PrimFloat.ltb best
                   (MODEL_max_similarity (snd proto) answer) = false)
          /\ (PrimFloat.ltb best threshold = true ->
              action_classifier.action d = u "no_action")).
Proof.
  intros Hsim. unfold action_classifier.infer_action.
  destruct (truthy (strip answer)) eqn:Hnb.
  - assert (Ht : truthy answer = true).
    { destruct answer; [discriminate | reflexivity]. }
    rewrite Ht. simpl orb. cbv iota.
    pose proof (best_fold_spec answer action_classifier.ACTION_PROTOTYPES
                  (u "no_action", 0%float)) as Hfold.
    cbv zeta in Hfold.
    set (b := fold_left (action_classifier.best_step answer)
                action_classifier.ACTION_PROTOTYPES (u "no_action", 0%float))
      in *.
    destruct Hfold as [H0 [H1 [H2 _]]].
    assert (Hb0 : PrimFloat.leb 0 (snd b) = true) by (apply H0; reflexivity).
    assert (Hcases : snd b = 0%float
                     \/ exists proto,
                          In proto action_classifier.ACTION_PROTOTYPES
                          /\ snd b = MODEL_max_similarity (snd proto) answer).
    { destruct H1 as [-> | [p [Hin ->]]]; [left; reflexivity|].
      right. exists p. auto. }
    assert (Hb1 : PrimFloat.leb (snd b) 1.0005 = true).
    { destruct Hcases as [-> | [p [Hin ->]]]; [reflexivity|].
      apply Hsim. exact Hin. }
    destruct (round_unit (snd b) Hb0 Hb1) as [Hc0 [Hc1 Hc2]].
    unfold bind, tell, ret.
    destruct (PrimFloat.ltb (snd b) threshold) eqn:Hthr;
      eexists; eexists; (split; [reflexivity|]); simpl;
      (split; [exact Hc0|]); (split; [exact Hc1|]); (split; [exact Hc2|]);
      (split; [discriminate|]); intros _; exists (snd b);
      repeat split; auto; intros; congruence.
  - assert (Hor : (negb (truthy answer) || negb false)%bool = true)
      by (rewrite orb_true_r; reflexivity).
    rewrite Hor. unfold ret.
    eexists; eexists. split; [reflexivity|]. simpl.
    split; [reflexivity|]. split; [reflexivity|]. split; [reflexivity|].
    split; [auto | discriminate].
Qed.

(** * The theorems at concrete inputs *)


(** C4 at a resolution with poor retrieval and an abstaining classifier. *)
Lemma C4_safety_override_witness :
  @rag_pipeline.resolve_ticket Demo.poor_services (u "Help") Demo.llm_test []
  = (inr Demo.poor_result, Demo.poor_log)
  /\ rag_pipeline.action_required Demo.poor_result = u "follow_up_required"
  /\ exists generated,
       rag_pipeline.answer Demo.poor_result = schemas.answer generated.
Proof.
  assert (Hrun : @rag_pipeline.resolve_ticket Demo.poor_services (u "Help")
                   Demo.llm_test []
                 = (inr Demo.poor_result, Demo.poor_log))
    by (vm_compute; reflexivity).
  split; [exact Hrun|]. split; [reflexivity|].
  destruct (C4_safety_override Demo.poor_services _ _ _ _ _ Hrun)
    as [all_docs [log0 [log1 [generated [_ [_ [Hanswer _]]]]]]].
  exists generated. exact Hanswer.
Defined.


(** C7 at a blank answer, at four references, and at a generated
    response: the classifier abstains, and the response is constructed
    with the action ["none"]. *)
Lemma C7_response_validation_witness :
  (exists fields,
      schemas.new_MCPResponse (u "   ") [] (u "none")
      = inl (ValidationError fields) /\ fields <> [])
  /\ (exists fields,
         schemas.new_MCPResponse (u "ok") [u "a"; u "b"; u "c"; u "d"]
           (u "none")
         = inl (ValidationError fields) /\ fields <> [])
  /\ @generation.generate_answer Demo.poor_services (u "Help") []
       Demo.llm_test []
     = (inr Demo.generated_response, Demo.generated_log)
  /\ (exists decision,
         schemas.new_MCPResponse (u "Test") []
           (generation.normalize_action (action_classifier.action decision))
         = inr Demo.generated_response
         /\ action_classifier.action decision = u "no_action")
  /\ schemas.action_required Demo.generated_response = u "none".
Proof.
  destruct C7_response_validation as [Hrej [_ [_ [_ Hgen]]]].
  split; [apply Hrej; left; reflexivity|].
  split; [apply Hrej; right; right; left; simpl; lia|].
  assert (Hrun : @generation.generate_answer Demo.poor_services (u "Help") []
                   Demo.llm_test []
                 = (inr Demo.generated_response, Demo.generated_log))
    by (vm_compute; reflexivity).
  split; [exact Hrun|].
  destruct (Hgen Demo.poor_services _ _ _ _ _ _ Hrun)
    as [a [decision [Hparsed [Hinf [Hnew [_ [Hnone _]]]]]]].
  vm_compute in Hparsed. injection Hparsed as Ha. subst a.
  assert (Hdec : action_classifier.action decision = u "no_action").
  { vm_compute in Hinf. injection Hinf as Hd. rewrite <- Hd. reflexivity. }
  split; [exists decision; split; [exact Hnew | exact Hdec]|].
  apply Hnone. exact Hdec.
Defined.

(** C8 at an answer whose similarity to every label is 0.25. *)
Lemma C8_infer_action_witness :
  exists d log',
    @action_classifier.infer_action Demo.poor_services (u "ok") 0.5 []
    = (inr d, log')
    /\ PrimFloat.leb 0 (action_classifier.confidence d) = true
    /\ PrimFloat.leb (action_classifier.confidence d) 1 = true.
Proof.
  destruct (C8_infer_action Demo.poor_services (u "ok") 0.5 [])
    as [d [log' [Hrun [H0 [H1 _]]]]].
  - intros proto Hin. reflexivity.
  - exists d, log'. auto.
Defined.

(** C9 at a collaborator answer with bullets, numbering, a duplicate, a
    blank line and nine lines. *)
Lemma C9_rewrite_ticket_witness :
  truthy (strip (u "Help")) = true
  /\ @query_rewriter.rewrite_ticket Demo.poor_services (u "Help")
       Demo.llm_lines []
     = (inr Demo.rewritten, Demo.rewritten_log)
  /\ Demo.rewritten
     = [ u "domain suspension reason"; u "billing issue refund";
         u "abuse complaint details"; u "q4"; u "q5" ]
  /\ exists cleaned,
       Forall2 (Spec.cleaned_from (@unicode_isdecimal Demo.poor_services))
         (splitlines
            (get_default
               (Demo.llm_lines
                  (query_rewriter.QUERY_REWRITE_PROMPT (strip (u "Help"))))
               []))
         cleaned
       /\ Demo.rewritten
          = firstn 5 (Spec.first_seen (filter truthy cleaned))
       /\ NoDup Demo.rewritten.
Proof.
  assert (Hnb : truthy (strip (u "Help")) = true) by reflexivity.
  split; [exact Hnb|].
  assert (Hrun : @query_rewriter.rewrite_ticket Demo.poor_services (u "Help")
                   Demo.llm_lines []
                 = (inr Demo.rewritten, Demo.rewritten_log))
    by (vm_compute; reflexivity).
  split; [exact Hrun|].
  split; [vm_compute; reflexivity|].
  destruct (C9_rewrite_ticket Demo.poor_services (u "Help") Demo.llm_lines []
              Hnb)
    as [out [response [cleaned [Hout [Hresp [Hall [_ [_ [Heq [Hnd _]]]]]]]]]].
  assert (Hsame : out = Demo.rewritten) by congruence.
  subst response. rewrite Hsame in *.
  exists cleaned. split; [exact Hall|]. split; [exact Heq | exact Hnd].
Defined.

(** C10 at the same collaborator answer. *)
Lemma C10_queries_trimmed_witness :
  @query_rewriter.rewrite_ticket Demo.poor_services (u "Help")
    Demo.llm_lines []
  = (inr Demo.rewritten, Demo.rewritten_log)
  /\ Forall Spec.trimmed_nonempty Demo.rewritten.
Proof.
  assert (Hrun : @query_rewriter.rewrite_ticket Demo.poor_services (u "Help")
                   Demo.llm_lines []
                 = (inr Demo.rewritten, Demo.rewritten_log))
    by (vm_compute; reflexivity).
  split; [exact Hrun|].
  exact (C10_queries_trimmed Demo.poor_services _ _ _ _ _ Hrun).
Defined.

(** * Further properties of the code *)

(** ** More on trimming *)

Lemma dropwhile_nil_all p (s : pystr) :
  dropwhile p s = [] -> Forall (fun c => p c = true) s.
Proof.
  induction s as [|c s IH]; simpl; [constructor|].
  destruct (p c) eqn:Hc; [|discriminate].
  intros H. constructor; [exact Hc | exact (IH H)].
Qed.

Lemma strip_nil_all (s : pystr) :
  strip s = [] -> Forall (fun c => isspace c = true) s.
Proof.
  unfold strip, rstrip. intros H.
  apply (f_equal (@rev char)) in H. rewrite rev_involutive in H. simpl in H.
  apply dropwhile_nil_all in H.
  rewrite <- (takewhile_dropwhile isspace s). apply Forall_app. split.
  - apply takewhile_all.
  - apply Forall_rev in H. rewrite rev_involutive in H. exact H.
Qed.

Lemma strip_nonblank (s : pystr) c :
  In c s -> isspace c = false -> strip s <> [].
Proof.
  intros Hin Hc Hnil. apply strip_nil_all in Hnil.
  rewrite Forall_forall in Hnil. rewrite (Hnil c Hin) in Hc. discriminate.
Qed.

Lemma dropwhile_id p (s : pystr) :
  (forall c rest, s = c :: rest -> p c = false) -> dropwhile p s = s.
Proof.
  destruct s as [|c s]; [reflexivity|]. intros H. simpl.
  rewrite (H c s eq_refl). reflexivity.
Qed.

Lemma rstrip_id (s : pystr) :
  (forall c front, s = front ++ [c] -> isspace c = false) -> rstrip s = s.
Proof.
  intros H. unfold rstrip. rewrite dropwhile_id; [apply rev_involutive|].
  intros c rest Hr. apply (H c (rev rest)).
  rewrite <- (rev_involutive s), Hr. reflexivity.
Qed.

Lemma strip_of_trimmed (s : pystr) : Spec.trimmed_nonempty s -> strip s = s.
Proof.
  intros [_ [Hhead Hlast]]. unfold strip, lstrip.
  rewrite (dropwhile_id isspace s Hhead). apply rstrip_id. exact Hlast.
Qed.

Lemma strip_idem (s : pystr) : strip (strip s) = strip s.
Proof.
  destruct (strip s) as [|c r] eqn:E; [reflexivity|].
  rewrite <- E. apply strip_of_trimmed. apply strip_trimmed.
  rewrite E. discriminate.
Qed.

Lemma dropwhile_length p (s : pystr) :
  List.length (dropwhile p s) <= List.length s.
Proof.
  induction s as [|c s IH]; simpl; [lia|].
  destruct (p c); simpl; lia.
Qed.

Lemma strip_length (s : pystr) : List.length (strip s) <= List.length s.
Proof.
  unfold strip, rstrip, lstrip. rewrite length_rev.
  etransitivity; [apply dropwhile_length|]. rewrite length_rev.
  apply dropwhile_length.
Qed.

(** ** Slices *)

Lemma slice_to_firstn {A} (k : Z) (l : list A) :
  exists n, slice_to k l = firstn n l.
Proof. unfold slice_to. destruct (k <? 0)%Z; eexists; reflexivity. Qed.

Lemma slice_to_length {A} (k : Z) (l : list A) :
  List.length (slice_to k l)
  = if (k <? 0)%Z then List.length l - Z.to_nat (- k)
    else Nat.min (Z.to_nat k) (List.length l).
Proof.
  unfold slice_to. destruct (k <? 0)%Z; rewrite length_firstn; lia.
Qed.

Lemma slice_to_le_length {A} (k : Z) (l : list A) :
  List.length (slice_to k l) <= List.length l.
Proof.
  destruct (slice_to_firstn k l) as [n ->]. rewrite length_firstn. lia.
Qed.

Lemma In_slice_to {A} (k : Z) (l : list A) x : In x (slice_to k l) -> In x l.
Proof.
  destruct (slice_to_firstn k l) as [n ->]. apply In_firstn.
Qed.

Lemma slice_to_map {A B} (f : A -> B) (k : Z) (l : list A) :
  slice_to k (map f l) = map f (slice_to k l).
Proof.
  unfold slice_to. rewrite length_map.
  destruct (k <? 0)%Z; apply firstn_map.
Qed.

(** ** References *)

(** X1: for every [int] [k], [select_top_references(docs, k)] formats a
    prefix of [docs] in input order: the first [min(k, len(docs))]
    documents when [k >= 0], and all but the last [-k] documents when [k]
    is negative (none when [docs] has at most [-k] of them).  With
    [k = -1] and three documents it returns two references, so [k] bounds
    the number of references only when it is not negative. *)
Theorem X1_select_top_references (docs : list Document) (k : Z) :
  let n :=
    if (k <? 0)%Z then List.length docs - Z.to_nat (- k)
    else Nat.min (Z.to_nat k) (List.length docs) in
  List.length (references.select_top_references docs k) = n
  /\ (forall i,
         nth_error (references.select_top_references docs k) i
         = if Nat.ltb i n
           then option_map references.format_reference (nth_error docs i)
           else None)
  /\ ((0 <= k)%Z ->
      (Z.of_nat (List.length (references.select_top_references docs k))
       <= k)%Z)
  /\ (forall a b c,
         references.select_top_references [a; b; c] (-1)
         = [references.format_reference a; references.format_reference b]).
Proof.
  intros n. unfold references.select_top_references.
  assert (Hslice : slice_to k docs = firstn n docs).
  { unfold slice_to, n. destruct (k <? 0)%Z; [reflexivity|].
    rewrite <- firstn_firstn. rewrite firstn_all. reflexivity. }
  assert (Hn : n <= List.length docs).
  { unfold n. destruct (k <? 0)%Z; lia. }
  split; [rewrite length_map, Hslice, length_firstn; lia|]. split.
  - intros i. rewrite Hslice, nth_error_map, nth_error_firstn.
    destruct (Nat.ltb i n); reflexivity.
  - split; [|reflexivity].
    intros Hk. rewrite length_map, slice_to_length.
    destruct (k <? 0)%Z eqn:E; [apply Z.ltb_lt in E; lia|]. lia.
Qed.

(** X2: a reference always starts with ["{category}: {section}"] and ends
    with [" | file={source_file}"], the three with their defaults; with a
    subsection that is absent or the empty string nothing stands between
    the two; and a reference is never blank. *)
Theorem X2_format_reference_shape (doc : Document) :
  let head :=
    get_default (category (metadata doc)) (u "unknown") ++ u ": "
      ++ get_default (section (metadata doc)) (u "Unknown Doc") in
  let tail :=
    u " | file="
      ++ get_default (source_file (metadata doc)) (u "unknown_file") in
  (exists middle, references.format_reference doc = head ++ middle ++ tail)
  /\ (subsection (metadata doc) = None \/ subsection (metadata doc) = Some []
      -> references.format_reference doc = head ++ tail)
  /\ strip (references.format_reference doc) <> [].
Proof.
  intros head tail.
  assert (Hshape : exists middle,
             references.format_reference doc = head ++ middle ++ tail
             /\ (subsection (metadata doc) = None
                 \/ subsection (metadata doc) = Some [] -> middle = [])).
  { unfold references.format_reference, head, tail.
    destruct (subsection (metadata doc)) as [[|c sub]|]; simpl.
    - exists []. split; reflexivity.
    - exists (u " | " ++ references.subsection_marker ++ u " " ++ c :: sub).
      split; [|intros [H | H]; discriminate].
      simpl. f_equal.
    - exists []. split; reflexivity. }
  destruct Hshape as [middle [Heq Hmid]].
  split; [exists middle; exact Heq|]. split.
  - intros H. rewrite Heq, (Hmid H). reflexivity.
  - rewrite Heq. apply (strip_nonblank _ 58%N); [|reflexivity].
    unfold head. rewrite !in_app_iff. left. right. left. left. reflexivity.
Qed.

(** ** Reranking and retrieval *)

Lemma StronglySorted_firstn {A} (R : A -> A -> Prop) (n : nat) (l : list A) :
  StronglySorted R l -> StronglySorted R (firstn n l).
Proof.
  intros Hs. revert n. induction Hs as [|x l Hs IH Hx]; intros [|n]; simpl;
    try constructor.
  - apply IH.
  - apply Forall_forall. intros y Hy. rewrite Forall_forall in Hx.
    apply Hx. exact (In_firstn _ _ _ Hy).
Qed.

Lemma StronglySorted_map {A B} (f : A -> B) (R : B -> B -> Prop)
    (l : list A) :
  StronglySorted (fun a b => R (f a) (f b)) l -> StronglySorted R (map f l).
Proof.
  induction 1 as [|x l Hs IH Hx]; simpl; constructor; [exact IH|].
  apply Forall_map. exact Hx.
Qed.

Section RerankFacts.
Context {S : Services}.

(** The candidates in rank order, before the cut to [top_k]. *)
Let ranked (query : pystr) (docs : list Document) : list (Document * float) :=
  sorted_desc snd
    (combine docs
       (RERANKER_predict (map (fun d => (query, page_content d)) docs))).

Lemma rerank_documents_run query docs top_k log :
  retriever._rerank_documents query docs top_k log
  = match docs with
    | [] => (inr ([], []), log)
    | _ :: _ =>
        (inr (map (fun x => retriever.set_relevance_score (fst x) (snd x))
                (slice_to top_k (ranked query docs)),
              map snd (slice_to top_k (ranked query docs))),
         log ++ [RerankCall (map (fun d => (query, page_content d)) docs)])
    end.
Proof. destruct docs; reflexivity. Qed.

End RerankFacts.

(** X4: when the reranker returns no NaN, the scores returned by
    [_rerank_documents] are in descending order. *)
Theorem X4_rerank_scores_descending (S : Services) query docs top_k log
    out_docs out_scores log' :
  Forall (fun s => PrimFloat.is_nan s = false)
    (RERANKER_predict (map (fun d => (query, page_content d)) docs)) ->
  retriever._rerank_documents query docs top_k log
  = (inr (out_docs, out_scores), log') ->
  StronglySorted (fun a b => PrimFloat.leb b a = true) out_scores.
Proof.
  intros Hnan H. rewrite rerank_documents_run in H.
  destruct docs as [|d0 docs0].
  - inversion H. constructor.
  - set (docs := d0 :: docs0) in *. clearbody docs.
    injection H as _ Hs _. rewrite <- Hs.
    apply StronglySorted_map.
    destruct (slice_to_firstn top_k
                (sorted_desc snd
                   (combine docs
                      (RERANKER_predict
                         (map (fun d => (query, page_content d)) docs)))))
      as [n ->].
    apply StronglySorted_firstn.
    apply (sorted_desc_sorted (A := Document * float) snd).
    apply Forall_forall. intros [d s] Hin.
    apply in_combine_r in Hin. rewrite Forall_forall in Hnan.
    exact (Hnan s Hin).
Qed.

Section RetrieveFacts.
Context {S : Services}.

Lemma rerank_documents_aligned query docs top_k log out_docs out_scores log' :
  retriever._rerank_documents query docs top_k log
  = (inr (out_docs, out_scores), log') ->
  map (fun d => relevance_score (metadata d)) out_docs = map Some out_scores
  /\ List.length out_docs <= List.length docs
  /\ (docs = [] -> out_docs = [] /\ log' = log)
  /\ (docs <> [] ->
      log' = log ++ [RerankCall (map (fun d => (query, page_content d)) docs)]).
Proof.
  rewrite rerank_documents_run. destruct docs as [|d0 docs0]; intros H.
  - inversion H; subst. simpl. repeat split; auto; try lia.
    intros Hne. congruence.
  - set (docs := d0 :: docs0) in *.
    assert (Hne : docs <> []) by discriminate. clearbody docs.
    injection H as Hd Hs Hl. subst out_docs out_scores log'.
    split; [rewrite !map_map; reflexivity|].
    split.
    { rewrite length_map.
      etransitivity; [apply slice_to_le_length|].
      rewrite (Permutation_length (sorted_desc_perm snd _)).
      rewrite length_combine. apply Nat.le_min_l. }
    split; [intros Hnil; contradiction | reflexivity].
Qed.

Lemma retrieve_documents_run q k1 k2 log :
  truthy (strip q) = true ->
  retriever.retrieve_documents q k1 k2 log
  = match retriever._rerank_documents (strip q)
            (retriever_invoke (strip q) k1) k2
            (log ++ [SearchCall (strip q) k1])
    with
    | (inr r, l) =>
        (inr (fst r, retriever.evaluate_retrieval (snd r) (fst r)), l)
    | (inl e, l) => (inl e, l)
    end.
Proof.
  intros Hq. unfold retriever.retrieve_documents. rewrite Hq.
  change (negb true) with false. cbv iota. unfold bind, tell, ret.
  destruct (retriever._rerank_documents _ _ _ _) as [[e|[d sc]] l]; reflexivity.
Qed.

Lemma retrieve_documents_nonblank q k1 k2 log r log' :
  retriever.retrieve_documents q k1 k2 log = (inr r, log') ->
  truthy (strip q) = true.
Proof.
  unfold retriever.retrieve_documents.
  destruct (truthy (strip q)); [reflexivity|]. simpl. discriminate.
Qed.

(** What a run of [retrieve_documents] that returns consists of. *)
Lemma retrieve_documents_success q k1 k2 log docs e log' :
  retriever.retrieve_documents q k1 k2 log = (inr (docs, e), log') ->
  exists scores,
    e = retriever.evaluate_retrieval scores docs
    /\ map (fun d => relevance_score (metadata d)) docs = map Some scores
    /\ List.length docs <= List.length (retriever_invoke (strip q) k1)
    /\ retriever._rerank_documents (strip q) (retriever_invoke (strip q) k1)
         k2 (log ++ [SearchCall (strip q) k1])
       = (inr (docs, scores), log').
Proof.
  intros H. pose proof (retrieve_documents_nonblank _ _ _ _ _ _ H) as Hq.
  rewrite (retrieve_documents_run q k1 k2 log Hq) in H.
  destruct (retriever._rerank_documents _ _ _ _) as [[err|[d sc]] l] eqn:Hr;
    [discriminate|].
  simpl in H. injection H as Hd He Hl. subst docs e log'.
  destruct (rerank_documents_aligned _ _ _ _ _ _ _ Hr) as [Hal [Hlen _]].
  exists sc. auto.
Qed.

End RetrieveFacts.

(** X6: in what [retrieve_documents] returns, the assessment carries the
    reason ["no_documents_retrieved"] exactly when no document is
    returned, [num_results] is the number of returned documents
    otherwise, and a label ["good"] (or ["partially good"]) means that
    the first returned document has a relevance score above 4.0 (or
    above 3.0). *)
Theorem X6_retrieval_assessment (S : Services) q k1 k2 log docs e log' :
  retriever.retrieve_documents q k1 k2 log = (inr (docs, e), log') ->
  (docs = []
   <-> dict_get e "reason" = Some (VStr (u "no_documents_retrieved")))
  /\ (docs <> [] ->
      dict_get e "num_results" = Some (VInt (Z.of_nat (List.length docs))))
  /\ (get_is e "quality" (u "good") = true ->
      exists d rest s,
        docs = d :: rest /\ relevance_score (metadata d) = Some s
        /\ PrimFloat.ltb 4.0 s = true)
  /\ (get_is e "quality" (u "partially good") = true ->
      exists d rest s,
        docs = d :: rest /\ relevance_score (metadata d) = Some s
        /\ PrimFloat.ltb 3.0 s = true).
Proof.
  intros H. apply retrieve_documents_success in H.
  destruct H as [scores [-> [Hal _]]].
  destruct scores as [|top more]; destruct docs as [|d rest];
    try discriminate Hal.
  - split; [split; reflexivity|]. split; [congruence|].
    split; intros Hq; vm_compute in Hq; discriminate.
  - simpl in Hal. injection Hal as Hd _.
    unfold retriever.evaluate_retrieval. cbv beta zeta.
    set (gap := match more with [] => top | second :: _ => _ end).
    split; [split; [discriminate|]|].
    { destruct (gtb top 4 && gtb gap 0.6)%bool; [intros Hr; discriminate Hr|].
      destruct (gtb top 3); intros Hr; discriminate Hr. }
    split; [intros _; reflexivity|].
    unfold get_is, gtb. simpl dict_get.
    destruct (PrimFloat.ltb 4 top) eqn:H4;
      destruct (PrimFloat.ltb 0.6 gap) eqn:Hg;
      destruct (PrimFloat.ltb 3 top) eqn:H3; simpl andb; cbv iota;
      (split; intros Hq;
       [ try (vm_compute in Hq; discriminate Hq)
       | try (vm_compute in Hq; discriminate Hq) ]);
      exists d, rest, top; auto.
Qed.

(** ** Blank tickets *)

(** X7: for a ticket that is empty or only whitespace, [rewrite_ticket],
    [generate_answer] and [resolve_ticket] all raise
    [ValueError("ticket_text must be non-empty")] and call no service. *)
Theorem X7_blank_ticket (S : Services) ticket docs llm log :
  truthy (strip ticket) = false ->
  query_rewriter.rewrite_ticket ticket llm log
  = (inl (ValueError (u "ticket_text must be non-empty")), log)
  /\ generation.generate_answer ticket docs llm log
     = (inl (ValueError (u "ticket_text must be non-empty")), log)
  /\ rag_pipeline.resolve_ticket ticket llm log
     = (inl (ValueError (u "ticket_text must be non-empty")), log).
Proof.
  intros Hb.
  assert (Hor : (negb (truthy ticket) || negb (truthy (strip ticket)))%bool
                = true) by (rewrite Hb, orb_true_r; reflexivity).
  assert (Hrw : query_rewriter.rewrite_ticket ticket llm log
                = (inl (ValueError (u "ticket_text must be non-empty")), log)).
  { unfold query_rewriter.rewrite_ticket. rewrite Hor. reflexivity. }
  split; [exact Hrw|]. split.
  - unfold generation.generate_answer. rewrite Hor. reflexivity.
  - unfold rag_pipeline.resolve_ticket, bind. rewrite Hrw. reflexivity.
Qed.

(** ** The label chosen by [infer_action] *)

Lemma ltb_trans (x y z : float) :
  PrimFloat.ltb x y = true -> PrimFloat.ltb y z = true ->
  PrimFloat.ltb x z = true.
Proof.
  intros H1 H2. apply ltb_key in H1, H2.
  destruct H1 as [Hx [Hy H1]], H2 as [_ [Hz H2]].
  apply ltb_key. split; [exact Hx|]. split; [exact Hz|].
  unfold FloatOrder.key_lt in *. lia.
Qed.

Section InferActionLabel.
Context {S : Services}.

(** The loop either keeps its start value or ends on the label and
    similarity of a prototype group whose similarity is above the start
    score. *)
Lemma best_fold_label (answer : pystr) (protos : list (pystr * list pystr)) :
  forall b0,
    let b := fold_left (action_classifier.best_step answer) protos b0 in
    b = b0
    \/ exists p,
         In p protos
         /\ b = (fst p, MODEL_max_similarity (snd p) answer)
         /\ PrimFloat.ltb (snd b0) (MODEL_max_similarity (snd p) answer)
            = true.
Proof.
  induction protos as [|p rest IH]; intros b0; simpl; [left; reflexivity|].
  specialize (IH (action_classifier.best_step answer b0 p)). cbv zeta in IH.
  unfold action_classifier.best_step in *.
  destruct (PrimFloat.ltb (snd b0) (MODEL_max_similarity (snd p) answer))
    eqn:E.
  - right. destruct IH as [-> | [p' [Hin [-> Hlt]]]].
    + exists p. auto.
    + exists p'. split; [right; exact Hin|]. split; [reflexivity|].
      simpl in Hlt. eapply ltb_trans; eassumption.
  - destruct IH as [-> | [p' [Hin [-> Hlt]]]]; [left; reflexivity|].
    right. exists p'. auto.
Qed.

Lemma prototype_labels_in_enum :
  forallb (fun p => str_in (fst p) schemas.ActionRequired)
    action_classifier.ACTION_PROTOTYPES = true.
Proof. vm_compute. reflexivity. Qed.

(** Every run of [infer_action] returns; a blank answer gives the
    abstention without a call, any other answer one call to the model. *)
Lemma infer_action_run answer threshold log :
  exists d,
    action_classifier.infer_action answer threshold log
    = (inr d, if truthy (strip answer) then log ++ [EncodeCall answer]
              else log)
    /\ (action_classifier.action d = u "no_action"
        \/ exists p,
             In p action_classifier.ACTION_PROTOTYPES
             /\ action_classifier.action d = fst p
             /\ action_classifier.confidence d
                = py_round (MODEL_max_similarity (snd p) answer) 3
             /\ PrimFloat.ltb (MODEL_max_similarity (snd p) answer) threshold
                = false
             /\ PrimFloat.ltb 0 (MODEL_max_similarity (snd p) answer) = true
             /\ forall p',
                  In p' action_classifier.ACTION_PROTOTYPES ->
                  PrimFloat.ltb (MODEL_max_similarity (snd p) answer)
                    (MODEL_max_similarity (snd p') answer) = false).
Proof.
  unfold action_classifier.infer_action.
  destruct (truthy (strip answer)) eqn:Hnb.
  - assert (Ht : truthy answer = true).
    { destruct answer; [discriminate | reflexivity]. }
    rewrite Ht. simpl orb. cbv iota. unfold bind, tell, ret.
    pose proof (best_fold_label answer action_classifier.ACTION_PROTOTYPES
                  (u "no_action", 0%float)) as Hlab.
    pose proof (best_fold_spec answer action_classifier.ACTION_PROTOTYPES
                  (u "no_action", 0%float)) as Hspec.
    cbv zeta in Hlab, Hspec. destruct Hspec as [_ [_ [Hmax _]]].
    set (b := fold_left (action_classifier.best_step answer)
                action_classifier.ACTION_PROTOTYPES (u "no_action", 0%float))
      in *.
    destruct (PrimFloat.ltb (snd b) threshold) eqn:Hthr.
    + eexists. split; [reflexivity|]. left. reflexivity.
    + eexists. split; [reflexivity|]. simpl.
      destruct Hlab as [Hb | [p [Hin [Hb Hlt]]]].
      * left. rewrite Hb. reflexivity.
      * right. exists p. rewrite Hb in *. simpl in *. auto 10.
  - assert (Hor : (negb (truthy answer) || negb false)%bool = true)
      by (rewrite orb_true_r; reflexivity).
    rewrite Hor. eexists. split; [reflexivity|]. left. reflexivity.
Qed.

End InferActionLabel.

(** With collaborators that return, [infer_action] returns: the
    abstention, or a label of the enum with its rounded similarity. *)
Lemma infer_action_label (S : Services) answer threshold log :
  exists d,
    action_classifier.infer_action answer threshold log
    = (inr d, if truthy (strip answer) then log ++ [EncodeCall answer]
              else log)
    /\ (action_classifier.action d = u "no_action"
        \/ In (action_classifier.action d) schemas.ActionRequired
           /\ exists texts,
                In (action_classifier.action d, texts)
                  action_classifier.ACTION_PROTOTYPES
                /\ action_classifier.confidence d
                   = py_round (MODEL_max_similarity texts answer) 3
                /\ PrimFloat.ltb (MODEL_max_similarity texts answer) threshold
                   = false
                /\ PrimFloat.ltb 0 (MODEL_max_similarity texts answer) = true
                /\ forall p',
                     In p' action_classifier.ACTION_PROTOTYPES ->
                     PrimFloat.ltb (MODEL_max_similarity texts answer)
                       (MODEL_max_similarity (snd p') answer) = false).
Proof.
  destruct (infer_action_run answer threshold log) as [d [Hrun Hlab]].
  exists d. split; [exact Hrun|].
  destruct Hlab as [Hno | [[label texts] [Hin [Hact Hrest]]]];
    [left; exact Hno|].
  right. cbn [fst snd] in *. split.
  - pose proof prototype_labels_in_enum as Hall.
    rewrite forallb_forall in Hall. specialize (Hall _ Hin).
    cbn [fst] in Hall.
    rewrite Hact. apply str_in_In. exact Hall.
  - exists texts. rewrite Hact. split; [exact Hin | exact Hrest].
Qed.

(** ** Accepted responses *)

Lemma filter_all_true {A} (f : A -> bool) (l : list A) :
  Forall (fun x => f x = true) l -> filter f l = l.
Proof.
  induction 1 as [|x l Hx _ IH]; simpl; [reflexivity|].
  rewrite Hx, IH. reflexivity.
Qed.

Lemma cleaned_all_trimmed (refs : list pystr) :
  Forall Spec.trimmed_nonempty
    (map strip (filter (fun r => truthy (strip r)) refs)).
Proof.
  apply Forall_map, Forall_forall. intros r Hr.
  apply filter_In in Hr. destruct Hr as [_ Hr].
  apply strip_trimmed. apply truthy_true_ne. exact Hr.
Qed.

Lemma validate_references_trimmed (refs : list pystr) :
  Forall Spec.trimmed_nonempty refs -> List.length refs <= 3 ->
  schemas.validate_references refs = Some refs.
Proof.
  intros Hall Hlen.
  unfold schemas.validate_references, schemas.references_nonempty_strings.
  rewrite cleaned_references.
  assert (Hf : filter (fun r => truthy (strip r)) refs = refs).
  { apply filter_all_true. eapply Forall_impl; [|exact Hall].
    intros r Hr. rewrite (strip_of_trimmed r Hr). apply truthy_true_ne.
    apply Hr. }
  assert (Hm : map strip refs = refs).
  { rewrite <- (map_id refs) at 2. apply map_ext_in. intros r Hr.
    rewrite Forall_forall in Hall. apply strip_of_trimmed, Hall. exact Hr. }
  rewrite Hf, Hm.
  destruct (Nat.ltb 3 (List.length refs)) eqn:E; [|reflexivity].
  apply Nat.ltb_lt in E. lia.
Qed.

Lemma validate_answer_trimmed (a : pystr) :
  Spec.trimmed_nonempty a -> List.length a <= 5000 ->
  schemas.validate_answer a = Some a.
Proof.
  intros Ha Hlen. unfold schemas.validate_answer.
  assert (H1 : Nat.leb 1 (List.length a) = true).
  { apply Nat.leb_le. destruct a; [destruct Ha as [Hne _]; congruence|].
    simpl. lia. }
  assert (H2 : Nat.leb (List.length a) 5000 = true) by (apply Nat.leb_le; lia).
  rewrite H1, H2. simpl andb. cbv iota.
  unfold schemas.answer_must_not_be_blank.
  rewrite (strip_of_trimmed a Ha).
  destruct a; [destruct Ha as [Hne _]; congruence | reflexivity].
Qed.

(** What an accepted response satisfies. *)
Lemma accepted_response answer refs act resp :
  schemas.new_MCPResponse answer refs act = inr resp ->
  schemas.answer resp = strip answer
  /\ Spec.trimmed_nonempty (schemas.answer resp)
  /\ List.length (schemas.answer resp) <= 5000
  /\ schemas.references resp
     = map strip (filter (fun r => truthy (strip r)) refs)
  /\ List.length (schemas.references resp) <= 3
  /\ schemas.action_required resp = act
  /\ In act schemas.ActionRequired.
Proof.
  intros H. apply new_MCPResponse_accepts in H. destruct H as [Ha [Hr Hact]].
  unfold schemas.validate_answer, schemas.answer_must_not_be_blank in Ha.
  destruct (Nat.leb 1 (List.length answer) && Nat.leb (List.length answer) 5000)%bool
    eqn:Hlen; [|discriminate].
  destruct (truthy (strip answer)) eqn:Hnb; simpl in Ha; [|discriminate].
  injection Ha as Ha.
  apply andb_true_iff in Hlen. destruct Hlen as [_ Hlen].
  apply Nat.leb_le in Hlen.
  unfold schemas.validate_references, schemas.references_nonempty_strings in Hr.
  rewrite cleaned_references in Hr.
  destruct (Nat.ltb 3 _) eqn:H3; [discriminate|]. injection Hr as Hr.
  apply Nat.ltb_ge in H3.
  unfold schemas.validate_action_required in Hact.
  destruct (str_in act schemas.ActionRequired) eqn:Hin; [|discriminate].
  injection Hact as Hact.
  split; [symmetry; exact Ha|]. split.
  { rewrite <- Ha. apply strip_trimmed. apply truthy_true_ne. exact Hnb. }
  split.
  { rewrite <- Ha. etransitivity; [apply strip_length | exact Hlen]. }
  split; [symmetry; exact Hr|]. split; [rewrite <- Hr; exact H3|].
  split; [symmetry; exact Hact|]. apply str_in_In. exact Hin.
Qed.

(** X9: an accepted response holds the trimmed answer, which is not
    blank and has at most 5000 characters, at most 3 references, each
    trimmed and not blank, and an action of the enum; and validating its
    own fields again accepts it unchanged. *)
Theorem X9_accepted_response_is_stable answer refs act resp :
  schemas.new_MCPResponse answer refs act = inr resp ->
  Spec.trimmed_nonempty (schemas.answer resp)
  /\ List.length (schemas.answer resp) <= 5000
  /\ Forall Spec.trimmed_nonempty (schemas.references resp)
  /\ List.length (schemas.references resp) <= 3
  /\ In (schemas.action_required resp) schemas.ActionRequired
  /\ schemas.new_MCPResponse (schemas.answer resp) (schemas.references resp)
       (schemas.action_required resp)
     = inr resp.
Proof.
  intros H. apply accepted_response in H.
  destruct H as [_ [Ha [Hlen [Hr [Hr3 [Hact Hin]]]]]].
  assert (Hrefs : Forall Spec.trimmed_nonempty (schemas.references resp)).
  { rewrite Hr. apply cleaned_all_trimmed. }
  split; [exact Ha|]. split; [exact Hlen|]. split; [exact Hrefs|].
  split; [exact Hr3|]. split; [rewrite Hact; exact Hin|].
  unfold schemas.new_MCPResponse.
  rewrite (validate_answer_trimmed _ Ha Hlen).
  rewrite (validate_references_trimmed _ Hrefs Hr3).
  unfold schemas.validate_action_required. rewrite Hact.
  apply str_in_In in Hin. rewrite Hin. rewrite <- Hact.
  destruct resp; reflexivity.
Qed.

(** ** The outcomes of [generate_answer] *)

Lemma format_reference_nonblank (doc : Document) :
  truthy (strip (references.format_reference doc)) = true.
Proof.
  apply truthy_true_ne. apply (strip_nonblank _ 58%N); [|reflexivity].
  unfold references.format_reference.
  destruct (subsection (metadata doc)) as [[|c sub]|]; simpl;
    rewrite !in_app_iff; left; right; left; reflexivity.
Qed.

Lemma select_top_references_3 (docs : list Document) :
  references.select_top_references docs 3
  = map references.format_reference (firstn 3 docs).
Proof. reflexivity. Qed.

Lemma validate_references_selected (docs : list Document) :
  schemas.validate_references (references.select_top_references docs 3)
  = Some (map strip (references.select_top_references docs 3)).
Proof.
  unfold schemas.validate_references, schemas.references_nonempty_strings.
  rewrite cleaned_references.
  assert (Hf : filter (fun r => truthy (strip r))
                 (references.select_top_references docs 3)
               = references.select_top_references docs 3).
  { apply filter_all_true. rewrite select_top_references_3.
    apply Forall_map, Forall_forall. intros d _.
    apply format_reference_nonblank. }
  rewrite Hf, length_map.
  rewrite select_top_references_3. rewrite length_map.
  pose proof (firstn_le_length 3 docs) as Hlen.
  destruct (Nat.ltb 3 (List.length (firstn 3 docs))) eqn:E; [|reflexivity].
  apply Nat.ltb_lt in E. lia.
Qed.

Section GenerateOutcomes.
Context {S : Services}.

(** The prompt sent for a ticket and its documents. *)
Let prompt_of (ticket : pystr) (docs : list Document) : pystr :=
  generation.MCP_GENERATION_PROMPT (strip ticket)
    (generation.str_or
       (join [10%N; 10%N] (map (fun doc => strip (page_content doc)) docs))
       (u "No relevant documentation found.")).

(** The answer text read from the collaborator's reply, if any. *)
Let parsed_of (ticket : pystr) (docs : list Document)
    (llm : pystr -> option pystr) : option pystr :=
  match llm (prompt_of ticket docs) with
  | Some r => json_answer r
  | None => None
  end.

Lemma normalized_action_in_enum (d : action_classifier.Decision) answer
    threshold log log' :
  action_classifier.infer_action answer threshold log = (inr d, log') ->
  In (generation.normalize_action (action_classifier.action d))
    schemas.ActionRequired.
Proof.
  intros H. destruct (infer_action_run answer threshold log)
    as [d' [Hrun Hlab]].
  rewrite Hrun in H. injection H as Hd _. subst d'.
  destruct Hlab as [Hno | [p [Hin [Hact _]]]].
  - rewrite Hno. vm_compute. auto.
  - pose proof prototype_labels_in_enum as Hall.
    rewrite forallb_forall in Hall. specialize (Hall _ Hin).
    rewrite <- Hact in Hall. unfold generation.normalize_action.
    destruct (str_in _ [u "none"; u "no_action"]).
    + vm_compute. auto.
    + apply str_in_In. exact Hall.
Qed.

Lemma generate_answer_run ticket docs llm log :
  truthy (strip ticket) = true ->
  generation.generate_answer ticket docs llm log
  = match parsed_of ticket docs llm with
    | None =>
        (inl (ValueError (u "LLM did not return valid JSON with `answer`")),
         log ++ [LLMCall (prompt_of ticket docs)])
    | Some a =>
        match action_classifier.infer_action (strip a) 0.5
                (log ++ [LLMCall (prompt_of ticket docs)])
        with
        | (inl e, l) => (inl e, l)
        | (inr d, l) =>
            match schemas.new_MCPResponse (strip a)
                    (references.select_top_references docs 3)
                    (generation.normalize_action (action_classifier.action d))
            with
            | inl _ =>
                (inl (ValueError (u "MCP schema validation failed: ")), l)
            | inr v => (inr v, l)
            end
        end
    end.
Proof.
  intros Hnb. unfold generation.generate_answer.
  assert (Ht : truthy ticket = true).
  { destruct ticket; [discriminate | reflexivity]. }
  rewrite Ht, Hnb. change (negb true || negb true)%bool with false.
  cbv iota. unfold bind, tell. unfold parsed_of, prompt_of.
  destruct (match llm _ with Some r => json_answer r | None => None end)
    as [a|]; [|reflexivity].
  destruct (action_classifier.infer_action _ _ _) as [[e|d] l]; [reflexivity|].
  destruct (schemas.new_MCPResponse _ _ _); reflexivity.
Qed.

(** The response [generate_answer] constructs for a parsed answer. *)
Lemma generated_response_validation a docs act :
  In act schemas.ActionRequired ->
  schemas.new_MCPResponse (strip a) (references.select_top_references docs 3)
    act
  = if (truthy (strip a) && Nat.leb (List.length (strip a)) 5000)%bool
    then inr (schemas.mkMCPResponse (strip a)
                (map strip (references.select_top_references docs 3)) act)
    else inl (ValidationError ["answer"%string]).
Proof.
  intros Hact. unfold schemas.new_MCPResponse.
  rewrite validate_references_selected.
  unfold schemas.validate_action_required.
  apply str_in_In in Hact. rewrite Hact.
  unfold schemas.validate_answer, schemas.answer_must_not_be_blank.
  rewrite strip_idem. generalize (strip a). intros s.
  assert (H1 : Nat.leb 1 (List.length s) = truthy s)
    by (destruct s; reflexivity).
  rewrite H1.
  destruct (truthy s) eqn:Ht; simpl andb; simpl negb; cbv iota;
    [|reflexivity].
  destruct (Nat.leb (List.length s) 5000); reflexivity.
Qed.

End GenerateOutcomes.

(** X10: for a non-blank ticket whose collaborator reply yields an answer
    that is not blank and has at most 5000 characters after trimming,
    [generate_answer] returns: the response holds the trimmed answer, the
    trimmed references of the first [min(3, len(documents))] documents and
    an action of the enum, after exactly one generation call and one
    embedding call.  The reference and action validations never fail
    here. *)
Theorem X10_generate_answer_returns (S : Services) ticket docs llm log a :
  let prompt :=
    generation.MCP_GENERATION_PROMPT (strip ticket)
      (generation.str_or
         (join [10%N; 10%N] (map (fun doc => strip (page_content doc)) docs))
         (u "No relevant documentation found.")) in
  truthy (strip ticket) = true ->
  match llm prompt with Some r => json_answer r | None => None end = Some a ->
  strip a <> [] ->
  List.length (strip a) <= 5000 ->
  exists act,
    generation.generate_answer ticket docs llm log
    = (inr (schemas.mkMCPResponse (strip a)
              (map strip (references.select_top_references docs 3)) act),
       log ++ [LLMCall prompt; EncodeCall (strip a)])
    /\ In act schemas.ActionRequired
    /\ List.length (map strip (references.select_top_references docs 3))
       = Nat.min 3 (List.length docs).
Proof.
  intros prompt Hnb Hparsed Hne Hlen. unfold prompt in *. clear prompt.
  rewrite (generate_answer_run ticket docs llm log Hnb), Hparsed.
  destruct (infer_action_run (strip a) 0.5
              (log ++ [LLMCall
                         (generation.MCP_GENERATION_PROMPT (strip ticket)
                            (generation.str_or
                               (join [10%N; 10%N]
                                  (map (fun doc => strip (page_content doc))
                                     docs))
                               (u "No relevant documentation found.")))]))
    as [d [Hrun _]].
  pose proof (normalized_action_in_enum _ _ _ _ _ Hrun) as Hact.
  rewrite Hrun. rewrite strip_idem.
  rewrite (generated_response_validation a docs _ Hact).
  apply truthy_true_ne in Hne. rewrite Hne.
  apply Nat.leb_le in Hlen. rewrite Hlen. simpl andb. cbv iota.
  eexists. split; [|split; [exact Hact|]].
  - rewrite <- app_assoc. reflexivity.
  - rewrite length_map. rewrite select_top_references_3.
    rewrite length_map. apply length_firstn.
Qed.

(** With collaborators that return, the three ways in which
    [generate_answer] raises for a non-blank ticket. *)
Lemma generate_answer_raises (S : Services) ticket docs llm log :
  let prompt :=
    generation.MCP_GENERATION_PROMPT (strip ticket)
      (generation.str_or
         (join [10%N; 10%N] (map (fun doc => strip (page_content doc)) docs))
         (u "No relevant documentation found.")) in
  let parsed :=
    match llm prompt with Some r => json_answer r | None => None end in
  truthy (strip ticket) = true ->
  (parsed = None ->
   generation.generate_answer ticket docs llm log
   = (inl (ValueError (u "LLM did not return valid JSON with `answer`")),
      log ++ [LLMCall prompt]))
  /\ (forall a,
         parsed = Some a -> strip a = [] ->
         generation.generate_answer ticket docs llm log
         = (inl (ValueError (u "MCP schema validation failed: ")),
            log ++ [LLMCall prompt]))
  /\ (forall a,
         parsed = Some a -> 5000 < List.length (strip a) ->
         generation.generate_answer ticket docs llm log
         = (inl (ValueError (u "MCP schema validation failed: ")),
            log ++ [LLMCall prompt; EncodeCall (strip a)]))
  /\ (forall e log',
         generation.generate_answer ticket docs llm log = (inl e, log') ->
         parsed = None
         \/ exists a,
              parsed = Some a
              /\ (strip a = [] \/ 5000 < List.length (strip a))).
Proof.
  intros prompt parsed Hnb. unfold parsed, prompt in *. clear parsed prompt.
  rewrite (generate_answer_run ticket docs llm log Hnb).
  set (prompt := generation.MCP_GENERATION_PROMPT (strip ticket) _).
  destruct (match llm prompt with Some r => json_answer r | None => None end)
    as [a|] eqn:Hparsed.
  - destruct (infer_action_run (strip a) 0.5 (log ++ [LLMCall prompt]))
      as [d [Hrun _]].
    pose proof (normalized_action_in_enum _ _ _ _ _ Hrun) as Hact.
    rewrite Hrun, strip_idem.
    rewrite (generated_response_validation a docs _ Hact).
    split; [discriminate|]. split; [|split].
    + intros a' Ha' Hblank. injection Ha' as <-. rewrite Hblank. reflexivity.
    + intros a' Ha' Hlong. injection Ha' as <-.
      assert (Hne : truthy (strip a) = true).
      { destruct (strip a); [simpl in Hlong; lia | reflexivity]. }
      rewrite Hne.
      assert (Hl : Nat.leb (List.length (strip a)) 5000 = false)
        by (apply Nat.leb_gt; exact Hlong).
      rewrite Hl. simpl andb. cbv iota. rewrite <- app_assoc. reflexivity.
    + intros e log' Hfail. right. exists a. split; [reflexivity|].
      destruct (truthy (strip a)) eqn:Hne.
      * destruct (Nat.leb (List.length (strip a)) 5000) eqn:Hl;
          [simpl in Hfail; discriminate|].
        right. apply Nat.leb_gt. exact Hl.
      * left. apply truthy_false_nil. exact Hne.
  - split; [intros _; reflexivity|].
    split; [intros a Ha; discriminate|].
    split; [intros a Ha; discriminate|].
    intros e log' _. left. reflexivity.
Qed.

(** ** The orchestrator *)

Lemma count_app kind (l1 l2 : list call) :
  CallLog.count kind (l1 ++ l2) = CallLog.count kind l1 + CallLog.count kind l2.
Proof. unfold CallLog.count. rewrite filter_app, length_app. reflexivity. Qed.

Section OrchestratorFacts.
Context {S : Services}.

Lemma retrieve_documents_total q k1 k2 log :
  truthy (strip q) = true ->
  exists docs e calls,
    retriever.retrieve_documents q k1 k2 log
    = (inr (docs, e), log ++ SearchCall (strip q) k1 :: calls)
    /\ CallLog.count CallLog.is_search calls = 0
    /\ CallLog.count CallLog.is_rerank calls <= 1
    /\ CallLog.count CallLog.is_llm calls = 0
    /\ CallLog.count CallLog.is_encode calls = 0.
Proof.
  intros Hq. rewrite (retrieve_documents_run q k1 k2 log Hq).
  rewrite rerank_documents_run.
  destruct (retriever_invoke (strip q) k1) as [|d0 docs0].
  - exists [], (retriever.evaluate_retrieval [] []), []. simpl.
    repeat split; auto.
  - eexists _, _, [RerankCall _]. split.
    + simpl fst. simpl snd. rewrite <- app_assoc. reflexivity.
    + repeat split; auto.
Qed.

Lemma retrieve_loop_total queries :
  Forall (fun q => truthy (strip q) = true) queries ->
  forall docs best log,
  exists r calls,
    rag_pipeline.retrieve_loop queries docs best log = (inr r, log ++ calls)
    /\ CallLog.count CallLog.is_search calls = List.length queries
    /\ CallLog.count CallLog.is_rerank calls <= List.length queries
    /\ CallLog.count CallLog.is_llm calls = 0
    /\ CallLog.count CallLog.is_encode calls = 0.
Proof.
  induction 1 as [|q rest Hq _ IH]; intros docs best log.
  - exists (docs, best), []. simpl. rewrite app_nil_r. repeat split; auto.
  - destruct (retrieve_documents_total q retriever.INITIAL_K retriever.FINAL_K
                log Hq)
      as [d [e [calls [Hrun [Hs [Hr [Hl He]]]]]]].
    destruct (IH (docs ++ d) (rag_pipeline.update_best best e)
                (log ++ SearchCall (strip q) retriever.INITIAL_K :: calls))
      as [r [calls' [Hloop [Hs' [Hr' [Hl' He']]]]]].
    exists r, ((SearchCall (strip q) retriever.INITIAL_K :: calls) ++ calls').
    split.
    + simpl. unfold bind. rewrite Hrun. simpl fst. simpl snd.
      rewrite Hloop, <- app_assoc. reflexivity.
    + rewrite !count_app.
      change (SearchCall (strip q) retriever.INITIAL_K :: calls)
        with ([SearchCall (strip q) retriever.INITIAL_K] ++ calls).
      rewrite !count_app. simpl List.length.
      change (CallLog.count CallLog.is_search
                [SearchCall (strip q) retriever.INITIAL_K]) with 1.
      change (CallLog.count CallLog.is_rerank
                [SearchCall (strip q) retriever.INITIAL_K]) with 0.
      change (CallLog.count CallLog.is_llm
                [SearchCall (strip q) retriever.INITIAL_K]) with 0.
      change (CallLog.count CallLog.is_encode
                [SearchCall (strip q) retriever.INITIAL_K]) with 0.
      repeat split; lia.
Qed.

(** The queries the orchestrator retrieves for. *)
Lemma orchestrator_queries ticket llm log out log' :
  query_rewriter.rewrite_ticket ticket llm log = (inr out, log') ->
  let queries := match out with [] => [ticket] | _ :: _ => out end in
  queries <> []
  /\ List.length queries <= 5
  /\ Forall (fun q => truthy (strip q) = true) queries
  /\ log' = log ++ [LLMCall (query_rewriter.QUERY_REWRITE_PROMPT
                              (strip ticket))].
Proof.
  intros H queries.
  pose proof (rewrite_ticket_inr _ _ _ _ _ H) as Hnb.
  pose proof (rewrite_ticket_run ticket llm log Hnb) as Hrun.
  cbv zeta in Hrun.
  assert (Hout : out
                 = firstn 5
                     (Spec.first_seen
                        (query_rewriter.clean_lines
                           (splitlines
                              (get_default
                                 (llm (query_rewriter.QUERY_REWRITE_PROMPT
                                         (strip ticket))) [])))))
    by congruence.
  assert (Hlog : log' = log ++ [LLMCall (query_rewriter.QUERY_REWRITE_PROMPT
                                           (strip ticket))])
    by congruence.
  assert (Hlen : List.length out <= 5)
    by (rewrite Hout; apply firstn_le_length).
  assert (Hall : Forall (fun q => truthy (strip q) = true) out).
  { rewrite Hout. apply Forall_forall. intros q Hq.
    apply In_firstn, first_seen_In, clean_lines_In in Hq.
    destruct Hq as [line [_ Hc]]. apply clean_line_trimmed in Hc.
    rewrite (strip_of_trimmed q Hc). apply truthy_true_ne. apply Hc. }
  unfold queries. destruct out as [|q0 out0].
  - split; [discriminate|]. split; [simpl; lia|].
    split; [constructor; [exact Hnb | constructor] | exact Hlog].
  - split; [discriminate|]. auto.
Qed.

Lemma generate_answer_nonblank ticket docs llm log resp log' :
  generation.generate_answer ticket docs llm log = (inr resp, log') ->
  truthy (strip ticket) = true.
Proof.
  unfold generation.generate_answer.
  destruct (truthy ticket); simpl; [|discriminate].
  destruct (truthy (strip ticket)); simpl; [reflexivity | discriminate].
Qed.

(** What a run of [generate_answer] that returns has logged and built. *)
Lemma generate_answer_success ticket docs llm log resp log' :
  generation.generate_answer ticket docs llm log = (inr resp, log') ->
  exists prompt a,
    log' = log ++ [LLMCall prompt; EncodeCall a]
    /\ schemas.answer resp = a
    /\ Spec.trimmed_nonempty a
    /\ List.length a <= 5000
    /\ schemas.references resp
       = map strip (references.select_top_references docs 3)
    /\ In (schemas.action_required resp) schemas.ActionRequired.
Proof.
  intros H. pose proof (generate_answer_nonblank _ _ _ _ _ _ H) as Hnb.
  rewrite (generate_answer_run ticket docs llm log Hnb) in H.
  set (prompt := generation.MCP_GENERATION_PROMPT (strip ticket) _) in H.
  destruct (match llm prompt with Some r => json_answer r | None => None end)
    as [a|]; [|discriminate].
  destruct (infer_action_run (strip a) 0.5 (log ++ [LLMCall prompt]))
    as [d [Hrun _]].
  pose proof (normalized_action_in_enum _ _ _ _ _ Hrun) as Hact.
  rewrite Hrun, strip_idem in H.
  rewrite (generated_response_validation a docs _ Hact) in H.
  destruct (truthy (strip a)) eqn:Hne; [|discriminate].
  destruct (Nat.leb (List.length (strip a)) 5000) eqn:Hl; [|discriminate].
  simpl in H. injection H as Hresp Hlog. subst resp log'. simpl.
  exists prompt, (strip a). rewrite <- app_assoc.
  split; [reflexivity|]. split; [reflexivity|]. split.
  { apply strip_trimmed. apply truthy_true_ne. exact Hne. }
  split; [apply Nat.leb_le; exact Hl|]. auto.
Qed.

End OrchestratorFacts.

(** With collaborators that return, the stages of [resolve_ticket] for
    a non-blank ticket: between one and five non-blank queries, a query
    loop that returns, and the outcome of [generate_answer]. *)
Lemma resolve_ticket_stages (S : Services) ticket
    llm log :
  truthy (strip ticket) = true ->
  exists queries all_docs best log2,
    queries <> []
    /\ List.length queries <= 5
    /\ Forall (fun q => truthy (strip q) = true) queries
    /\ rag_pipeline.retrieve_loop queries [] rag_pipeline.initial_eval
         (log ++ [LLMCall (query_rewriter.QUERY_REWRITE_PROMPT
                             (strip ticket))])
       = (inr (all_docs, best), log2)
    /\ rag_pipeline.resolve_ticket ticket llm log
       = match generation.generate_answer ticket
                 (rag_pipeline.rank_documents all_docs) llm log2
         with
         | (inl e, l) => (inl e, l)
         | (inr g, l) =>
             (inr (rag_pipeline.mkResult (schemas.answer g)
                     (schemas.references g)
                     (rag_pipeline.override_action best
                        (schemas.action_required g))
                     queries (rag_pipeline.rank_documents all_docs) best),
              l)
         end.
Proof.
  intros Hnb.
  pose proof (rewrite_ticket_run ticket llm log Hnb) as Hrw. cbv zeta in Hrw.
  set (out := firstn 5 _) in Hrw.
  pose proof (orchestrator_queries _ _ _ _ _ Hrw) as Hq. cbv zeta in Hq.
  set (queries := match out with [] => [ticket] | _ :: _ => out end) in *.
  destruct Hq as [Hne [Hlen [Hall _]]].
  destruct (retrieve_loop_total queries Hall [] rag_pipeline.initial_eval
              (log ++ [LLMCall (query_rewriter.QUERY_REWRITE_PROMPT
                                  (strip ticket))]))
    as [[all_docs best] [calls [Hloop _]]].
  exists queries, all_docs, best,
    ((log ++ [LLMCall (query_rewriter.QUERY_REWRITE_PROMPT (strip ticket))])
       ++ calls).
  split; [exact Hne|]. split; [exact Hlen|]. split; [exact Hall|].
  split; [exact Hloop|].
  unfold rag_pipeline.resolve_ticket, bind. rewrite Hrw. fold queries.
  rewrite Hloop. simpl fst. simpl snd.
  destruct (generation.generate_answer _ _ _ _) as [[e|g] l]; reflexivity.
Qed.

(** X13: every result [resolve_ticket] returns satisfies the response
    contract and is consistent with its diagnostics: the answer is
    trimmed, not blank and at most 5000 characters long; the references
    are the trimmed formatted references of the first three reranked
    documents; the action is one of the seven enum values; there are at
    most 4 reranked documents, with pairwise different contents; and
    there are between 1 and 5 rewritten queries, none blank. *)
Theorem X13_resolve_ticket_result (S : Services) ticket llm log res log' :
  rag_pipeline.resolve_ticket ticket llm log = (inr res, log') ->
  Spec.trimmed_nonempty (rag_pipeline.answer res)
  /\ List.length (rag_pipeline.answer res) <= 5000
  /\ rag_pipeline.references res
     = map strip
         (references.select_top_references (rag_pipeline._reranked_docs res) 3)
  /\ List.length (rag_pipeline.references res) <= 3
  /\ In (rag_pipeline.action_required res) schemas.ActionRequired
  /\ List.length (rag_pipeline._reranked_docs res) <= 4
  /\ NoDup (map page_content (rag_pipeline._reranked_docs res))
  /\ 1 <= List.length (rag_pipeline._rewritten_queries res) <= 5
  /\ Forall (fun q => truthy (strip q) = true)
       (rag_pipeline._rewritten_queries res).
Proof.
  intros H. unfold rag_pipeline.resolve_ticket in H. run_inv H.
  subst res log'. simpl.
  apply orchestrator_queries in Hrun. cbv zeta in Hrun.
  destruct Hrun as [Hne [Hlen [Hall _]]].
  apply generate_answer_success in Hrun1.
  destruct Hrun1 as [prompt [ans [_ [Ha [Htrim [Hl [Hrefs Hact]]]]]]].
  rewrite Ha. split; [exact Htrim|]. split; [exact Hl|].
  split; [exact Hrefs|]. split.
  { rewrite Hrefs, length_map. rewrite select_top_references_3.
    rewrite length_map. apply firstn_le_length. }
  split.
  { unfold rag_pipeline.override_action.
    destruct (get_is (snd a0) "quality" (u "poor")); [|exact Hact].
    destruct (str_eqb (schemas.action_required a1) (u "none"));
      [|exact Hact].
    right. right. left. reflexivity. }
  split; [apply firstn_le_length|]. split.
  { unfold rag_pipeline.rank_documents. rewrite <- firstn_map.
    apply NoDup_firstn_of.
    apply (Permutation_NoDup
             (l := map page_content
                     (map snd (rag_pipeline.dedup_docs (fst a0))))).
    - apply Permutation_map. symmetry. apply sorted_desc_perm.
    - rewrite dedup_docs_contents. apply (dedup_docs_spec (fst a0)). }
  split; [|exact Hall]. split; [|exact Hlen].
  destruct (match a with [] => [ticket] | _ :: _ => a end);
    [congruence | simpl; lia].
Qed.

(** X14: a resolution that returns has made exactly two generation
    calls (one to rewrite, one to answer), one search per rewritten
    query, at most one reranker call per query, and exactly one
    embedding call. *)
Theorem X14_resolve_ticket_calls (S : Services) ticket llm log res log' :
  rag_pipeline.resolve_ticket ticket llm log = (inr res, log') ->
  exists calls,
    log' = log ++ calls
    /\ CallLog.count CallLog.is_llm calls = 2
    /\ CallLog.count CallLog.is_search calls
       = List.length (rag_pipeline._rewritten_queries res)
    /\ CallLog.count CallLog.is_rerank calls
       <= List.length (rag_pipeline._rewritten_queries res)
    /\ CallLog.count CallLog.is_encode calls = 1.
Proof.
  intros H. unfold rag_pipeline.resolve_ticket in H. run_inv H.
  subst res log'. simpl.
  apply orchestrator_queries in Hrun. cbv zeta in Hrun.
  destruct Hrun as [_ [_ [Hall ->]]].
  set (queries := match a with [] => [ticket] | _ :: _ => a end) in *.
  destruct (retrieve_loop_total queries Hall [] rag_pipeline.initial_eval
              (log ++ [LLMCall (query_rewriter.QUERY_REWRITE_PROMPT
                                  (strip ticket))]))
    as [r [calls [Hloop [Hs [Hr [Hl He]]]]]].
  rewrite Hloop in Hrun0. injection Hrun0 as _ Hlog1. subst log1.
  apply generate_answer_success in Hrun1.
  destruct Hrun1 as [prompt [ans [-> _]]].
  exists ([LLMCall (query_rewriter.QUERY_REWRITE_PROMPT (strip ticket))]
            ++ calls ++ [LLMCall prompt; EncodeCall ans]).
  split; [rewrite <- !app_assoc; reflexivity|].
  rewrite !count_app.
  change (CallLog.count CallLog.is_llm [LLMCall prompt; EncodeCall ans])
    with 1.
  change (CallLog.count CallLog.is_search [LLMCall prompt; EncodeCall ans])
    with 0.
  change (CallLog.count CallLog.is_rerank [LLMCall prompt; EncodeCall ans])
    with 0.
  change (CallLog.count CallLog.is_encode [LLMCall prompt; EncodeCall ans])
    with 1.
  change (CallLog.count CallLog.is_llm
            [LLMCall (query_rewriter.QUERY_REWRITE_PROMPT (strip ticket))])
    with 1.
  change (CallLog.count CallLog.is_search
            [LLMCall (query_rewriter.QUERY_REWRITE_PROMPT (strip ticket))])
    with 0.
  change (CallLog.count CallLog.is_rerank
            [LLMCall (query_rewriter.QUERY_REWRITE_PROMPT (strip ticket))])
    with 0.
  change (CallLog.count CallLog.is_encode
            [LLMCall (query_rewriter.QUERY_REWRITE_PROMPT (strip ticket))])
    with 0.
  repeat split; lia.
Qed.

(** ** The HTTP endpoint *)

Section EndpointFacts.
Context {S : Services}.

(** The public fields of a returned result pass the response schema
    unchanged. *)
Lemma resolve_ticket_response_valid ticket llm log res log' :
  rag_pipeline.resolve_ticket ticket llm log = (inr res, log') ->
  schemas.new_MCPResponse (rag_pipeline.answer res)
    (rag_pipeline.references res) (rag_pipeline.action_required res)
  = inr (schemas.mkMCPResponse (rag_pipeline.answer res)
           (rag_pipeline.references res) (rag_pipeline.action_required res)).
Proof.
  intros H. unfold rag_pipeline.resolve_ticket in H. run_inv H.
  subst res log'. simpl.
  apply generate_answer_success in Hrun1.
  destruct Hrun1 as [prompt [ans [_ [Ha [Htrim [Hl [Hrefs Hact]]]]]]].
  assert (Hr : Forall Spec.trimmed_nonempty (schemas.references a1)).
  { rewrite Hrefs. apply Forall_map, Forall_forall. intros r Hr.
    apply strip_trimmed. apply truthy_true_ne.
    rewrite select_top_references_3 in Hr.
    apply in_map_iff in Hr. destruct Hr as [d [<- _]].
    apply format_reference_nonblank. }
  assert (Hr3 : List.length (schemas.references a1) <= 3).
  { rewrite Hrefs, length_map. rewrite select_top_references_3.
    rewrite length_map. apply firstn_le_length. }
  assert (Hover : str_in (rag_pipeline.override_action (snd a0)
                            (schemas.action_required a1))
                    schemas.ActionRequired = true).
  { unfold rag_pipeline.override_action.
    destruct (get_is (snd a0) "quality" (u "poor"));
      [|apply str_in_In; exact Hact].
    destruct (str_eqb (schemas.action_required a1) (u "none"));
      [reflexivity | apply str_in_In; exact Hact]. }
  unfold schemas.new_MCPResponse.
  rewrite Ha, (validate_answer_trimmed _ Htrim Hl).
  rewrite (validate_references_trimmed _ Hr Hr3).
  unfold schemas.validate_action_required. rewrite Hover. reflexivity.
Qed.

End EndpointFacts.

(** X15: an accepted request has a text of between 5 and 5000
    characters, whitespace included.  For an accepted request the
    endpoint answers 500 exactly when the pipeline raises, which it does
    without calling any service for a text of only whitespace; otherwise
    it returns the three public fields of the result, and these pass the
    response schema unchanged. *)
Theorem X15_resolve_ticket_endpoint (S : Services) ticket request llm log :
  schemas.new_TicketRequest ticket = inr request ->
  5 <= List.length ticket <= 5000
  /\ schemas.ticket_text request = ticket
  /\ (truthy (strip ticket) = false ->
      main.resolve_ticket_endpoint request llm log
      = (main.HTTPException 500 (u "Failed to resolve support ticket"), log))
  /\ (forall status detail log',
         main.resolve_ticket_endpoint request llm log
         = (main.HTTPException status detail, log') ->
         status = 500
         /\ exists e, rag_pipeline.resolve_ticket ticket llm log = (inl e, log'))
  /\ (forall a r act log',
         main.resolve_ticket_endpoint request llm log
         = (main.Returned a r act, log') ->
         (exists res,
             rag_pipeline.resolve_ticket ticket llm log = (inr res, log')
             /\ a = rag_pipeline.answer res
             /\ r = rag_pipeline.references res
             /\ act = rag_pipeline.action_required res)
         /\ schemas.new_TicketResponse a r act
            = inr (schemas.mkMCPResponse a r act)).
Proof.
  unfold schemas.new_TicketRequest. intros H.
  destruct (Nat.leb 5 (List.length ticket)
            && Nat.leb (List.length ticket) 5000)%bool eqn:Hlen;
    [|discriminate].
  injection H as <-. simpl schemas.ticket_text.
  apply andb_true_iff in Hlen. destruct Hlen as [H5 H5000].
  apply Nat.leb_le in H5, H5000.
  split; [lia|]. split; [reflexivity|].
  unfold main.resolve_ticket_endpoint. simpl schemas.ticket_text.
  split; [|split].
  - intros Hb.
    assert (Hor : (negb (truthy ticket) || negb (truthy (strip ticket)))%bool
                  = true) by (rewrite Hb, orb_true_r; reflexivity).
    unfold rag_pipeline.resolve_ticket, bind, query_rewriter.rewrite_ticket.
    rewrite Hor. reflexivity.
  - intros status detail log' H.
    destruct (rag_pipeline.resolve_ticket ticket llm log) as [[e|res] l];
      [|discriminate].
    injection H as <- _ <-. split; [reflexivity|]. exists e. reflexivity.
  - intros a r act log' H.
    destruct (rag_pipeline.resolve_ticket ticket llm log) as [[e|res] l]
      eqn:Hres; [discriminate|].
    injection H as <- <- <- <-. split.
    + exists res. auto.
    + unfold schemas.new_TicketResponse.
      exact (resolve_ticket_response_valid _ _ _ _ _ Hres).
Qed.

(** ** The categories of an assessment *)

Lemma str_ltb_irrefl (s : pystr) : str_ltb s s = false.
Proof.
  induction s as [|c s IH]; simpl; [reflexivity|].
  rewrite N.ltb_irrefl. exact IH.
Qed.

Lemma str_ltb_trans (a b c : pystr) :
  str_ltb a b = true -> str_ltb b c = true -> str_ltb a c = true.
Proof.
  revert b c. induction a as [|x a IH]; intros [|y b] [|z c]; simpl;
    try discriminate; try reflexivity.
  destruct (N.ltb_spec x y), (N.ltb_spec y x), (N.ltb_spec y z),
    (N.ltb_spec z y), (N.ltb_spec x z), (N.ltb_spec z x);
    try discriminate; try reflexivity; try lia.
  apply IH.
Qed.

Lemma str_ltb_total (a b : pystr) :
  str_ltb a b = false -> str_eqb a b = false -> str_ltb b a = true.
Proof.
  revert b. induction a as [|x a IH]; intros [|y b]; simpl;
    try discriminate; try reflexivity.
  unfold char_eqb.
  destruct (N.ltb_spec x y), (N.ltb_spec y x), (N.eqb_spec x y);
    try discriminate; try reflexivity; try lia.
  simpl. apply IH.
Qed.

Lemma insert_str_In (s x : pystr) (l : list pystr) :
  In x (insert_str s l) <-> x = s \/ In x l.
Proof.
  induction l as [|t l IH]; simpl; [intuition auto|].
  destruct (str_ltb s t); [simpl; intuition auto|].
  destruct (str_eqb s t) eqn:E; simpl.
  - apply str_eqb_eq in E. subst t. intuition auto.
  - rewrite IH. intuition auto.
Qed.

Lemma insert_str_sorted (s : pystr) (l : list pystr) :
  StronglySorted (fun a b => str_ltb a b = true) l ->
  StronglySorted (fun a b => str_ltb a b = true) (insert_str s l).
Proof.
  induction 1 as [|t l Hs IH Ht]; simpl; [repeat constructor|].
  destruct (str_ltb s t) eqn:Hst.
  - constructor; [constructor; assumption|].
    constructor; [exact Hst|].
    eapply Forall_impl; [|exact Ht]. intros z Hz.
    exact (str_ltb_trans _ _ _ Hst Hz).
  - destruct (str_eqb s t) eqn:E; [constructor; assumption|].
    constructor; [exact IH|].
    apply Forall_forall. intros z Hz. apply insert_str_In in Hz.
    destruct Hz as [-> | Hz].
    + exact (str_ltb_total _ _ Hst E).
    + rewrite Forall_forall in Ht. exact (Ht z Hz).
Qed.

Lemma sorted_set_spec (l : list pystr) :
  StronglySorted (fun a b => str_ltb a b = true) (sorted_set l)
  /\ forall x, In x (sorted_set l) <-> In x l.
Proof.
  induction l as [|s l [IHs IHi]]; simpl; [split; [constructor | tauto]|].
  split; [apply insert_str_sorted; exact IHs|].
  intros x. rewrite insert_str_In, IHi. intuition auto.
Qed.

(** X16: for a non-empty score list the assessment counts the documents
    it was given in [num_results], and [categories_covered] lists, in
    strictly ascending order and so without repetition, exactly the
    categories of those documents, ["unknown"] standing for a missing
    category. *)
Theorem X16_assessment_categories (top : float) (rest : list float)
    (docs : list Document) :
  dict_get (retriever.evaluate_retrieval (top :: rest) docs) "num_results"
  = Some (VInt (Z.of_nat (List.length docs)))
  /\ exists cats,
       dict_get (retriever.evaluate_retrieval (top :: rest) docs)
         "categories_covered"
       = Some (VStrList cats)
       /\ StronglySorted (fun a b => str_ltb a b = true) cats
       /\ NoDup cats
       /\ forall c,
            In c cats
            <-> exists d,
                  In d docs
                  /\ c = get_default (category (metadata d)) (u "unknown").
Proof.
  split; [reflexivity|].
  set (cats := map (fun d => get_default (category (metadata d)) (u "unknown"))
                 docs).
  exists (sorted_set cats). split; [reflexivity|].
  destruct (sorted_set_spec cats) as [Hs Hi]. split; [exact Hs|]. split.
  - clear Hi. induction Hs as [|c l Hs IH Hc]; constructor; [|exact IH].
    intros Hin. rewrite Forall_forall in Hc. specialize (Hc c Hin).
    rewrite str_ltb_irrefl in Hc. discriminate.
  - intros c. rewrite Hi. unfold cats. rewrite in_map_iff. split.
    + intros [d [<- Hd]]. exists d. auto.
    + intros [d [Hd ->]]. exists d. auto.
Qed.

(** ** Where the rewritten queries come from *)

Lemma substring_refl (s : pystr) : Spec.substring s s.
Proof. exists [], []. rewrite app_nil_r. reflexivity. Qed.

Lemma substring_trans (a b c : pystr) :
  Spec.substring a b -> Spec.substring b c -> Spec.substring a c.
Proof.
  intros [f1 [b1 ->]] [f2 [b2 ->]]. exists (f2 ++ f1), (b1 ++ b2).
  rewrite <- !app_assoc. reflexivity.
Qed.

Lemma substring_suffix (front s : pystr) : Spec.substring s (front ++ s).
Proof. exists front, []. rewrite app_nil_r. reflexivity. Qed.

Lemma substring_prefix (s back : pystr) : Spec.substring s (s ++ back).
Proof. exists [], back. reflexivity. Qed.

Lemma dropwhile_substring p (s : pystr) : Spec.substring (dropwhile p s) s.
Proof.
  destruct (dropwhile_suffix p s) as [front H]. rewrite H at 2.
  apply substring_suffix.
Qed.

Lemma strip_substring (s : pystr) : Spec.substring (strip s) s.
Proof.
  apply (substring_trans _ (lstrip s)); [|apply dropwhile_substring].
  unfold strip. destruct (rstrip_prefix (lstrip s)) as [spaces H].
  rewrite H at 2. apply substring_prefix.
Qed.

Lemma substring_Forall (P : char -> Prop) (a b : pystr) :
  Spec.substring a b -> Forall P b -> Forall P a.
Proof.
  intros [front [back ->]] H.
  apply Forall_app in H. destruct H as [_ H].
  apply Forall_app in H. tauto.
Qed.

Lemma splitlines_from_no_break (n : nat) :
  forall s cur,
    List.length s <= n ->
    Forall (fun c => islinebreak c = false) cur ->
    Forall (Forall (fun c => islinebreak c = false)) (splitlines_from cur s).
Proof.
  induction n as [|n IH]; intros s cur Hlen Hcur.
  - destruct s; [|simpl in Hlen; lia]. simpl.
    destruct cur; constructor; [|constructor].
    apply Forall_rev. exact Hcur.
  - destruct s as [|c s']; simpl.
    + destruct cur; constructor; [|constructor].
      apply Forall_rev. exact Hcur.
    + simpl in Hlen. destruct (islinebreak c) eqn:Hc.
      * constructor; [apply Forall_rev; exact Hcur|].
        destruct s' as [|d s'']; [constructor|].
        destruct (N.eqb c 13 && N.eqb d 10)%bool;
          apply IH; try constructor; simpl in *; lia.
      * apply IH; [lia|]. constructor; assumption.
Qed.

Lemma splitlines_no_break (s : pystr) :
  Forall (Forall (fun c => islinebreak c = false)) (splitlines s).
Proof.
  apply (splitlines_from_no_break (List.length s)); [lia | constructor].
Qed.

Section QueryOrigin.
Context {S : Services}.

Lemma clean_line_substring (line q : pystr) :
  query_rewriter.clean_line line = Some q -> Spec.substring q line.
Proof.
  unfold query_rewriter.clean_line.
  destruct (negb (truthy (strip line))); [discriminate|].
  set (s := strip (lstrip_chars query_rewriter.bullet_chars (strip line))).
  destruct (truthy (query_rewriter.sub_numeric_prefix s)); [|discriminate].
  intros H. injection H as <-.
  apply (substring_trans _ s).
  - destruct (sub_numeric_prefix_cases s)
      as [-> | [digits [c [rest [Heq [_ [_ [_ ->]]]]]]]];
      [apply substring_refl|].
    apply (substring_trans _ rest); [apply dropwhile_substring|].
    rewrite Heq. change (c :: rest) with ([c] ++ rest).
    rewrite app_assoc. apply substring_suffix.
  - unfold s. apply (substring_trans _ _ _ (strip_substring _)).
    apply (substring_trans _ (strip line)); [|apply strip_substring].
    apply dropwhile_substring.
Qed.

End QueryOrigin.

(** X17: every query [rewrite_ticket] returns is a contiguous piece of
    one line of the collaborator's answer, so it holds no line-break
    character: nothing is added to or reordered within a line. *)
Theorem X17_queries_are_pieces_of_lines (S : Services) ticket llm log out
    log' :
  query_rewriter.rewrite_ticket ticket llm log = (inr out, log') ->
  Forall
    (fun q =>
       (exists line,
           In line
             (splitlines
                (get_default
                   (llm (query_rewriter.QUERY_REWRITE_PROMPT (strip ticket)))
                   []))
           /\ Spec.substring q line)
       /\ Forall (fun c => islinebreak c = false) q)
    out.
Proof.
  intros H. pose proof (rewrite_ticket_inr _ _ _ _ _ H) as Hnb.
  pose proof (rewrite_ticket_run ticket llm log Hnb) as Hrun.
  cbv zeta in Hrun.
  set (lines := splitlines _) in *.
  assert (Hout : out
                 = firstn 5
                     (Spec.first_seen (query_rewriter.clean_lines lines)))
    by congruence.
  subst out. clear H Hrun.
  apply Forall_forall. intros q Hq.
  apply In_firstn, first_seen_In, clean_lines_In in Hq.
  destruct Hq as [line [Hin Hc]]. apply clean_line_substring in Hc.
  split; [exists line; auto|].
  apply (substring_Forall _ _ _ Hc).
  pose proof (splitlines_no_break
                (get_default
                   (llm (query_rewriter.QUERY_REWRITE_PROMPT (strip ticket)))
                   [])) as Hall.
  rewrite Forall_forall in Hall. apply Hall. exact Hin.
Qed.

(** ** Scores of the ranked documents *)

Section ScoredDocs.
Context {S : Services}.

Lemma retrieve_loop_scored queries :
  forall docs best log r log',
    rag_pipeline.retrieve_loop queries docs best log = (inr r, log') ->
    Forall (fun d => relevance_score (metadata d) <> None) docs ->
    Forall (fun d => relevance_score (metadata d) <> None) (fst r).
Proof.
  induction queries as [|q rest IH]; intros docs best log r log' H Hdocs.
  - simpl in H. run_inv H. subst r. exact Hdocs.
  - simpl in H. run_inv H. destruct a as [d e].
    apply retrieve_documents_success in Hrun.
    destruct Hrun as [scores [_ [Hal _]]].
    apply (IH _ _ _ _ _ H). apply Forall_app. split; [exact Hdocs|].
    simpl. clear -Hal. revert scores Hal.
    induction d as [|x d IHd]; intros [|s scores] Hal; simpl in Hal;
      try discriminate; constructor.
    + injection Hal as Hx _. rewrite Hx. discriminate.
    + injection Hal as _ Hal. exact (IHd scores Hal).
Qed.

Lemma rank_documents_In (all_docs : list Document) d :
  In d (rag_pipeline.rank_documents all_docs) -> In d all_docs.
Proof.
  unfold rag_pipeline.rank_documents. intros H. apply In_firstn in H.
  apply (Permutation_in d (sorted_desc_perm rag_pipeline.rank_key _)) in H.
  apply dedup_docs_values, last_occurrence_In in H. exact H.
Qed.

End ScoredDocs.

(** X18: in a result of [resolve_ticket] every reranked document carries
    a relevance score, so the ranking never falls back on the
    negative-infinity default for a missing score. *)
Theorem X18_reranked_docs_are_scored (S : Services) ticket llm log res log' :
  rag_pipeline.resolve_ticket ticket llm log = (inr res, log') ->
  Forall
    (fun d =>
       exists s,
         relevance_score (metadata d) = Some s
         /\ rag_pipeline.rank_key d = s)
    (rag_pipeline._reranked_docs res).
Proof.
  intros H. unfold rag_pipeline.resolve_ticket in H. run_inv H.
  subst res log'. simpl.
  pose proof (retrieve_loop_scored _ _ _ _ _ _ Hrun0 (Forall_nil _)) as Hsc.
  apply Forall_forall. intros d Hd. apply rank_documents_In in Hd.
  rewrite Forall_forall in Hsc. specialize (Hsc d Hd).
  unfold rag_pipeline.rank_key.
  destruct (relevance_score (metadata d)) as [s|]; [|congruence].
  exists s. auto.
Qed.

(** * Document objects and collaborators that raise *)

(** ** Runs cut at the first call that raises *)

Lemma skipn_length_app {A} (l1 l2 : list A) :
  skipn (List.length l1) (l1 ++ l2) = l2.
Proof. induction l1 as [|x l1 IH]; simpl; [reflexivity | exact IH]. Qed.

Section Simulation.
Context {F : Faults}.

Lemma first_fault_app log calls1 calls2 :
  Full.first_fault log (calls1 ++ calls2)
  = match Full.first_fault log calls1 with
    | Some x => Some x
    | None => Full.first_fault (log ++ calls1) calls2
    end.
Proof.
  revert log. induction calls1 as [|c rest IH]; intros log; simpl.
  - rewrite app_nil_r. reflexivity.
  - destruct (raises log c); [reflexivity|].
    rewrite IH, <- app_assoc. reflexivity.
Qed.

(** The first call that raises is the last call of the cut log, and no
    call before it raises. *)
Lemma first_fault_Some calls :
  forall log l c e,
    Full.first_fault log calls = Some (l, c, e) ->
    exists before after,
      calls = before ++ c :: after
      /\ l = (log ++ before) ++ [c]
      /\ raises (log ++ before) c = Some e
      /\ Full.first_fault log before = None.
Proof.
  induction calls as [|c0 rest IH]; intros log l c e H; simpl in H;
    [discriminate|].
  destruct (raises log c0) as [e0|] eqn:E.
  - injection H as <- <- <-. exists [], rest. simpl.
    rewrite app_nil_r. auto.
  - apply IH in H. destruct H as [before [after [-> [-> [Hr Hn]]]]].
    exists (c0 :: before), after. simpl. rewrite E.
    rewrite <- !app_assoc in *. simpl in *. auto.
Qed.

Lemma with_faults_run {A} log (r : exn + A) calls :
  Full.with_faults log (r, log ++ calls)
  = match Full.first_fault log calls with
    | Some (l, c, e) => (inl (Full.Collaborator c e), l)
    | None =>
        (match r with inl e => inl (Full.Own e) | inr a => inr a end,
         log ++ calls)
    end.
Proof.
  unfold Full.with_faults. simpl. rewrite skipn_length_app. reflexivity.
Qed.

Lemma sim_ret {A} (a : A) : simulates (Full.ret a) (ret a).
Proof.
  intros log. split; [exists []; simpl; rewrite app_nil_r; reflexivity|].
  pose proof (with_faults_run log (@inr exn A a) []) as H.
  rewrite app_nil_r in H. symmetry. exact H.
Qed.

Lemma sim_raise {A} (e : exn) :
  simulates (@Full.raise A (Full.Own e)) (raise e).
Proof.
  intros log. split; [exists []; simpl; rewrite app_nil_r; reflexivity|].
  pose proof (with_faults_run log (@inl exn A e) []) as H.
  rewrite app_nil_r in H. symmetry. exact H.
Qed.

Lemma sim_invoke (c : call) : simulates (Full.invoke c) (tell c).
Proof.
  intros log. split; [exists [c]; reflexivity|].
  unfold tell, Full.invoke. rewrite with_faults_run. simpl.
  destruct (raises log c); reflexivity.
Qed.

Lemma sim_bind {A B} (mf : Full.M A) (m : M A) (kf : A -> Full.M B)
    (k : A -> M B) :
  simulates mf m -> (forall a, simulates (kf a) (k a)) ->
  simulates (Full.bind mf kf) (bind m k).
Proof.
  intros Hm Hk log. destruct (Hm log) as [[calls1 H1] E1].
  unfold Full.bind, bind. rewrite E1.
  destruct (m log) as [[e|a] l1]; simpl in H1; subst l1.
  - split; [exists calls1; reflexivity|].
    rewrite !with_faults_run.
    destruct (Full.first_fault log calls1) as [[[l c] x]|]; reflexivity.
  - destruct (Hk a (log ++ calls1)) as [[calls2 H2] E2].
    split; [exists (calls1 ++ calls2); rewrite H2, app_assoc; reflexivity|].
    rewrite with_faults_run.
    destruct (k a (log ++ calls1)) as [r l2] eqn:Ek. simpl in H2. subst l2.
    rewrite <- app_assoc, with_faults_run, first_fault_app.
    destruct (Full.first_fault log calls1) as [[[l c] x]|]; [reflexivity|].
    rewrite E2, app_assoc, with_faults_run. reflexivity.
Qed.

End Simulation.

(** ** Objects and values *)

Lemma insert_desc_map {A B} (f : A -> B) (key : B -> float)
    (key' : A -> float) (x : A) (l : list A) :
  (forall y, key (f y) = key' y) ->
  insert_desc key (f x) (map f l) = map f (insert_desc key' x l).
Proof.
  intros Hkey. induction l as [|y l IH]; simpl; [reflexivity|].
  rewrite !Hkey. destruct (PrimFloat.ltb (key' x) (key' y)); simpl;
    [rewrite IH|]; reflexivity.
Qed.

Lemma sorted_desc_map {A B} (f : A -> B) (key : B -> float)
    (key' : A -> float) (l : list A) :
  (forall y, key (f y) = key' y) ->
  sorted_desc key (map f l) = map f (sorted_desc key' l).
Proof.
  intros Hkey. induction l as [|x l IH]; simpl; [reflexivity|].
  rewrite IH. apply insert_desc_map. exact Hkey.
Qed.

Lemma combine_map_fst {A B C} (f : A -> B) (l : list A) (l' : list C) :
  combine (map f l) l' = map (fun x => (f (fst x), snd x)) (combine l l').
Proof.
  revert l'. induction l as [|a l IH]; intros [|c l']; simpl;
    try reflexivity.
  rewrite IH. reflexivity.
Qed.

Lemma map_fst_combine_firstn {A B} (l : list A) (l' : list B) :
  map fst (combine l l') = firstn (List.length l') l.
Proof.
  revert l'. induction l as [|a l IH]; intros [|b l']; simpl;
    try reflexivity.
  rewrite IH. reflexivity.
Qed.

Section ObjectFacts.

(** The writes of the last loop of [_rerank_documents]. *)
Let writes (top : list (Full.DocumentObject * float)) (st : Full.store)
  : Full.store :=
  fold_left
    (fun st x => Full.write_score st (Full.object_metadata (fst x)) (snd x))
    top st.

(** After the loop a dict holds the score of the last entry that shares
    it, and is unchanged when no entry does; no other key is written. *)
Lemma writes_last top :
  forall st r,
    writes top st r
    = match
        find (fun x => Nat.eqb (Full.object_metadata (fst x)) r) (rev top)
      with
      | Some x => Full.with_score (st r) (snd x)
      | None => st r
      end.
Proof.
  induction top as [|x top IH] using rev_ind; intros st r;
    [reflexivity|].
  unfold writes in *. rewrite fold_left_app, rev_app_distr. simpl.
  unfold Full.write_score at 1. rewrite Nat.eqb_sym.
  destruct (Nat.eqb (Full.object_metadata (fst x)) r); [|apply IH].
  rewrite IH.
  destruct (find _ (rev top)); reflexivity.
Qed.

Lemma find_last_NoDup (top : list (Full.DocumentObject * float)) x :
  NoDup (map (fun y => Full.object_metadata (fst y)) top) ->
  In x top ->
  find (fun y => Nat.eqb (Full.object_metadata (fst y))
                   (Full.object_metadata (fst x)))
    (rev top)
  = Some x.
Proof.
  induction top as [|y top IH] using rev_ind; intros Hnd Hin;
    [contradiction|].
  rewrite rev_app_distr. simpl.
  rewrite map_app in Hnd. simpl in Hnd.
  apply NoDup_remove in Hnd. rewrite app_nil_r in Hnd.
  destruct Hnd as [Hnd Hy].
  apply in_app_iff in Hin. destruct Hin as [Hin | [<- | []]].
  - destruct (Nat.eqb (Full.object_metadata (fst y))
                (Full.object_metadata (fst x))) eqn:E;
      [|exact (IH Hnd Hin)].
    exfalso. apply Hy. apply Nat.eqb_eq in E. rewrite E.
    apply in_map_iff. exists x. auto.
  - rewrite Nat.eqb_refl. reflexivity.
Qed.

(** Without sharing, every entry reads its own score after the loop, and
    reading the objects afterwards gives the value-level result. *)
Lemma writes_read (top : list (Full.DocumentObject * float)) st :
  NoDup (map (fun y => Full.object_metadata (fst y)) top) ->
  map (Full.read (writes top st)) (map fst top)
  = map (fun x =>
           retriever.set_relevance_score (Full.read st (fst x)) (snd x))
      top.
Proof.
  intros Hnd. rewrite map_map. apply map_ext_in. intros x Hin.
  unfold Full.read, retriever.set_relevance_score. simpl. f_equal.
  rewrite writes_last, (find_last_NoDup top x Hnd Hin). reflexivity.
Qed.

Lemma ranked_objects_NoDup (docs : list Full.DocumentObject)
    (scores : list float) (k : Z) :
  NoDup (map Full.object_metadata docs) ->
  NoDup (map (fun y => Full.object_metadata (fst y))
           (slice_to k (sorted_desc snd (combine docs scores)))).
Proof.
  intros Hnd.
  destruct (slice_to_firstn k (sorted_desc snd (combine docs scores)))
    as [n ->].
  rewrite <- firstn_map. apply NoDup_firstn_of.
  apply (Permutation_NoDup
           (l := map (fun y => Full.object_metadata (fst y))
                   (combine docs scores))).
  - apply Permutation_map. symmetry. apply sorted_desc_perm.
  - rewrite <- (map_map fst Full.object_metadata), map_fst_combine_firstn.
    rewrite <- firstn_map. apply NoDup_firstn_of. exact Hnd.
Qed.

Lemma ranked_values (docs : list Full.DocumentObject) (scores : list float)
    (k : Z) st :
  slice_to k
    (sorted_desc snd (combine (map (Full.read st) docs) scores))
  = map (fun x => (Full.read st (fst x), snd x))
      (slice_to k (sorted_desc snd (combine docs scores))).
Proof.
  rewrite combine_map_fst.
  rewrite (sorted_desc_map (fun x => (Full.read st (fst x), snd x)) snd snd)
    by reflexivity.
  apply slice_to_map.
Qed.

Lemma allocate_NoDup (docs : list Document) :
  NoDup (map Full.object_metadata (fst (Full.allocate docs))).
Proof.
  unfold Full.allocate. simpl. rewrite map_map. simpl.
  rewrite <- (map_map fst (fun r => r)), map_id.
  rewrite map_fst_combine_firstn, firstn_all2 by (rewrite length_seq; lia).
  apply seq_NoDup.
Qed.

Lemma allocate_read (docs : list Document) :
  map (Full.read (snd (Full.allocate docs))) (fst (Full.allocate docs))
  = docs.
Proof.
  unfold Full.allocate. simpl. rewrite map_map. unfold Full.read. simpl.
  assert (H : forall (pre : list Document),
             map (fun x : nat * Document =>
                    mkDocument (page_content (snd x))
                      match nth_error (pre ++ docs) (fst x) with
                      | Some d => metadata d
                      | None => Full.empty_metadata
                      end)
               (combine (seq (List.length pre) (List.length docs)) docs)
             = docs).
  { induction docs as [|d docs IH]; intros pre; simpl; [reflexivity|].
    rewrite nth_error_app2, Nat.sub_diag by lia. simpl.
    destruct d as [c m]. simpl. f_equal.
    specialize (IH (pre ++ [mkDocument c m])).
    rewrite length_app, Nat.add_1_r in IH. simpl in IH.
    rewrite <- app_assoc in IH. exact IH. }
  exact (H []).
Qed.

End ObjectFacts.

(** ** Every function with its collaborators allowed to raise *)

Section FullPipeline.
Context {S : Services} {F : Faults}.

Lemma rewrite_ticket_simulates ticket llm :
  simulates (Full.rewrite_ticket ticket llm)
    (query_rewriter.rewrite_ticket ticket llm).
Proof.
  unfold Full.rewrite_ticket, query_rewriter.rewrite_ticket.
  destruct (negb (truthy ticket) || negb (truthy (strip ticket)))%bool;
    [apply sim_raise|].
  apply sim_bind; [apply sim_invoke|]. intros _. apply sim_ret.
Qed.

Lemma infer_action_simulates answer threshold :
  simulates (Full.infer_action answer threshold)
    (action_classifier.infer_action answer threshold).
Proof.
  unfold Full.infer_action, action_classifier.infer_action.
  destruct (negb (truthy answer) || negb (truthy (strip answer)))%bool;
    [apply sim_ret|].
  apply sim_bind; [apply sim_invoke|]. intros _. cbv zeta.
  destruct (PrimFloat.ltb _ threshold); apply sim_ret.
Qed.

Lemma generate_answer_simulates ticket docs llm :
  simulates (Full.generate_answer ticket docs llm)
    (generation.generate_answer ticket docs llm).
Proof.
  unfold Full.generate_answer, generation.generate_answer.
  destruct (negb (truthy ticket) || negb (truthy (strip ticket)))%bool;
    [apply sim_raise|].
  apply sim_bind; [apply sim_invoke|]. intros _. cbv zeta.
  destruct (match llm _ with Some r => json_answer r | None => None end)
    as [a|]; [|apply sim_raise].
  apply sim_bind; [apply infer_action_simulates|]. intros d.
  destruct (schemas.new_MCPResponse _ _ _); [apply sim_raise | apply sim_ret].
Qed.

(** A run of the reranking over objects, for a list that is not empty. *)
Lemma full_rerank_documents_run query docs top_k st log :
  docs <> [] ->
  let pairs := map (fun d => (query, Full.object_content d)) docs in
  let top :=
    slice_to top_k
      (sorted_desc snd (combine docs (RERANKER_predict pairs))) in
  Full._rerank_documents query docs top_k st log
  = match raises log (RerankCall pairs) with
    | Some e =>
        (inl (Full.Collaborator (RerankCall pairs) e),
         log ++ [RerankCall pairs])
    | None =>
        (inr (map fst top, map snd top,
              fold_left
                (fun st x =>
                   Full.write_score st (Full.object_metadata (fst x))
                     (snd x))
                top st),
         log ++ [RerankCall pairs])
    end.
Proof.
  intros Hne. destruct docs as [|d docs]; [congruence|].
  unfold Full._rerank_documents, Full.bind, Full.invoke, Full.ret.
  cbv zeta. destruct (raises log _); reflexivity.
Qed.

Lemma rerank_documents_run_cons query docs top_k log :
  docs <> [] ->
  let pairs := map (fun d => (query, page_content d)) docs in
  let top :=
    slice_to top_k
      (sorted_desc snd (combine docs (RERANKER_predict pairs))) in
  retriever._rerank_documents query docs top_k log
  = (inr (map (fun x => retriever.set_relevance_score (fst x) (snd x)) top,
          map snd top),
     log ++ [RerankCall pairs]).
Proof.
  intros Hne. destruct docs as [|d docs]; [congruence | reflexivity].
Qed.

(** For objects that share no metadata dict, reading the result of the
    reranking over objects gives the result of the reranking over
    values. *)
Lemma full_rerank_documents_refines query docs top_k st log :
  NoDup (map Full.object_metadata docs) ->
  match Full._rerank_documents query docs top_k st log with
  | (inr r, l) => (inr (map (Full.read (snd r)) (fst (fst r)), snd (fst r)), l)
  | (inl e, l) => (inl e, l)
  end
  = Full.with_faults log
      (retriever._rerank_documents query (map (Full.read st) docs) top_k log).
Proof.
  intros Hnd. destruct docs as [|d0 docs0].
  - simpl. pose proof (with_faults_run log
                         (@inr exn (list Document * list float) ([], [])) [])
      as H.
    rewrite app_nil_r in H. symmetry. exact H.
  - assert (Hne : d0 :: docs0 <> []) by discriminate.
    assert (Hne' : map (Full.read st) (d0 :: docs0) <> []) by discriminate.
    remember (d0 :: docs0) as docs eqn:Hdocs. clear Hdocs.
    rewrite (full_rerank_documents_run query docs top_k st log Hne).
    rewrite (rerank_documents_run_cons query _ top_k log Hne').
    cbv zeta. rewrite with_faults_run. simpl Full.first_fault.
    assert (Hpairs : map (fun d => (query, page_content d))
                       (map (Full.read st) docs)
                     = map (fun d => (query, Full.object_content d)) docs)
      by (rewrite map_map; reflexivity).
    rewrite Hpairs.
    set (pairs := map (fun d => (query, Full.object_content d)) docs).
    destruct (raises log (RerankCall pairs)); [reflexivity|].
    cbn [fst snd]. rewrite ranked_values, !map_map. cbn [fst snd].
    rewrite <- (map_map fst (Full.read _)).
    rewrite (writes_read _ st (ranked_objects_NoDup docs _ top_k Hnd)).
    reflexivity.
Qed.

Lemma retrieve_documents_simulates q k1 k2 :
  simulates (Full.retrieve_documents q k1 k2)
    (retriever.retrieve_documents q k1 k2).
Proof.
  unfold Full.retrieve_documents, retriever.retrieve_documents.
  destruct (negb (truthy (strip q))); [apply sim_raise|].
  apply sim_bind; [apply sim_invoke|]. intros _ log. cbv zeta.
  set (found := retriever_invoke (strip q) k1).
  pose proof (full_rerank_documents_refines (strip q)
                (fst (Full.allocate found)) k2 (snd (Full.allocate found)) log
                (allocate_NoDup found)) as Href.
  rewrite allocate_read in Href.
  assert (Hgrow : exists calls,
             snd (retriever._rerank_documents (strip q) found k2 log)
             = log ++ calls).
  { rewrite rerank_documents_run. destruct found.
    - exists []. simpl. rewrite app_nil_r. reflexivity.
    - eexists. reflexivity. }
  destruct Hgrow as [calls Hgrow].
  unfold Full.bind, bind.
  destruct (retriever._rerank_documents (strip q) found k2 log)
    as [rv lv] eqn:Ev.
  simpl in Hgrow. subst lv.
  destruct (Full._rerank_documents (strip q) (fst (Full.allocate found)) k2
              (snd (Full.allocate found)) log) as [[e|r] l] eqn:Ef;
    rewrite with_faults_run in Href.
  - split; [destruct rv; eexists; reflexivity|].
    destruct rv as [ev|[dv sv]]; unfold ret; rewrite with_faults_run;
      destruct (Full.first_fault log calls) as [[[l' c] x]|];
      congruence.
  - split; [destruct rv; eexists; reflexivity|].
    destruct rv as [ev|[dv sv]]; unfold ret, Full.ret;
      rewrite with_faults_run;
      destruct (Full.first_fault log calls) as [[[l' c] x]|];
      try congruence.
    injection Href as Hd Hs Hl. subst. reflexivity.
Qed.

Lemma retrieve_loop_simulates queries :
  forall docs best,
    simulates (Full.retrieve_loop queries docs best)
      (rag_pipeline.retrieve_loop queries docs best).
Proof.
  induction queries as [|q rest IH]; intros docs best; simpl.
  - apply sim_ret.
  - apply sim_bind; [apply retrieve_documents_simulates|].
    intros r. apply IH.
Qed.

Lemma resolve_ticket_simulates ticket llm :
  simulates (Full.resolve_ticket ticket llm)
    (rag_pipeline.resolve_ticket ticket llm).
Proof.
  unfold Full.resolve_ticket, rag_pipeline.resolve_ticket.
  apply sim_bind; [apply rewrite_ticket_simulates|]. intros queries.
  apply sim_bind; [apply retrieve_loop_simulates|]. intros r.
  apply sim_bind; [apply generate_answer_simulates|]. intros g.
  apply sim_ret.
Qed.

End FullPipeline.

(** ** Reranking over objects *)

Lemma combine_fst_snd {A B} (l : list (A * B)) :
  combine (map fst l) (map snd l) = l.
Proof.
  induction l as [|[a b] l IH]; simpl; [reflexivity|].
  rewrite IH. reflexivity.
Qed.

(** X3: [_rerank_documents] over document objects, with a reranker that
    may raise.  For an empty list it returns [([], [])] without a call.
    Otherwise it calls the reranker once, on the pairs of the query with
    every content.  When that call raises, the exception passes through.
    When it returns, the function returns documents and scores of equal
    length, every returned document being one of the given objects; there
    are at most [len(docs)] of them, and at most [top_k] when [top_k] is
    not negative.  Afterwards the metadata dict at an address holds the
    score of the last returned document that shares it, is unchanged when
    no returned document shares it, and has no other key written.  So
    when the given documents share no dict, every returned document
    carries its own score and reading the result gives what the function
    over values returns; when two returned documents share a dict, both
    show the score of the later one. *)
Theorem X3_rerank_documents_objects (S : Services) (F : Faults) query docs
    top_k st log :
  let pairs := map (fun d => (query, Full.object_content d)) docs in
  (docs = [] ->
   Full._rerank_documents query docs top_k st log = (inr ([], [], st), log))
  /\ (docs <> [] ->
      forall e,
        raises log (RerankCall pairs) = Some e ->
        Full._rerank_documents query docs top_k st log
        = (inl (Full.Collaborator (RerankCall pairs) e),
           log ++ [RerankCall pairs]))
  /\ (docs <> [] ->
      raises log (RerankCall pairs) = None ->
      exists out scores st',
        Full._rerank_documents query docs top_k st log
        = (inr (out, scores, st'), log ++ [RerankCall pairs])
        /\ List.length out = List.length scores
        /\ List.length out <= List.length docs
        /\ ((0 <= top_k)%Z -> (Z.of_nat (List.length out) <= top_k)%Z)
        /\ (forall d, In d out -> In d docs)
        /\ (forall r,
               st' r
               = match
                   find (fun x => Nat.eqb (Full.object_metadata (fst x)) r)
                     (rev (combine out scores))
                 with
                 | Some x => Full.with_score (st r) (snd x)
                 | None => st r
                 end)
        /\ (NoDup (map Full.object_metadata docs) ->
            map (fun d => relevance_score (metadata (Full.read st' d))) out
            = map Some scores
            /\ retriever._rerank_documents query (map (Full.read st) docs)
                 top_k log
               = (inr (map (Full.read st') out, scores),
                  log ++ [RerankCall pairs]))).
Proof.
  intros pairs. split; [intros ->; reflexivity|]. split.
  - intros Hne e He.
    rewrite (full_rerank_documents_run query docs top_k st log Hne).
    cbv zeta. fold pairs. rewrite He. reflexivity.
  - intros Hne Hret.
    pose proof (full_rerank_documents_run query docs top_k st log Hne)
      as Hrun.
    cbv zeta in Hrun. fold pairs in Hrun. rewrite Hret in Hrun.
    set (top := slice_to top_k
                  (sorted_desc snd (combine docs (RERANKER_predict pairs))))
      in *.
    eexists _, _, _. split; [exact Hrun|].
    split; [rewrite !length_map; reflexivity|].
    split.
    { rewrite length_map. etransitivity; [apply slice_to_le_length|].
      rewrite (Permutation_length (sorted_desc_perm snd _)).
      rewrite length_combine. apply Nat.le_min_l. }
    split.
    { intros Hk. rewrite length_map. unfold top.
      rewrite slice_to_length.
      destruct (top_k <? 0)%Z eqn:E; [apply Z.ltb_lt in E; lia|]. lia. }
    split.
    { intros d Hd. apply in_map_iff in Hd. destruct Hd as [[d' s] [<- Hin]].
      apply In_slice_to in Hin.
      apply (Permutation_in _ (sorted_desc_perm snd _)) in Hin.
      exact (in_combine_l _ _ _ _ Hin). }
    split.
    { intros r. rewrite combine_fst_snd. apply writes_last. }
    intros Hnd.
    pose proof (writes_read top st (ranked_objects_NoDup docs _ top_k Hnd))
      as Hread.
    split.
    + rewrite <- (map_map (Full.read _)
                    (fun d => relevance_score (metadata d))).
      rewrite Hread, !map_map. reflexivity.
    + assert (Hne' : map (Full.read st) docs <> []).
      { destruct docs; [congruence | discriminate]. }
      rewrite (rerank_documents_run_cons query _ top_k log Hne').
      cbv zeta.
      assert (Hpairs : map (fun d => (query, page_content d))
                         (map (Full.read st) docs)
                       = pairs) by (unfold pairs; rewrite map_map; reflexivity).
      rewrite Hpairs, ranked_values. fold top.
      rewrite Hread, !map_map. reflexivity.
Qed.

(** ** The outcomes of [retrieve_documents] *)

(** X5: [retrieve_documents] with an index and a reranker that may raise.
    A blank query raises the [ValueError] of the function before any
    call.  For any other query the index is searched once, with the
    trimmed query and [initial_k]; when the search raises, its exception
    passes through; when it finds nothing, the function returns no
    document and the assessment of no score, without a call to the
    reranker; otherwise the reranker is called once, its exception passes
    through when it raises, and when it returns the function returns at
    most as many documents as were found, at most [final_k] when
    [final_k] is not negative, each carrying its score, with the
    assessment of these scores.  The function raises nothing else. *)
Theorem X5_retrieve_documents_outcomes (S : Services) (F : Faults) q k1 k2
    log :
  let search := SearchCall (strip q) k1 in
  let found := retriever_invoke (strip q) k1 in
  let rerank :=
    RerankCall (map (fun d => (strip q, page_content d)) found) in
  (truthy (strip q) = false ->
   Full.retrieve_documents q k1 k2 log
   = (inl (Full.Own (ValueError (u "Query must be a non-empty string"))),
      log))
  /\ (truthy (strip q) = true ->
      (forall e,
          raises log search = Some e ->
          Full.retrieve_documents q k1 k2 log
          = (inl (Full.Collaborator search e), log ++ [search]))
      /\ (raises log search = None -> found = [] ->
          Full.retrieve_documents q k1 k2 log
          = (inr ([], retriever.evaluate_retrieval [] []), log ++ [search]))
      /\ (raises log search = None -> found <> [] ->
          forall e,
            raises (log ++ [search]) rerank = Some e ->
            Full.retrieve_documents q k1 k2 log
            = (inl (Full.Collaborator rerank e), log ++ [search; rerank]))
      /\ (raises log search = None -> found <> [] ->
          raises (log ++ [search]) rerank = None ->
          exists docs scores,
            Full.retrieve_documents q k1 k2 log
            = (inr (docs, retriever.evaluate_retrieval scores docs),
               log ++ [search; rerank])
            /\ map (fun d => relevance_score (metadata d)) docs
               = map Some scores
            /\ List.length docs <= List.length found
            /\ ((0 <= k2)%Z -> (Z.of_nat (List.length docs) <= k2)%Z))).
Proof.
  cbv zeta. split.
  { intros Hq. unfold Full.retrieve_documents. rewrite Hq. reflexivity. }
  intros Hq.
  destruct (retrieve_documents_simulates q k1 k2 log) as [_ Hsim].
  rewrite (retrieve_documents_run q k1 k2 log Hq) in Hsim.
  remember (retriever_invoke (strip q) k1) as found eqn:Hfound.
  clear Hfound.
  set (search := SearchCall (strip q) k1) in *.
  destruct found as [|d0 found0].
  - rewrite rerank_documents_run in Hsim. cbn [fst snd] in Hsim.
    rewrite with_faults_run in Hsim. simpl Full.first_fault in Hsim.
    split; [intros e He; rewrite He in Hsim; exact Hsim|].
    split; [intros He _; rewrite He in Hsim; exact Hsim|].
    split; intros _ Hne; congruence.
  - assert (Hne : d0 :: found0 <> []) by discriminate.
    remember (d0 :: found0) as found eqn:Hfound. clear Hfound.
    rewrite (rerank_documents_run_cons (strip q) found k2
               (log ++ [search]) Hne) in Hsim.
    cbv zeta in Hsim. cbn [fst snd] in Hsim.
    set (rerank :=
           RerankCall (map (fun d => (strip q, page_content d)) found)) in *.
    rewrite <- app_assoc, with_faults_run in Hsim.
    simpl Full.first_fault in Hsim. simpl app in Hsim.
    split; [intros e He; rewrite He in Hsim; exact Hsim|].
    split; [intros _ Hnil; congruence|].
    split.
    + intros He _ e Hr. rewrite He, Hr in Hsim.
      rewrite <- app_assoc in Hsim. exact Hsim.
    + intros He _ Hr. rewrite He, Hr in Hsim.
      set (top := slice_to k2 _) in Hsim.
      eexists _, _. split; [exact Hsim|].
      split; [rewrite !map_map; reflexivity|].
      split.
      { rewrite length_map. etransitivity; [apply slice_to_le_length|].
        rewrite (Permutation_length (sorted_desc_perm snd _)).
        rewrite length_combine. apply Nat.le_min_l. }
      intros Hk. rewrite length_map. unfold top. rewrite slice_to_length.
      destruct (k2 <? 0)%Z eqn:E; [apply Z.ltb_lt in E; lia|]. lia.
Qed.

(** ** The outcomes of [infer_action] *)

(** X8: [infer_action] with an embedding model that may raise.  For a
    blank answer it returns the abstention with confidence 0.0 without a
    call.  For any other answer it calls the model once; when the call
    raises, the exception passes through; when it returns, the action is
    ["no_action"] or a label of the enum whose similarity is positive,
    not below the threshold and exceeded by no other label's, with that
    similarity rounded to 3 decimals as confidence.  The function raises
    nothing of its own. *)
Theorem X8_infer_action_outcomes (S : Services) (F : Faults) answer
    threshold log :
  (truthy (strip answer) = false ->
   Full.infer_action answer threshold log
   = (inr (action_classifier.mkDecision (u "no_action") 0), log))
  /\ (truthy (strip answer) = true ->
      (forall e,
          raises log (EncodeCall answer) = Some e ->
          Full.infer_action answer threshold log
          = (inl (Full.Collaborator (EncodeCall answer) e),
             log ++ [EncodeCall answer]))
      /\ (raises log (EncodeCall answer) = None ->
          exists d,
            Full.infer_action answer threshold log
            = (inr d, log ++ [EncodeCall answer])
            /\ (action_classifier.action d = u "no_action"
                \/ In (action_classifier.action d) schemas.ActionRequired
                   /\ exists texts,
                        In (action_classifier.action d, texts)
                          action_classifier.ACTION_PROTOTYPES
                        /\ action_classifier.confidence d
                           = py_round (MODEL_max_similarity texts answer) 3
                        /\ PrimFloat.ltb (MODEL_max_similarity texts answer)
                             threshold
                           = false
                        /\ PrimFloat.ltb 0
                             (MODEL_max_similarity texts answer)
                           = true
                        /\ forall p',
                             In p' action_classifier.ACTION_PROTOTYPES ->
                             PrimFloat.ltb
                               (MODEL_max_similarity texts answer)
                               (MODEL_max_similarity (snd p') answer)
                             = false))).
Proof.
  split.
  - intros Hb. unfold Full.infer_action. rewrite Hb, orb_true_r.
    reflexivity.
  - intros Hnb.
    destruct (infer_action_simulates answer threshold log) as [_ Hsim].
    destruct (infer_action_label S answer threshold log) as [d [Hrun Hlab]].
    rewrite Hrun, Hnb, with_faults_run in Hsim.
    simpl Full.first_fault in Hsim.
    split; [intros e He; rewrite He in Hsim; exact Hsim|].
    intros He. rewrite He in Hsim. exists d. split; [exact Hsim|].
    exact Hlab.
Qed.

(** ** The outcomes of [generate_answer] *)

Section GenerateClosed.
Context {S : Services}.

(** With collaborators that return: the run for a non-blank ticket and
    a parsed answer that is not blank. *)
Lemma generate_answer_answered ticket docs llm log a :
  let prompt :=
    generation.MCP_GENERATION_PROMPT (strip ticket)
      (generation.str_or
         (join [10%N; 10%N] (map (fun doc => strip (page_content doc)) docs))
         (u "No relevant documentation found.")) in
  truthy (strip ticket) = true ->
  match llm prompt with Some r => json_answer r | None => None end = Some a ->
  strip a <> [] ->
  exists act,
    In act schemas.ActionRequired
    /\ generation.generate_answer ticket docs llm log
       = (if Nat.leb (List.length (strip a)) 5000
          then inr (schemas.mkMCPResponse (strip a)
                      (map strip (references.select_top_references docs 3))
                      act)
          else inl (ValueError (u "MCP schema validation failed: ")),
          log ++ [LLMCall prompt; EncodeCall (strip a)]).
Proof.
  intros prompt Hnb Hparsed Hne. unfold prompt in *. clear prompt.
  rewrite (generate_answer_run ticket docs llm log Hnb), Hparsed.
  destruct (infer_action_run (strip a) 0.5
              (log ++ [LLMCall
                         (generation.MCP_GENERATION_PROMPT (strip ticket)
                            (generation.str_or
                               (join [10%N; 10%N]
                                  (map (fun doc => strip (page_content doc))
                                     docs))
                               (u "No relevant documentation found.")))]))
    as [d [Hrun _]].
  pose proof (normalized_action_in_enum _ _ _ _ _ Hrun) as Hact.
  rewrite Hrun. rewrite strip_idem.
  rewrite (generated_response_validation a docs _ Hact).
  apply truthy_true_ne in Hne. rewrite Hne. simpl andb.
  eexists. split; [exact Hact|]. rewrite <- app_assoc.
  destruct (Nat.leb (List.length (strip a)) 5000); reflexivity.
Qed.

(** With collaborators that return, [generate_answer] raises no other
    exception than its two [ValueError]s for a non-blank ticket. *)
Lemma generate_answer_raised ticket docs llm log e log' :
  truthy (strip ticket) = true ->
  generation.generate_answer ticket docs llm log = (inl e, log') ->
  e = ValueError (u "LLM did not return valid JSON with `answer`")
  \/ e = ValueError (u "MCP schema validation failed: ").
Proof.
  intros Hnb. rewrite (generate_answer_run ticket docs llm log Hnb).
  destruct (match llm _ with Some r => json_answer r | None => None end)
    as [a|]; [|intros H; left; congruence].
  match goal with
  | |- context [action_classifier.infer_action ?x ?t ?l] =>
      destruct (infer_action_run x t l) as [d [Hrun _]]
  end.
  rewrite Hrun.
  destruct (schemas.new_MCPResponse _ _ _); intros H; [|discriminate].
  right. congruence.
Qed.

End GenerateClosed.

(** X11: [generate_answer] for a non-blank ticket, with a language model
    and an embedding model that may raise, has exactly six outcomes.  The
    generation call raises and its exception passes through.  The reply
    has no parsed answer, and the function raises its JSON [ValueError].
    The parsed answer is blank, and the function raises its schema
    [ValueError] without a call to the embedding model.  The embedding
    call raises and its exception passes through.  The answer has more
    than 5000 characters after trimming, and the function raises its
    schema [ValueError] after the embedding call.  Otherwise it returns
    the response with the trimmed answer, the trimmed references of the
    first three documents and an action of the enum. *)
Theorem X11_generate_answer_outcomes (S : Services) (F : Faults) ticket docs
    llm log :
  let prompt :=
    generation.MCP_GENERATION_PROMPT (strip ticket)
      (generation.str_or
         (join [10%N; 10%N] (map (fun doc => strip (page_content doc)) docs))
         (u "No relevant documentation found.")) in
  let parsed :=
    match llm prompt with Some r => json_answer r | None => None end in
  let asked := log ++ [LLMCall prompt] in
  truthy (strip ticket) = true ->
  (forall e,
      raises log (LLMCall prompt) = Some e ->
      Full.generate_answer ticket docs llm log
      = (inl (Full.Collaborator (LLMCall prompt) e), asked))
  /\ (raises log (LLMCall prompt) = None -> parsed = None ->
      Full.generate_answer ticket docs llm log
      = (inl (Full.Own
                (ValueError
                   (u "LLM did not return valid JSON with `answer`"))),
         asked))
  /\ (forall a,
         raises log (LLMCall prompt) = None -> parsed = Some a ->
         strip a = [] ->
         Full.generate_answer ticket docs llm log
         = (inl (Full.Own (ValueError (u "MCP schema validation failed: "))),
            asked))
  /\ (forall a e,
         raises log (LLMCall prompt) = None -> parsed = Some a ->
         strip a <> [] ->
         raises asked (EncodeCall (strip a)) = Some e ->
         Full.generate_answer ticket docs llm log
         = (inl (Full.Collaborator (EncodeCall (strip a)) e),
            asked ++ [EncodeCall (strip a)]))
  /\ (forall a,
         raises log (LLMCall prompt) = None -> parsed = Some a ->
         strip a <> [] ->
         raises asked (EncodeCall (strip a)) = None ->
         5000 < List.length (strip a) ->
         Full.generate_answer ticket docs llm log
         = (inl (Full.Own (ValueError (u "MCP schema validation failed: "))),
            asked ++ [EncodeCall (strip a)]))
  /\ (forall a,
         raises log (LLMCall prompt) = None -> parsed = Some a ->
         strip a <> [] ->
         raises asked (EncodeCall (strip a)) = None ->
         List.length (strip a) <= 5000 ->
         exists act,
           In act schemas.ActionRequired
           /\ Full.generate_answer ticket docs llm log
              = (inr (schemas.mkMCPResponse (strip a)
                        (map strip (references.select_top_references docs 3))
                        act),
                 asked ++ [EncodeCall (strip a)])).
Proof.
  intros prompt parsed asked Hnb.
  destruct (generate_answer_simulates ticket docs llm log) as [_ Hsim].
  destruct (generate_answer_raises S ticket docs llm log Hnb)
    as [Hnone [Hblank _]].
  fold prompt in Hnone, Hblank. fold parsed in Hnone, Hblank.
  assert (Hans : forall a,
             parsed = Some a -> strip a <> [] ->
             exists act,
               In act schemas.ActionRequired
               /\ Full.generate_answer ticket docs llm log
                  = Full.with_faults log
                      (if Nat.leb (List.length (strip a)) 5000
                       then inr (schemas.mkMCPResponse (strip a)
                                   (map strip
                                      (references.select_top_references docs
                                         3))
                                   act)
                       else inl (ValueError
                                   (u "MCP schema validation failed: ")),
                       log ++ [LLMCall prompt; EncodeCall (strip a)])).
  { intros a Hp Hne.
    destruct (generate_answer_answered ticket docs llm log a Hnb Hp Hne)
      as [act [Hact Hrun]].
    exists act. split; [exact Hact|]. rewrite Hsim. fold prompt in Hrun.
    rewrite Hrun. reflexivity. }
  assert (Hasked : forall a, asked ++ [EncodeCall (strip a)]
                             = log ++ [LLMCall prompt; EncodeCall (strip a)]).
  { intros a. unfold asked. rewrite <- app_assoc. reflexivity. }
  split; [|split; [|split; [|split; [|split]]]].
  - intros e He.
    destruct parsed as [a|] eqn:Hp.
    + destruct (strip a) as [|c rest] eqn:Hs.
      * rewrite Hsim, (Hblank a eq_refl Hs), with_faults_run.
        simpl. rewrite He. reflexivity.
      * assert (Hne : strip a <> []) by (rewrite Hs; discriminate).
        destruct (Hans a eq_refl Hne) as [act [_ Hrun]].
        rewrite Hrun, with_faults_run. simpl. rewrite He. reflexivity.
    + rewrite Hsim, (Hnone eq_refl), with_faults_run.
      simpl. rewrite He. reflexivity.
  - intros He Hp. rewrite Hsim, (Hnone Hp), with_faults_run.
    simpl. rewrite He. reflexivity.
  - intros a He Hp Hs. rewrite Hsim, (Hblank a Hp Hs), with_faults_run.
    simpl. rewrite He. reflexivity.
  - intros a e He Hp Hne Henc.
    destruct (Hans a Hp Hne) as [act [_ Hrun]].
    rewrite Hrun, with_faults_run, Hasked. simpl. rewrite He.
    fold asked. rewrite Henc. unfold asked. rewrite <- app_assoc.
    reflexivity.
  - intros a He Hp Hne Henc Hlen.
    destruct (Hans a Hp Hne) as [act [_ Hrun]].
    rewrite Hrun, with_faults_run, Hasked. simpl. rewrite He.
    fold asked. rewrite Henc.
    assert (Hl : Nat.leb (List.length (strip a)) 5000 = false)
      by (apply Nat.leb_gt; exact Hlen).
    rewrite Hl. reflexivity.
  - intros a He Hp Hne Henc Hlen.
    destruct (Hans a Hp Hne) as [act [Hact Hrun]].
    exists act. split; [exact Hact|].
    rewrite Hrun, with_faults_run, Hasked. simpl. rewrite He.
    fold asked. rewrite Henc.
    assert (Hl : Nat.leb (List.length (strip a)) 5000 = true)
      by (apply Nat.leb_le; exact Hlen).
    rewrite Hl. reflexivity.
Qed.

(** ** The exceptions of [resolve_ticket] *)

Section ResolveFacts.
Context {S : Services} {F : Faults}.

Lemma first_fault_app_None log calls1 calls2 :
  Full.first_fault log (calls1 ++ calls2) = None ->
  Full.first_fault log calls1 = None
  /\ Full.first_fault (log ++ calls1) calls2 = None.
Proof.
  rewrite first_fault_app.
  destruct (Full.first_fault log calls1); [discriminate | auto].
Qed.

(** A full run on which no call raises is the run with collaborators
    that return. *)
Lemma simulates_no_fault {A} (mf : Full.M A) (m : M A) log r calls :
  simulates mf m ->
  m log = (r, log ++ calls) ->
  Full.first_fault log calls = None ->
  mf log
  = (match r with inl e => inl (Full.Own e) | inr a => inr a end,
     log ++ calls).
Proof.
  intros Hsim Hrun Hnone. destruct (Hsim log) as [_ E].
  rewrite E, Hrun, with_faults_run, Hnone. reflexivity.
Qed.

End ResolveFacts.

(** X12: when [resolve_ticket] raises for a non-blank ticket, either the
    exception is the one a collaborator call raised, it passes through
    unchanged and that call is the last one made; or every call returned,
    the rewriting gave between one and five non-blank queries, the query
    loop returned, and the exception is one of the two [ValueError]s of
    [generate_answer], raised by it on the ranked documents.  So neither
    [rewrite_ticket] nor [retrieve_documents] raises an exception of its
    own here. *)
Theorem X12_resolve_ticket_exceptions (S : Services) (F : Faults) ticket llm
    log x log' :
  truthy (strip ticket) = true ->
  Full.resolve_ticket ticket llm log = (inl x, log') ->
  (exists c e front,
      x = Full.Collaborator c e
      /\ log' = front ++ [c]
      /\ raises front c = Some e)
  \/ ((x = Full.Own
             (ValueError (u "LLM did not return valid JSON with `answer`"))
       \/ x = Full.Own (ValueError (u "MCP schema validation failed: ")))
      /\ exists queries all_docs best log0,
           queries <> []
           /\ List.length queries <= 5
           /\ Forall (fun q => truthy (strip q) = true) queries
           /\ Full.retrieve_loop queries [] rag_pipeline.initial_eval
                (log ++ [LLMCall (query_rewriter.QUERY_REWRITE_PROMPT
                                    (strip ticket))])
              = (inr (all_docs, best), log0)
           /\ Full.generate_answer ticket
                (rag_pipeline.rank_documents all_docs) llm log0
              = (inl x, log')).
Proof.
  intros Hnb H.
  destruct (resolve_ticket_simulates ticket llm log) as [_ Hsim].
  destruct (resolve_ticket_stages S ticket llm log Hnb)
    as [queries [all_docs [best [log2 [Hne [Hlen [Hall [Hloop Hres]]]]]]]].
  set (asked := log ++ [LLMCall (query_rewriter.QUERY_REWRITE_PROMPT
                                   (strip ticket))]) in *.
  destruct (retrieve_loop_simulates queries [] rag_pipeline.initial_eval
              asked) as [[calls1 Hg1] _].
  rewrite Hloop in Hg1. simpl in Hg1. subst log2.
  destruct (generate_answer_simulates ticket
              (rag_pipeline.rank_documents all_docs) llm (asked ++ calls1))
    as [[calls2 Hg2] _].
  destruct (generation.generate_answer ticket
              (rag_pipeline.rank_documents all_docs) llm (asked ++ calls1))
    as [rg l3] eqn:Hgen.
  simpl in Hg2. subst l3.
  assert (Hlog : (asked ++ calls1) ++ calls2
                 = log ++ (LLMCall (query_rewriter.QUERY_REWRITE_PROMPT
                                      (strip ticket))
                             :: calls1 ++ calls2)).
  { unfold asked. rewrite <- !app_assoc. reflexivity. }
  rewrite H in Hsim.
  assert (Htotal : exists r,
             rag_pipeline.resolve_ticket ticket llm log
             = (r, (asked ++ calls1) ++ calls2)
             /\ (forall e, r = inl e -> rg = inl e)).
  { rewrite Hres. destruct rg as [e|g]; eexists; split; try reflexivity.
    - intros e' He'. congruence.
    - intros e' He'. discriminate. }
  destruct Htotal as [r [Htotal Hr]].
  rewrite Htotal, Hlog, with_faults_run in Hsim.
  destruct (Full.first_fault log _) as [[[l c] e]|] eqn:Hff.
  - left. injection Hsim as -> ->.
    apply first_fault_Some in Hff.
    destruct Hff as [before [after [_ [-> [Hraise _]]]]].
    exists c, e, (log ++ before). auto.
  - right. destruct r as [e|res]; [|discriminate].
    injection Hsim as Hx Hl. subst x log'.
    specialize (Hr e eq_refl). subst rg.
    split.
    { destruct (generate_answer_raised _ _ _ _ _ _ Hnb Hgen) as [-> | ->];
        auto. }
    change (LLMCall (query_rewriter.QUERY_REWRITE_PROMPT (strip ticket))
              :: calls1 ++ calls2)
      with ([LLMCall (query_rewriter.QUERY_REWRITE_PROMPT (strip ticket))]
              ++ calls1 ++ calls2) in Hff.
    apply first_fault_app_None in Hff. destruct Hff as [_ Hff].
    fold asked in Hff.
    apply first_fault_app_None in Hff. destruct Hff as [Hf1 Hf2].
    exists queries, all_docs, best, (asked ++ calls1).
    split; [exact Hne|]. split; [exact Hlen|]. split; [exact Hall|].
    split.
    + exact (simulates_no_fault _ _ asked _ calls1
               (retrieve_loop_simulates queries [] rag_pipeline.initial_eval)
               Hloop Hf1).
    + rewrite <- Hlog.
      exact (simulates_no_fault _ _ (asked ++ calls1) _ calls2
               (generate_answer_simulates ticket
                  (rag_pipeline.rank_documents all_docs) llm)
               Hgen Hf2).
Qed.

(** ** The full pipeline and the pipeline with returning collaborators *)

(** X19: a run of [resolve_ticket] with collaborators that may raise is
    the run with collaborators that return, cut at the first call that
    raises: the calls up to that one are the same, its exception passes
    through unchanged, and no call follows it.  So a resolution that
    returns is a resolution with returning collaborators, and when no
    call raises the two agree on the result and on every call. *)
Theorem X19_resolve_ticket_cut_at_first_fault (S : Services) (F : Faults)
    ticket llm log :
  Full.resolve_ticket ticket llm log
  = Full.with_faults log (rag_pipeline.resolve_ticket ticket llm log)
  /\ (forall res log',
         Full.resolve_ticket ticket llm log = (inr res, log') ->
         rag_pipeline.resolve_ticket ticket llm log = (inr res, log'))
  /\ ((forall l c, raises l c = None) ->
      Full.resolve_ticket ticket llm log
      = match rag_pipeline.resolve_ticket ticket llm log with
        | (inl e, l) => (inl (Full.Own e), l)
        | (inr res, l) => (inr res, l)
        end)
  /\ (forall c e l,
         Full.resolve_ticket ticket llm log
         = (inl (Full.Collaborator c e), l) ->
         exists before after,
           snd (rag_pipeline.resolve_ticket ticket llm log)
           = log ++ before ++ c :: after
           /\ l = log ++ before ++ [c]
           /\ raises (log ++ before) c = Some e
           /\ Full.first_fault log before = None).
Proof.
  destruct (resolve_ticket_simulates ticket llm log) as [[calls Hgrow] Hsim].
  split; [exact Hsim|].
  destruct (rag_pipeline.resolve_ticket ticket llm log) as [r l0] eqn:Hrun.
  simpl in Hgrow. subst l0. rewrite with_faults_run in Hsim.
  split; [|split].
  - intros res log' H. rewrite H in Hsim.
    destruct (Full.first_fault log calls) as [[[l c] e]|]; [discriminate|].
    destruct r as [e|res']; [discriminate|]. congruence.
  - intros Hnone.
    assert (Hff : forall cs l, Full.first_fault l cs = None).
    { induction cs as [|c cs IH]; intros l; simpl; [reflexivity|].
      rewrite Hnone. apply IH. }
    rewrite Hsim, Hff. destruct r; reflexivity.
  - intros c e l H. rewrite H in Hsim.
    destruct (Full.first_fault log calls) as [[[l' c'] e']|] eqn:Hff.
    + injection Hsim as -> -> ->.
      apply first_fault_Some in Hff.
      destruct Hff as [before [after [-> [-> [Hraise Hnone]]]]].
      exists before, after. simpl. rewrite <- app_assoc. auto.
    + destruct r; discriminate.
Qed.

(** ** The further properties at concrete inputs *)

Lemma X4_rerank_scores_descending_witness :
  @retriever._rerank_documents Demo.poor_services (u "q") Demo.rerank_input 4
    []
  = (inr (Demo.rerank_docs, Demo.rerank_scores), Demo.rerank_log)
  /\ StronglySorted (fun a b => PrimFloat.leb b a = true) Demo.rerank_scores.
Proof.
  assert (Hrun : @retriever._rerank_documents Demo.poor_services (u "q")
                   Demo.rerank_input 4 []
                 = (inr (Demo.rerank_docs, Demo.rerank_scores),
                    Demo.rerank_log))
    by (vm_compute; reflexivity).
  split; [exact Hrun|].
  apply (X4_rerank_scores_descending Demo.poor_services (u "q")
           Demo.rerank_input 4 [] Demo.rerank_docs Demo.rerank_scores
           Demo.rerank_log); [|exact Hrun].
  repeat constructor.
Defined.

Lemma X6_retrieval_assessment_witness :
  @retriever.retrieve_documents Demo.poor_services (u "first")
    retriever.INITIAL_K retriever.FINAL_K []
  = (inr (Demo.retrieve_docs, Demo.retrieve_eval), Demo.retrieve_log)
  /\ dict_get Demo.retrieve_eval "num_results"
     = Some (VInt (Z.of_nat (List.length Demo.retrieve_docs))).
Proof.
  assert (Hrun : @retriever.retrieve_documents Demo.poor_services (u "first")
                   retriever.INITIAL_K retriever.FINAL_K []
                 = (inr (Demo.retrieve_docs, Demo.retrieve_eval),
                    Demo.retrieve_log))
    by (vm_compute; reflexivity).
  split; [exact Hrun|].
  destruct (X6_retrieval_assessment Demo.poor_services (u "first")
              retriever.INITIAL_K retriever.FINAL_K [] Demo.retrieve_docs
              Demo.retrieve_eval Demo.retrieve_log Hrun)
    as [_ [Hnum _]].
  apply Hnum. discriminate.
Defined.

Lemma X7_blank_ticket_witness :
  truthy (strip (u "   ")) = false
  /\ @rag_pipeline.resolve_ticket Demo.poor_services (u "   ") Demo.llm_test
       []
     = (inl (ValueError (u "ticket_text must be non-empty")), []).
Proof.
  assert (Hb : truthy (strip (u "   ")) = false) by reflexivity.
  split; [exact Hb|].
  destruct (X7_blank_ticket Demo.poor_services (u "   ") [] Demo.llm_test []
              Hb)
    as [_ [_ H]].
  exact H.
Defined.

Lemma X9_accepted_response_is_stable_witness :
  schemas.new_MCPResponse (u "  Test ") [u " ref "; u "  "] (u "none")
  = inr (schemas.mkMCPResponse (u "Test") [u "ref"] (u "none"))
  /\ schemas.new_MCPResponse (u "Test") [u "ref"] (u "none")
     = inr (schemas.mkMCPResponse (u "Test") [u "ref"] (u "none")).
Proof.
  assert (Hacc : schemas.new_MCPResponse (u "  Test ") [u " ref "; u "  "]
                   (u "none")
                 = inr (schemas.mkMCPResponse (u "Test") [u "ref"]
                          (u "none")))
    by (vm_compute; reflexivity).
  split; [exact Hacc|].
  destruct (X9_accepted_response_is_stable _ _ _ _ Hacc)
    as [_ [_ [_ [_ [_ H]]]]].
  exact H.
Defined.

Lemma X10_generate_answer_returns_witness :
  exists act log',
    @generation.generate_answer Demo.poor_services (u "Help") []
      Demo.llm_test []
    = (inr (schemas.mkMCPResponse (u "Test") [] act), log')
    /\ List.length log' = 2
    /\ In act schemas.ActionRequired.
Proof.
  destruct (X10_generate_answer_returns Demo.poor_services (u "Help") []
              Demo.llm_test [] (u "Test"))
    as [act [Hrun [Hin _]]].
  - reflexivity.
  - reflexivity.
  - discriminate.
  - vm_compute. lia.
  - exists act. eexists. split; [exact Hrun|]. split; [reflexivity|exact Hin].
Defined.

Lemma X13_resolve_ticket_result_witness :
  @rag_pipeline.resolve_ticket Demo.poor_services (u "Help") Demo.llm_test []
  = (inr Demo.poor_result, Demo.poor_log)
  /\ Spec.trimmed_nonempty (rag_pipeline.answer Demo.poor_result)
  /\ NoDup (map page_content (rag_pipeline._reranked_docs Demo.poor_result)).
Proof.
  assert (Hrun : @rag_pipeline.resolve_ticket Demo.poor_services (u "Help")
                   Demo.llm_test []
                 = (inr Demo.poor_result, Demo.poor_log))
    by (vm_compute; reflexivity).
  split; [exact Hrun|].
  destruct (X13_resolve_ticket_result Demo.poor_services (u "Help")
              Demo.llm_test [] Demo.poor_result Demo.poor_log Hrun)
    as [Ha [_ [_ [_ [_ [_ [Hnd _]]]]]]].
  split; [exact Ha | exact Hnd].
Defined.

Lemma X14_resolve_ticket_calls_witness :
  @rag_pipeline.resolve_ticket Demo.poor_services (u "Help") Demo.llm_test []
  = (inr Demo.poor_result, Demo.poor_log)
  /\ exists calls,
       Demo.poor_log = [] ++ calls
       /\ CallLog.count CallLog.is_llm calls = 2
       /\ CallLog.count CallLog.is_encode calls = 1.
Proof.
  assert (Hrun : @rag_pipeline.resolve_ticket Demo.poor_services (u "Help")
                   Demo.llm_test []
                 = (inr Demo.poor_result, Demo.poor_log))
    by (vm_compute; reflexivity).
  split; [exact Hrun|].
  destruct (X14_resolve_ticket_calls Demo.poor_services (u "Help")
              Demo.llm_test [] Demo.poor_result Demo.poor_log Hrun)
    as [calls [Hlog [Hllm [_ [_ Henc]]]]].
  exists calls. auto.
Defined.

Lemma X15_resolve_ticket_endpoint_witness :
  schemas.new_TicketRequest (u "Help me") = inr Demo.help_request
  /\ 5 <= List.length (u "Help me") <= 5000
  /\ schemas.new_TicketRequest (u "     ")
     = inr (schemas.mkTicketRequest (u "     "))
  /\ @main.resolve_ticket_endpoint Demo.poor_services
       (schemas.mkTicketRequest (u "     ")) Demo.llm_test []
     = (main.HTTPException 500 (u "Failed to resolve support ticket"), []).
Proof.
  assert (H1 : schemas.new_TicketRequest (u "Help me")
               = inr Demo.help_request) by reflexivity.
  assert (H2 : schemas.new_TicketRequest (u "     ")
               = inr (schemas.mkTicketRequest (u "     "))) by reflexivity.
  split; [exact H1|].
  destruct (X15_resolve_ticket_endpoint Demo.poor_services (u "Help me")
              Demo.help_request Demo.llm_test [] H1)
    as [Hlen _].
  split; [exact Hlen|]. split; [exact H2|].
  destruct (X15_resolve_ticket_endpoint Demo.poor_services (u "     ")
              (schemas.mkTicketRequest (u "     ")) Demo.llm_test [] H2)
    as [_ [_ [Hblank _]]].
  apply Hblank. reflexivity.
Defined.

Lemma X17_queries_are_pieces_of_lines_witness :
  @query_rewriter.rewrite_ticket Demo.poor_services (u "Help") Demo.llm_lines
    []
  = (inr Demo.rewritten, Demo.rewritten_log)
  /\ Forall (Forall (fun c => islinebreak c = false)) Demo.rewritten.
Proof.
  assert (Hrun : @query_rewriter.rewrite_ticket Demo.poor_services (u "Help")
                   Demo.llm_lines []
                 = (inr Demo.rewritten, Demo.rewritten_log))
    by (vm_compute; reflexivity).
  split; [exact Hrun|].
  pose proof (X17_queries_are_pieces_of_lines Demo.poor_services (u "Help")
                Demo.llm_lines [] Demo.rewritten Demo.rewritten_log Hrun)
    as H.
  apply Forall_forall. intros q Hq.
  rewrite Forall_forall in H. exact (proj2 (H q Hq)).
Defined.

Lemma X18_reranked_docs_are_scored_witness :
  @rag_pipeline.resolve_ticket Demo.poor_services (u "Help") Demo.llm_test []
  = (inr Demo.poor_result, Demo.poor_log)
  /\ Forall (fun d => relevance_score (metadata d) <> None)
       (rag_pipeline._reranked_docs Demo.poor_result).
Proof.
  assert (Hrun : @rag_pipeline.resolve_ticket Demo.poor_services (u "Help")
                   Demo.llm_test []
                 = (inr Demo.poor_result, Demo.poor_log))
    by (vm_compute; reflexivity).
  split; [exact Hrun|].
  pose proof (X18_reranked_docs_are_scored Demo.poor_services (u "Help")
                Demo.llm_test [] Demo.poor_result Demo.poor_log Hrun) as H.
  apply Forall_forall. intros d Hd.
  rewrite Forall_forall in H. destruct (H d Hd) as [s [Hs _]].
  rewrite Hs. discriminate.
Defined.

(** X3 at two documents that share their metadata dict: the scores are
    1.0 and 0.5, and both documents show 0.5. *)
Lemma X3_rerank_documents_objects_witness :
  exists out scores st',
    @Full._rerank_documents Demo.poor_services Demo.no_faults (u "q")
      Demo.shared 4 Demo.empty_store []
    = (inr (out, scores, st'),
       [RerankCall [(u "q", u "a"); (u "q", u "b")]])
    /\ out = Demo.shared
    /\ scores = [1.0; 0.5]%float
    /\ map (fun d => relevance_score (metadata (Full.read st' d))) out
       = [Some 0.5; Some 0.5]%float.
Proof.
  destruct (X3_rerank_documents_objects Demo.poor_services Demo.no_faults
              (u "q") Demo.shared 4 Demo.empty_store [])
    as [_ [_ Hret]].
  destruct Hret as [out [scores [st' [Hrun [_ [_ [_ [_ [Hst _]]]]]]]]];
    [discriminate | reflexivity|].
  assert (Hval : out = Demo.shared /\ scores = [1.0; 0.5]%float).
  { vm_compute in Hrun. injection Hrun as Ho Hs _. subst out scores.
    split; reflexivity. }
  destruct Hval as [-> ->].
  exists Demo.shared, [1.0; 0.5]%float, st'.
  split; [exact Hrun|]. split; [reflexivity|]. split; [reflexivity|].
  simpl. rewrite !Hst. reflexivity.
Defined.

(** X11 at a language model that returns nothing. *)
Lemma X11_generate_answer_outcomes_witness :
  truthy (strip (u "Help")) = true
  /\ exists log',
       @Full.generate_answer Demo.poor_services Demo.no_faults (u "Help") []
         (fun _ => None) []
       = (inl (Full.Own
                 (ValueError
                    (u "LLM did not return valid JSON with `answer`"))),
          log')
       /\ List.length log' = 1.
Proof.
  assert (Hnb : truthy (strip (u "Help")) = true) by reflexivity.
  split; [exact Hnb|].
  destruct (X11_generate_answer_outcomes Demo.poor_services Demo.no_faults
              (u "Help") [] (fun _ => None) [] Hnb)
    as [_ [Hnone _]].
  eexists. split; [apply Hnone; reflexivity | reflexivity].
Defined.

(** X12 at a resolution whose reranker is down. *)
Lemma X12_resolve_ticket_exceptions_witness :
  truthy (strip (u "Help")) = true
  /\ @Full.resolve_ticket Demo.poor_services Demo.reranker_down (u "Help")
       Demo.llm_test []
     = (inl (Full.Collaborator Demo.down_call (u "ConnectionError")),
        Demo.down_log)
  /\ exists front,
       Demo.down_log = front ++ [Demo.down_call]
       /\ @raises Demo.reranker_down front Demo.down_call
          = Some (u "ConnectionError").
Proof.
  assert (Hnb : truthy (strip (u "Help")) = true) by reflexivity.
  split; [exact Hnb|].
  assert (Hrun : @Full.resolve_ticket Demo.poor_services Demo.reranker_down
                   (u "Help") Demo.llm_test []
                 = (inl (Full.Collaborator Demo.down_call
                           (u "ConnectionError")),
                    Demo.down_log))
    by (vm_compute; reflexivity).
  split; [exact Hrun|].
  destruct (X12_resolve_ticket_exceptions Demo.poor_services
              Demo.reranker_down (u "Help") Demo.llm_test [] _ _ Hnb Hrun)
    as [[c [e [front [Hx [Hlog Hraise]]]]] | [[Hx | Hx] _]];
    try discriminate Hx.
  injection Hx as <- <-. exists front. split; [exact Hlog | exact Hraise].
Defined.
